(** * CloudMart resource-tagging dashboard: the filter-and-aggregate pipeline

    A shallow embedding of [elias_week10.py]: the CSV loader [load_data],
    the schema check, the four sidebar filters, the aggregates of Task Sets
    1 to 4 and the remediation workflow of Task Set 5, followed by the
    properties of the pipeline.

    Modelling conventions.
    - A Python [str] is a [string] of bytes; [str.strip] removes the ASCII
      white space characters.
    - A pandas cell is a [cell]: a string, a float64, an int64 or the
      null marker (None / NaN).  A float64 is a binary64 [float] of the
      prover, with its rounding, its infinities and its NaN, which in a
      numeric column is the null.
    - What the script leaves to numpy and pandas, and what their
      documentation does not fix, is a parameter, a [Library]: the order
      in which [sum] adds the numbers of a column or of a group, hence
      its rounding, and the order in which the default sort
      ([kind='quicksort'], not stable) leaves equal values.  The general
      properties hold for every library; those on the order of a sorted
      table ask that the sort sorts ([sorts]).  The examples are
      evaluated with [in_file_order], which adds from left to right, as
      numpy does below eight numbers, and sorts by insertion; what is
      stated of an example does not depend on the order in which that
      sort leaves equal values.
    - A [DataFrame] is its column labels and its rows.  Row labels (the
      index) are never read by the script and are left out.  A list of
      labels selects every column that carries one of them; a single
      label stands for the first such column.  The properties that depend
      on label lookup are stated for frames whose labels are distinct,
      the only ones the dashboard can render.
    - A Python exception is a [Raise] in the [result] type; the script
      itself runs in a state-and-exception monad over the two frames it
      keeps, [df] and [filtered_df]. *)

From Stdlib Require Import Floats.
From Stdlib Require Import List String Ascii Bool Arith ZArith QArith Lia.
From Stdlib Require Import Sorted Permutation OrderedTypeEx.
Import ListNotations.

Set Warnings "-inexact-float".

Local Open Scope string_scope.
Local Open Scope list_scope.
Local Open Scope nat_scope.

(** ** Python strings *)

Module PyStr.

(** [str.isspace] on the ASCII range: TAB, LF, VT, FF, CR, FS, GS, RS, US
    and the space. *)
Definition isspace (c : ascii) : bool :=
  let n := nat_of_ascii c in
  ((9 <=? n) && (n <=? 13)) || ((28 <=? n) && (n <=? 32)).

Fixpoint lstrip (s : string) : string :=
  match s with
  | EmptyString => EmptyString
  | String c s' => if isspace c then lstrip s' else s
  end.

Fixpoint rstrip (s : string) : string :=
  match s with
  | EmptyString => EmptyString
  | String c s' =>
      match rstrip s' with
      | EmptyString => if isspace c then EmptyString else String c EmptyString
      | r => String c r
      end
  end.

(** [s.strip()] *)
Definition strip (s : string) : string := rstrip (lstrip s).

(** [s.replace(c, '')] for a one-character [c] *)
Fixpoint remove (c : ascii) (s : string) : string :=
  match s with
  | EmptyString => EmptyString
  | String a s' => if Ascii.eqb a c then remove c s' else String a (remove c s')
  end.

(** [s.split(sep)] for a one-character separator: never empty, the empty
    string splits into one empty field. *)
Fixpoint split (sep : ascii) (s : string) : list string :=
  match s with
  | EmptyString => [EmptyString]
  | String a s' =>
      if Ascii.eqb a sep then EmptyString :: split sep s'
      else match split sep s' with
           | [] => [String a EmptyString]
           | f :: fs => String a f :: fs
           end
  end.

(** Truth value of a string: non-empty. *)
Definition truthy (s : string) : bool :=
  match s with EmptyString => false | _ => true end.

Definition dquote : ascii := ascii_of_nat 34.
Definition comma : ascii := ascii_of_nat 44.

End PyStr.

(** ** Exceptions *)

Inductive exn : Type :=
| IndexError
| KeyError (label : string)
| TypeError
| ZeroDivisionError.

Inductive result (A : Type) : Type :=
| Ok (a : A)
| Raise (e : exn).
Arguments Ok {A} a.
Arguments Raise {A} e.

Definition bind {A B : Type} (m : result A) (k : A -> result B) : result B :=
  match m with
  | Ok a => k a
  | Raise e => Raise e
  end.

Declare Scope result_scope.
Delimit Scope result_scope with result.
Notation "x <- m ;; k" := (bind m (fun x => k))
  (at level 61, m at next level, right associativity) : result_scope.
Local Open Scope result_scope.

Fixpoint mapM {A B : Type} (f : A -> result B) (l : list A) : result (list B) :=
  match l with
  | [] => Ok []
  | a :: l' => b <- f a ;; bs <- mapM f l' ;; Ok (b :: bs)
  end.

(** ** Frames *)

Inductive cell : Type :=
| Str (s : string)
| Num (x : float)
| Int (n : Z)
| NA.

Record DataFrame : Type := mkDF {
  columns : list string;
  rows : list (list cell)
}.

(** [len(df)] *)
Definition len (d : DataFrame) : nat := List.length (rows d).

(** Positions of a label among the column labels. *)
Fixpoint positions (label : string) (cols : list string) : list nat :=
  match cols with
  | [] => []
  | c :: cols' =>
      let rest := map S (positions label cols') in
      if String.eqb c label then 0 :: rest else rest
  end.

(** Position of the column [df[label]]; an absent label is a [KeyError]. *)
Definition col (d : DataFrame) (label : string) : result nat :=
  match positions label (columns d) with
  | [] => Raise (KeyError label)
  | i :: _ => Ok i
  end.

(** The cell of a row at a column position. *)
Definition at_col (i : nat) (row : list cell) : cell := nth i row NA.

(** The series [df[label]]. *)
Definition series (d : DataFrame) (label : string) : result (list cell) :=
  i <- col d label ;; Ok (map (at_col i) (rows d)).

(** [pd.isna] and [pd.notna] on a cell: [None] and NaN are null. *)
Definition isna (c : cell) : bool :=
  match c with NA => true | Num x => is_nan x | _ => false end.
Definition notna (c : cell) : bool := negb (isna c).

(** [cell == 'text'] *)
Definition eq_str (c : cell) (v : string) : bool :=
  match c with Str s => String.eqb s v | _ => false end.

(** ['text' in values] and [cell.isin(values)] for a list of strings. *)
Definition in_list (v : string) (values : list string) : bool :=
  existsb (String.eqb v) values.
Definition isin (c : cell) (values : list string) : bool :=
  match c with Str s => in_list s values | _ => false end.

(** Boolean indexing [df[mask]], the mask given row by row. *)
Definition loc (keep : list cell -> bool) (d : DataFrame) : DataFrame :=
  mkDF (columns d) (filter keep (rows d)).

(** [df[df[label] == v]] *)
Definition where_eq (d : DataFrame) (label v : string) : result DataFrame :=
  i <- col d label ;; Ok (loc (fun r => eq_str (at_col i r) v) d).

(** [df[df[label].isin(values)]] *)
Definition where_isin (d : DataFrame) (label : string) (values : list string)
  : result DataFrame :=
  i <- col d label ;; Ok (loc (fun r => isin (at_col i r) values) d).

(** Positions of the columns [df[labels]]: for every listed label, in the
    listed order, each column that carries it; an absent label is a
    [KeyError]. *)
Definition cols (d : DataFrame) (labels : list string) : result (list nat) :=
  idx <- mapM (fun label => match positions label (columns d) with
                            | [] => Raise (KeyError label)
                            | ps => Ok ps
                            end) labels ;;
  Ok (List.concat idx).

(** The cells of a row at a list of column positions. *)
Definition at_cols (idx : list nat) (row : list cell) : list cell :=
  map (fun i => at_col i row) idx.

(** [df[labels]] *)
Definition select (d : DataFrame) (labels : list string) : result DataFrame :=
  idx <- cols d labels ;;
  Ok (mkDF (map (fun i => nth i (columns d) EmptyString) idx)
           (map (at_cols idx) (rows d))).

(** Apply a function to the element at one position of a list. *)
Fixpoint update_at {A : Type} (i : nat) (f : A -> A) (l : list A) : list A :=
  match l, i with
  | [], _ => []
  | x :: l', O => f x :: l'
  | x :: l', S i' => x :: update_at i' f l'
  end.

(** [df[label] = values]: overwrite the column when the label exists,
    append it otherwise. *)
Definition set_column (d : DataFrame) (label : string) (values : list cell)
  : DataFrame :=
  match positions label (columns d) with
  | i :: _ =>
      mkDF (columns d)
           (map (fun rv => update_at i (fun _ => snd rv) (fst rv))
                (combine (rows d) values))
  | [] =>
      mkDF (columns d ++ [label])
           (map (fun rv => fst rv ++ [snd rv]) (combine (rows d) values))
  end.

(** ** The loader *)

Section Loader.

(** [pd.to_numeric] on one text value: the float64 it denotes, or nothing
    when the text is not numeric ([errors='coerce'] turns that into NaN). *)
Variable to_numeric : string -> option float.

Definition coerce (c : cell) : cell :=
  match c with
  | Str s => match to_numeric s with Some x => Num x | None => NA end
  | _ => c
  end.

(** The fields of a line: the line stripped, its double quotes removed,
    split at the commas, each field stripped. *)
Definition parse_line (line : string) : list string :=
  map PyStr.strip
      (PyStr.split PyStr.comma (PyStr.remove PyStr.dquote (PyStr.strip line))).

(** The loop over [lines[1:]]: blank lines are skipped, a line is kept
    when it has as many fields as the header. *)
Fixpoint data_rows (ncols : nat) (lines : list string) : list (list string) :=
  match lines with
  | [] => []
  | line :: rest =>
      if PyStr.truthy (PyStr.strip line) then
        let values := parse_line line in
        if List.length values =? ncols then values :: data_rows ncols rest
        else data_rows ncols rest
      else data_rows ncols rest
  end.

(** [load_data], from the list returned by [f.readlines()].  An empty
    file has no [lines[0]]; a header without the cost column has no
    [df['MonthlyCostUSD']]; a header with the cost column repeated makes
    [df['MonthlyCostUSD']] a frame, which [pd.to_numeric] rejects. *)
Definition load_data (lines : list string) : result DataFrame :=
  match lines with
  | [] => Raise IndexError
  | header_line :: rest =>
      let headers := parse_line header_line in
      let d := mkDF headers (map (map Str) (data_rows (List.length headers) rest)) in
      match positions "MonthlyCostUSD" headers with
      | [] => Raise (KeyError "MonthlyCostUSD")
      | [i] => Ok (mkDF headers (map (update_at i coerce) (rows d)))
      | _ => Raise TypeError
      end
  end.

End Loader.

(** ** Schema check and sidebar filters *)

Definition required_cols : list string :=
  ["AccountID"; "ResourceID"; "Service"; "Region"; "Department"; "Project";
   "Environment"; "Owner"; "CostCenter"; "CreatedBy"; "MonthlyCostUSD"; "Tagged"].

(** [[col for col in required_cols if col not in df.columns]] *)
Definition missing_cols (d : DataFrame) : list string :=
  filter (fun c => negb (in_list c (columns d))) required_cols.

(** The values of the four multiselect widgets. *)
Record Selections : Type := mkSel {
  selected_dept : list string;
  selected_service : list string;
  selected_region : list string;
  selected_env : list string
}.

(** Every widget at its default, [['All']]. *)
Definition default_selections : Selections :=
  mkSel ["All"] ["All"] ["All"] ["All"].

(** One [if 'All' not in selected: filtered_df = filtered_df[...isin(selected)]]. *)
Definition restrict (label : string) (selected : list string)
  (filtered_df : DataFrame) : result DataFrame :=
  if negb (in_list "All" selected)
  then where_isin filtered_df label selected
  else Ok filtered_df.

(** The filter block: a copy of [df], narrowed field by field. *)
Definition apply_filters (df : DataFrame) (sel : Selections) : result DataFrame :=
  let filtered_df := df in
  filtered_df <- restrict "Department" (selected_dept sel) filtered_df ;;
  filtered_df <- restrict "Service" (selected_service sel) filtered_df ;;
  filtered_df <- restrict "Region" (selected_region sel) filtered_df ;;
  restrict "Environment" (selected_env sel) filtered_df.

(** ** Numbers *)

(** A Python [int] as the float64 it converts to.  The conversion is
    exact below 2^53, far above any count of the dashboard. *)
Definition of_int (z : Z) : float :=
  if (z <? 0)%Z then (- of_uint63 (Uint63.of_Z (- z)))%float
  else of_uint63 (Uint63.of_Z z).

Definition of_nat (n : nat) : float := of_int (Z.of_nat n).

(** Python's [a / b] on two [int]s: a zero divisor raises, otherwise the
    quotient is a float. *)
Definition py_div (a b : nat) : result float :=
  if b =? 0 then Raise ZeroDivisionError else Ok (of_nat a / of_nat b)%float.

(** [0 < x] *)
Definition positive (x : float) : bool := (0 <? x)%float.

(** Nearest integer, ties to even. *)
Definition round_half_even (q : Q) : Z :=
  let n := Qnum q in
  let d := Zpos (Qden q) in
  let fl := (n / d)%Z in
  match (2 * (n mod d) ?= d)%Z with
  | Lt => fl
  | Gt => (fl + 1)%Z
  | Eq => if Z.even fl then fl else (fl + 1)%Z
  end.

(** The rational a finite float stands for; 0 for an infinity or NaN. *)
Definition exact (x : float) : Q :=
  match Prim2SF x with
  | S754_finite s m e =>
      let v := match e with
               | Zneg p => (Zpos m # 2 ^ p)%Q
               | _ => inject_Z (Zpos m * 2 ^ e)
               end in
      if s then (- v)%Q else v
  | _ => 0%Q
  end.

(** The hundredths printed by the format [:.2f]: the exact value of the
    float, rounded to the nearest hundredth. *)
Definition hundredths (x : float) : Z := round_half_even (exact x * 100)%Q.

(** [np.rint]: the nearest integral float, ties to even. *)
Definition rint (x : float) : float :=
  let two52 := 4503599627370496%float in
  if (abs x <? two52)%float
  then if get_sign x
       then (- ((- x + two52) - two52))%float
       else ((x + two52) - two52)%float
  else x.

(** [.round(2)] on an array of floats, as numpy computes it:
    [rint(x * 100) / 100]. *)
Definition round2 (x : float) : float := (rint (x * 100) / 100)%float.

(** ** What the script takes from numpy and pandas *)

(** The reductions and the sort the script calls.  The result of a sum
    depends, in its last bits, on the order in which the library adds;
    the order of equal values after a sort depends on the sort.  Neither
    is fixed by the script.
    - [np_sum]: [ndarray.sum()] on float64, behind [Series.sum()];
    - [group_sum]: the sum of the values of one group in
      [groupby(...).sum()];
    - [argsort], [argsort_int]: [ndarray.argsort(kind='quicksort')] on
      float64 and on int64, behind [sort_values]: the positions of the
      values in ascending order of the values. *)
Record Library : Type := mkLibrary {
  np_sum : list float -> float;
  group_sum : list float -> float;
  argsort : list float -> list nat;
  argsort_int : list Z -> list nat
}.

(** [values[indexer]]: the elements at the listed positions. *)
Definition take {A : Type} (indexer : list nat) (values : list A) : list A :=
  flat_map (fun i => match nth_error values i with
                     | Some a => [a]
                     | None => []
                     end) indexer.

(** [x <= y] on floats, as a proposition. *)
Definition fle (x y : float) : Prop := (x <=? y)%float = true.

(** What a sort owes: [argsort] returns each position once, and the
    values taken in that order ascend.  NaN is never handed to it. *)
Record sorts (lib : Library) : Prop := mkSorts {
  argsort_positions :
    forall values, Permutation (argsort lib values) (seq 0 (List.length values));
  argsort_ascending :
    forall values, Forall (fun x => is_nan x = false) values ->
                   StronglySorted fle (take (argsort lib values) values);
  argsort_int_positions :
    forall values, Permutation (argsort_int lib values) (seq 0 (List.length values));
  argsort_int_ascending :
    forall values, StronglySorted Z.le (take (argsort_int lib values) values)
}.

(** The number in a cell of a numeric column; NaN for a null. *)
Definition number (c : cell) : float :=
  match c with
  | Num x => x
  | Int n => of_int n
  | _ => nan
  end.

(** [Series.sum()]: the nulls count as 0 and the column is summed. *)
Definition fillna0 (c : cell) : float :=
  if is_nan (number c) then 0%float else number c.
Definition nansum (lib : Library) (s : list cell) : float :=
  np_sum lib (map fillna0 s).

(** The numbers of a column, the nulls left out. *)
Definition known (s : list cell) : list float :=
  filter (fun x => negb (is_nan x)) (map number s).

(** ** Sorting and grouping *)

(** Insertion before the first element that is not smaller: applied from
    the right of a list this is a stable ascending sort. *)
Fixpoint insert_by {A : Type} (le : A -> A -> bool) (x : A) (l : list A) : list A :=
  match l with
  | [] => [x]
  | y :: l' => if le x y then x :: l else y :: insert_by le x l'
  end.

Definition stable_sort {A : Type} (le : A -> A -> bool) (l : list A) : list A :=
  fold_right (insert_by le) [] l.

(** [sort_values] on a float64 key, the way pandas does it ([nargsort],
    [na_position='last']): the rows with a null key are set aside, the
    others are ordered by [argsort] on their keys, for a descending sort
    reversed before and after, and the rows with a null key follow in
    the order they had. *)
Definition sort_values {A : Type} (lib : Library) (ascending : bool)
  (value : A -> float) (l : list A) : list A :=
  let nonnan := filter (fun a => negb (is_nan (value a))) l in
  let nulls := filter (fun a => is_nan (value a)) l in
  (if ascending
   then take (argsort lib (map value nonnan)) nonnan
   else rev (take (argsort lib (map value (rev nonnan))) (rev nonnan)))
  ++ nulls.

(** [sort_values(..., ascending=False)] *)
Definition sort_values_desc {A : Type} (lib : Library) (value : A -> float)
  (l : list A) : list A :=
  sort_values lib false value l.

(** [sort_values()], ascending. *)
Definition sort_values_asc {A : Type} (lib : Library) (value : A -> float)
  (l : list A) : list A :=
  sort_values lib true value l.

(** [sort_values(ascending=False)] on an int64 key, which has no null. *)
Definition sort_counts_desc {A : Type} (lib : Library) (value : A -> Z)
  (l : list A) : list A :=
  rev (take (argsort_int lib (map value (rev l))) (rev l)).

(** The key of a row in a categorical column; a null has no key. *)
Definition key_of (c : cell) : option string :=
  match c with Str s => Some s | _ => None end.

(** Insertion into a strictly ascending list of keys. *)
Fixpoint insert_key (k : string) (ks : list string) : list string :=
  match ks with
  | [] => [k]
  | k' :: ks' =>
      match String.compare k k' with
      | Lt => k :: ks
      | Eq => ks
      | Gt => k' :: insert_key k ks'
      end
  end.

(** The group keys of [groupby(label)]: the distinct non-null values of
    the column, in ascending order ([sort=True], [dropna=True]). *)
Definition group_keys (s : list cell) : list string :=
  fold_right (fun c acc => match key_of c with
                           | Some k => insert_key k acc
                           | None => acc
                           end) [] s.

(** The rows of one group. *)
Definition group_rows (ki : nat) (k : string) (d : DataFrame) : list (list cell) :=
  filter (fun r => eq_str (at_col ki r) k) (rows d).

(** [df.groupby(key)[value].sum().reset_index()]: one row per key, the key
    and the sum of the numbers of the group, its nulls skipped. *)
Definition groupby_sum (lib : Library) (d : DataFrame) (key value : string)
  : result (list (string * float)) :=
  ki <- col d key ;;
  vi <- col d value ;;
  Ok (map (fun k => (k, group_sum lib (known (map (at_col vi) (group_rows ki k d)))))
          (group_keys (map (at_col ki) (rows d)))).

(** ** Task Set 1: counts and percentages *)

(** [df.isnull().sum()]: the number of nulls of every column. *)
Definition isnull_sum (d : DataFrame) : list (string * nat) :=
  map (fun il => (snd il,
                  List.length (filter (fun r => isna (at_col (fst il) r)) (rows d))))
      (combine (seq 0 (List.length (columns d))) (columns d)).

(** [(counts / len(df) * 100).round(2)] on an array of counts: on a frame
    without rows every count is 0 and 0/0 gives NaN, here the absence of
    a value, and raises nothing. *)
Definition np_percent (count total : nat) : option float :=
  if total =? 0 then None
  else Some (round2 (of_nat count / of_nat total * 100)%float).

(** The census table of Tasks 1.2 and 3.3: label, count and percentage,
    by decreasing count. *)
Definition census (lib : Library) (counts : list (string * nat)) (total : nat)
  : list (string * nat * option float) :=
  map (fun lc => (fst lc, snd lc, np_percent (snd lc) total))
      (sort_counts_desc lib (fun lc => Z.of_nat (snd lc)) counts).

(** Task 1.2 *)
Definition missing_df (lib : Library) (filtered_df : DataFrame)
  : list (string * nat * option float) :=
  census lib (isnull_sum filtered_df) (len filtered_df).

(** [len(filtered_df[filtered_df['Tagged'] == 'Yes'])] *)
Definition tagged_count (filtered_df : DataFrame) : result nat :=
  yes <- where_eq filtered_df "Tagged" "Yes" ;; Ok (len yes).

(** [len(filtered_df[filtered_df['Tagged'] == 'No'])] *)
Definition untagged_count (filtered_df : DataFrame) : result nat :=
  no <- where_eq filtered_df "Tagged" "No" ;; Ok (len no).

(** Task 1.4, the metric Tagged %: [tagged_count/len(filtered_df)*100]. *)
Definition tagged_pct_metric (filtered_df : DataFrame) : result float :=
  t <- tagged_count filtered_df ;;
  q <- py_div t (len filtered_df) ;;
  Ok (q * 100)%float.

(** Task 1.5:
    [(untagged_count / len(filtered_df) * 100) if len(filtered_df) > 0 else 0] *)
Definition untagged_pct (filtered_df : DataFrame) : result float :=
  u <- untagged_count filtered_df ;;
  if 0 <? len filtered_df
  then q <- py_div u (len filtered_df) ;; Ok (q * 100)%float
  else Ok 0%float.

(** ** Task Set 2: cost visibility *)

(** [filtered_df['MonthlyCostUSD'].sum()] *)
Definition total_cost (lib : Library) (filtered_df : DataFrame) : result float :=
  s <- series filtered_df "MonthlyCostUSD" ;; Ok (nansum lib s).

(** [filtered_df[filtered_df['Tagged'] == 'Yes']['MonthlyCostUSD'].sum()] *)
Definition tagged_cost (lib : Library) (filtered_df : DataFrame) : result float :=
  yes <- where_eq filtered_df "Tagged" "Yes" ;; total_cost lib yes.

(** [filtered_df[filtered_df['Tagged'] == 'No']['MonthlyCostUSD'].sum()] *)
Definition untagged_cost (lib : Library) (filtered_df : DataFrame) : result float :=
  no <- where_eq filtered_df "Tagged" "No" ;; total_cost lib no.

(** Task 2.2: [(untagged_cost / total_cost * 100) if total_cost > 0 else 0] *)
Definition untagged_cost_pct (lib : Library) (filtered_df : DataFrame)
  : result float :=
  total <- total_cost lib filtered_df ;;
  untagged <- untagged_cost lib filtered_df ;;
  Ok (if positive total then (untagged / total * 100)%float else 0%float).

(** Task 2.3: untagged cost by department, largest first. *)
Definition dept_untagged (lib : Library) (filtered_df : DataFrame)
  : result (list (string * float)) :=
  no <- where_eq filtered_df "Tagged" "No" ;;
  g <- groupby_sum lib no "Department" "MonthlyCostUSD" ;;
  Ok (sort_values_desc lib snd g).

(** Task 2.4: cost by project, largest first. *)
Definition project_cost (lib : Library) (filtered_df : DataFrame)
  : result (list (string * float)) :=
  g <- groupby_sum lib filtered_df "Project" "MonthlyCostUSD" ;;
  Ok (sort_values_desc lib snd g).

(** The group-by-sum of Tasks 2.3 and 2.4 on any grouping field. *)
Definition group_by_sum_desc (lib : Library) (filtered_df : DataFrame)
  (key : string) : result (list (string * float)) :=
  g <- groupby_sum lib filtered_df key "MonthlyCostUSD" ;;
  Ok (sort_values_desc lib snd g).

(** The answer line of Tasks 2.3 and 2.4: [iloc[0]] when the table has a
    row. *)
Definition top (g : list (string * float)) : option (string * float) := hd_error g.

(** One row of [env_summary]. *)
Record EnvRow : Type := mkEnvRow {
  env_name : string;
  env_total_cost : float;
  env_total_resources : nat;
  env_tagging_pct : float
}.

(** Task 2.5, the tagging percentage of one environment:
    [(len(env_df[env_df['Tagged'] == 'Yes']) / len(env_df) * 100)
     if len(env_df) > 0 else 0] *)
Definition tagged_pct (env_df : DataFrame) : result float :=
  yes <- where_eq env_df "Tagged" "Yes" ;;
  if 0 <? len env_df
  then q <- py_div (len yes) (len env_df) ;; Ok (q * 100)%float
  else Ok 0%float.

(** Task 2.5: cost, number of resources (non-null [ResourceID]) and
    tagging percentage of every environment. *)
Definition env_summary (lib : Library) (filtered_df : DataFrame)
  : result (list EnvRow) :=
  ei <- col filtered_df "Environment" ;;
  ci <- col filtered_df "MonthlyCostUSD" ;;
  ri <- col filtered_df "ResourceID" ;;
  mapM (fun env =>
          env_df <- where_eq filtered_df "Environment" env ;;
          pct <- tagged_pct env_df ;;
          Ok (mkEnvRow env
                (group_sum lib (known (map (at_col ci) (rows env_df))))
                (List.length (filter (fun r => notna (at_col ri r)) (rows env_df)))
                pct))
       (group_keys (map (at_col ei) (rows filtered_df))).

(** Task 4.4 *)
Definition env_cost (lib : Library) (filtered_df : DataFrame)
  : result (list (string * float)) :=
  groupby_sum lib filtered_df "Environment" "MonthlyCostUSD".

(** Task 4.3: [groupby('Service')[...].sum().sort_values()] *)
Definition service_cost (lib : Library) (filtered_df : DataFrame)
  : result (list (string * float)) :=
  g <- groupby_sum lib filtered_df "Service" "MonthlyCostUSD" ;;
  Ok (sort_values_asc lib snd g).

(** ** Task Set 3: tagging compliance *)

Definition tag_columns : list string :=
  ["Department"; "Project"; "Environment"; "Owner"; "CostCenter"].

(** [filtered_df[tag_columns].notna().sum(axis=1)]: for every row, the
    number of tag fields that are not null. *)
Definition TagCompletenessScore (filtered_df : DataFrame) : result (list nat) :=
  tags <- select filtered_df tag_columns ;;
  Ok (map (fun r => List.length (filter notna r)) (rows tags)).

(** The score column as cells: an int64 column. *)
Definition score_cells (scores : list nat) : list cell :=
  map (fun n => Int (Z.of_nat n)) scores.

(** The integer in a cell of an int64 column. *)
Definition int_of (c : cell) : Z :=
  match c with Int n => n | _ => 0%Z end.

(** [Series.mean()] of an int64 column: NaN, here no value, on an empty
    series; otherwise the sum of the integers over their number.  The
    quotient is kept exact: the float64 the page formats is the nearest
    to it, and is the quotient itself when that is a whole number. *)
Definition mean (s : list cell) : option Q :=
  match s with
  | [] => None
  | _ => Some (inject_Z (fold_right Z.add 0%Z (map int_of s))
               / inject_Z (Z.of_nat (List.length s)))%Q
  end.

(** [len(df[df[label] == n])] and [len(df[df[label] < n])] on an int64
    column. *)
Definition count_eq_num (s : list cell) (n : Z) : nat :=
  List.length (filter (fun c => match c with Int m => (m =? n)%Z | _ => false end) s).
Definition count_lt_num (s : list cell) (n : Z) : nat :=
  List.length (filter (fun c => match c with Int m => (m <? n)%Z | _ => false end) s).

(** Task 3.3: [filtered_df[tag_columns].isnull().sum()] with its
    percentages, by decreasing count. *)
Definition missing_tags (lib : Library) (filtered_df : DataFrame)
  : result (list (string * nat * option float)) :=
  tags <- select filtered_df tag_columns ;;
  Ok (census lib (isnull_sum tags) (len filtered_df)).

(** ** The script over its two frames *)

Record Session : Type := mkSession {
  df : DataFrame;
  filtered_df : DataFrame
}.

(** A stretch of the script: it reads and writes the session and may stop
    on an exception. *)
Definition Script (A : Type) : Type := Session -> result (A * Session).

Definition ret {A : Type} (a : A) : Script A := fun s => Ok (a, s).

Definition seq_script {A B : Type} (m : Script A) (k : A -> Script B) : Script B :=
  fun s => match m s with
           | Ok (a, s') => k a s'
           | Raise e => Raise e
           end.

(** An expression over [filtered_df]. *)
Definition eval {A : Type} (f : DataFrame -> result A) : Script A :=
  fun s => a <- f (filtered_df s) ;; Ok (a, s).

(** [filtered_df[label] = values] *)
Definition assign_column (label : string) (values : list cell) : Script unit :=
  fun s => Ok (tt, mkSession (df s) (set_column (filtered_df s) label values)).

Declare Scope script_scope.
Delimit Scope script_scope with script.
Notation "x <- m ;; k" := (seq_script m (fun x => k))
  (at level 61, m at next level, right associativity) : script_scope.

(** What the aggregation part of the page shows. *)
Record Report : Type := mkReport {
  shown_missing_df : list (string * nat * option float);
  shown_total : nat;
  shown_tagged_count : nat;
  shown_untagged_count : nat;
  shown_tagged_pct : float;
  shown_untagged_pct : float;
  shown_total_cost : float;
  shown_tagged_cost : float;
  shown_untagged_cost : float;
  shown_untagged_cost_pct : float;
  shown_dept_untagged : list (string * float);
  shown_project_cost : list (string * float);
  shown_env_summary : list EnvRow;
  shown_avg_completeness : option Q;
  shown_fully_tagged : nat;
  shown_poorly_tagged : nat;
  shown_missing_tags : list (string * nat * option float);
  shown_service_cost : list (string * float);
  shown_env_cost : list (string * float)
}.

(** The counts, sums, group-by-sums, scores and censuses of Task Sets 1
    to 4 in page order.  Task 3.1 stores the score as a new column of
    [filtered_df]; the statistics after it read that column.  The value
    counts of [Tagged], the two cross-tabulations and the lowest-ten
    listing build tables of their own from [filtered_df] and are passed
    to the charts as they are; they are left out. *)
Definition aggregations (lib : Library) : Script Report :=
  (missing <- eval (fun d => Ok (missing_df lib d)) ;;
   total <- eval (fun d => Ok (len d)) ;;
   tagged <- eval tagged_count ;;
   untagged <- eval untagged_count ;;
   tagged_pct14 <- eval tagged_pct_metric ;;
   untagged_pct15 <- eval untagged_pct ;;
   cost <- eval (total_cost lib) ;;
   cost_yes <- eval (tagged_cost lib) ;;
   cost_no <- eval (untagged_cost lib) ;;
   cost_pct <- eval (untagged_cost_pct lib) ;;
   by_dept <- eval (dept_untagged lib) ;;
   by_project <- eval (project_cost lib) ;;
   by_env <- eval (env_summary lib) ;;
   scores <- eval TagCompletenessScore ;;
   _ <- assign_column "TagCompletenessScore" (score_cells scores) ;;
   score_col <- eval (fun d => series d "TagCompletenessScore") ;;
   tags <- eval (missing_tags lib) ;;
   by_service <- eval (service_cost lib) ;;
   by_env_cost <- eval (env_cost lib) ;;
   ret (mkReport missing total tagged untagged tagged_pct14 untagged_pct15
          cost cost_yes cost_no cost_pct by_dept by_project by_env
          (mean score_col) (count_eq_num score_col 5) (count_lt_num score_col 3)
          tags by_service by_env_cost))%script.

(** ** Task Set 5: remediation *)

Definition editable_columns : list string :=
  ["ResourceID"; "Service"; "Department"; "Project"; "Environment"; "Owner";
   "CostCenter"; "MonthlyCostUSD"].

(** [filtered_df[filtered_df['Tagged'] == 'No'][[...]].copy()] *)
Definition untagged_editable (filtered_df : DataFrame) : result DataFrame :=
  no <- where_eq filtered_df "Tagged" "No" ;;
  select no editable_columns.

(** What [st.data_editor] may hand back: the columns are those of the
    frame it was given; cells may have been edited, rows added or
    deleted. *)
Definition edit_of (given edited_df : DataFrame) : Prop :=
  columns edited_df = columns given /\
  Forall (fun r => List.length r = List.length (columns given)) (rows edited_df).

(** [d[tag_columns].isnull().sum().sum()] *)
Definition missing_tag_cells (d : DataFrame) : result nat :=
  tags <- select d tag_columns ;;
  Ok (List.length (filter isna (List.concat (rows tags)))).

(** [d[d[tag_columns].isnull().any(axis=1)]]: the rows with a null tag. *)
Definition rows_missing_a_tag (d : DataFrame) : result DataFrame :=
  idx <- cols d tag_columns ;;
  Ok (loc (fun r => existsb isna (at_cols idx r)) d).

(** Task 5.4:
    [len(untagged_editable) - len(edited_df[edited_df[tag_columns].isnull().any(axis=1)])] *)
Definition improvement (untagged_editable edited_df : DataFrame) : result Z :=
  incomplete <- rows_missing_a_tag edited_df ;;
  Ok (Z.of_nat (len untagged_editable) - Z.of_nat (len incomplete))%Z.

(** *** CSV export *)

Section CsvExport.

(** The texts [to_csv] writes for a float64 and for an int64. *)
Variable float_repr : float -> string.
Variable int_repr : Z -> string.

Definition LF : ascii := ascii_of_nat 10.
Definition CR : ascii := ascii_of_nat 13.

Fixpoint contains (c : ascii) (s : string) : bool :=
  match s with
  | EmptyString => false
  | String a s' => Ascii.eqb a c || contains c s'
  end.

Fixpoint double_quotes (s : string) : string :=
  match s with
  | EmptyString => EmptyString
  | String a s' =>
      if Ascii.eqb a PyStr.dquote
      then String a (String a (double_quotes s'))
      else String a (double_quotes s')
  end.

(** Minimal quoting: a field is quoted when it holds the delimiter, a
    quote or a line break. *)
Definition csv_field (s : string) : string :=
  if contains PyStr.comma s || contains PyStr.dquote s
     || contains LF s || contains CR s
  then String PyStr.dquote (double_quotes s ++ String PyStr.dquote EmptyString)
  else s.

Definition csv_cell (c : cell) : string :=
  match c with
  | Str s => csv_field s
  | Num x => if is_nan x then EmptyString else float_repr x
  | Int n => int_repr n
  | NA => EmptyString
  end.

(** [d.to_csv(index=False)], line by line: the header, then the rows. *)
Definition to_csv (d : DataFrame) : list string :=
  String.concat "," (map csv_field (columns d))
  :: map (fun r => String.concat "," (map csv_cell r)) (rows d).

End CsvExport.

(** ** The page from the file to the report *)

Inductive outcome (A : Type) : Type :=
| Shown (a : A)
| LoadErrorShown (e : exn)
| MissingColumnsShown (missing : list string)
| Uncaught (e : exn).
Arguments Shown {A} a.
Arguments LoadErrorShown {A} e.
Arguments MissingColumnsShown {A} missing.
Arguments Uncaught {A} e.

Section Page.

Variable to_numeric : string -> option float.
Variable lib : Library.

(** The script up to the end of Task Set 4: a failed load and a missing
    column stop the page with a message, any later exception is shown
    by the framework and stops the run. *)
Definition page (lines : list string) (sel : Selections)
  : outcome (Report * Session) :=
  match load_data to_numeric lines with
  | Raise e => LoadErrorShown e
  | Ok d =>
      match missing_cols d with
      | (_ :: _) as missing => MissingColumnsShown missing
      | [] =>
          match apply_filters d sel with
          | Raise e => Uncaught e
          | Ok view =>
              match aggregations lib (mkSession d view) with
              | Raise e => Uncaught e
              | Ok rs => Shown rs
              end
          end
      end
  end.

End Page.

(** ** The library on the examples *)

(** Plain decimal numerals, [-12], [3.50]: the part of [pd.to_numeric]
    the examples exercise.  The digits give an integer and a power of
    ten, both exact as floats for numerals as short as the examples',
    so that their quotient is the float nearest to the numeral. *)
Module Decimal.

Definition digit (c : ascii) : option Z :=
  let n := nat_of_ascii c in
  if (48 <=? n) && (n <=? 57) then Some (Z.of_nat (n - 48)) else None.

(** Value and number of digits of a run of digits, from an accumulator. *)
Fixpoint digits (s : string) (acc : Z) (count : nat) : option (Z * nat) :=
  match s with
  | EmptyString => Some (acc, count)
  | String c s' =>
      match digit c with
      | Some v => digits s' (10 * acc + v)%Z (S count)
      | None => None
      end
  end.

Definition unsigned (s : string) : option float :=
  match PyStr.split (ascii_of_nat 46) s with
  | [whole] =>
      match digits whole 0%Z 0 with
      | Some (v, S _) => Some (of_int v)
      | _ => None
      end
  | [whole; frac] =>
      match digits whole 0%Z 0, digits frac 0%Z 0 with
      | Some (v, n), Some (w, m) =>
          if (n + m =? 0) then None
          else Some (of_int (v * 10 ^ Z.of_nat m + w) / of_int (10 ^ Z.of_nat m))%float
      | _, _ => None
      end
  | _ => None
  end.

Definition to_numeric (s : string) : option float :=
  match s with
  | String c s' =>
      if Ascii.eqb c (ascii_of_nat 45)
      then option_map PrimFloat.opp (unsigned s')
      else unsigned s
  | EmptyString => None
  end.

End Decimal.

(** The positions of the values in ascending order, by insertion. *)
Definition argsort_by {A : Type} (le : A -> A -> bool) (values : list A) : list nat :=
  map fst (stable_sort (fun a b => le (snd a) (snd b))
                       (combine (seq 0 (List.length values)) values)).

(** Addition from left to right. *)
Definition sum_in_order (values : list float) : float :=
  fold_left PrimFloat.add values 0%float.

(** The library on short arrays: a sum adds the numbers in their order,
    which is what numpy does below eight numbers and pandas within a
    group as long as nothing is lost to rounding; the sort is an
    insertion sort, one of the sorts that sort. *)
Definition in_file_order : Library :=
  mkLibrary sum_in_order sum_in_order (argsort_by PrimFloat.leb) (argsort_by Z.leb).

(** ** The specification's wording, for comparison *)

(** The improvement count as the specification words it: rows with a
    missing tag before, minus rows with a missing tag after. *)
Definition claimed_improvement (before after : DataFrame) : result Z :=
  incomplete_before <- rows_missing_a_tag before ;;
  incomplete_after <- rows_missing_a_tag after ;;
  Ok (Z.of_nat (len incomplete_before) - Z.of_nat (len incomplete_after))%Z.


(** [y] may follow [x] in decreasing order, the nulls last: [y] is NaN,
    or [y <= x]. *)
Definition may_follow_desc (x y : float) : Prop :=
  is_nan y = true \/ fle y x.

(** [y] may follow [x] in increasing order, the nulls last. *)
Definition may_follow_asc (x y : float) : Prop :=
  is_nan y = true \/ fle x y.

(** A list is in decreasing order of a value, the nulls last. *)
Definition descending_by {A : Type} (value : A -> float) (l : list A) : Prop :=
  StronglySorted (fun a b => may_follow_desc (value a) (value b)) l.

(** A list is in increasing order of a value, the nulls last. *)
Definition ascending_by {A : Type} (value : A -> float) (l : list A) : Prop :=
  StronglySorted (fun a b => may_follow_asc (value a) (value b)) l.

(** A table is in decreasing order of its sums. *)
Definition descending (g : list (string * float)) : Prop := descending_by snd g.


(** [a < b] on strings, the order of the group keys. *)
Definition str_lt (a b : string) : Prop := String.ltb a b = true.

(** ** Sample data *)

Module Sample.

(** A line as [readlines] returns it, with its line feed. *)
Definition line (s : string) : string := s ++ String (ascii_of_nat 10) EmptyString.

Definition header : string :=
  "AccountID,ResourceID,Service,Region,Department,Project,Environment,Owner,CostCenter,CreatedBy,MonthlyCostUSD,Tagged".

(** The three records of the end-to-end example as a file, the fields
    the example leaves open filled in. *)
Definition three_records : list string :=
  map line
    [header;
     "A1,R1,EC2,us-east-1,Eng,Apollo,Prod,ann,CC1,terraform,100,Yes";
     "A1,R2,S3,us-east-1,Eng,Apollo,Dev,,CC1,terraform,50,No";
     "A2,R3,EC2,eu-west-1,Ops,Zephyr,Prod,bob,,console,25,No"].

(** The same records with a blank line and two malformed lines among
    them. *)
Definition three_records_damaged : list string :=
  map line
    [header;
     "A1,R1,EC2,us-east-1,Eng,Apollo,Prod,ann,CC1,terraform,100,Yes";
     "A9,R9,EC2";
     "";
     "A1,R2,S3,us-east-1,Eng,Apollo,Dev,,CC1,terraform,50,No";
     "A8,R8,EC2,us-east-1,Eng,Apollo,Prod,ann,CC1,terraform,100,Yes,extra";
     "A2,R3,EC2,eu-west-1,Ops,Zephyr,Prod,bob,,console,25,No"].

(** A file with a header and no record. *)
Definition header_only : list string := [line header].

(** The three records with the three fields of the example only. *)
Definition three_columns : DataFrame :=
  mkDF ["Department"; "MonthlyCostUSD"; "Tagged"]
       [[Str "Eng"; Num 100%float; Str "Yes"];
        [Str "Eng"; Num 50%float; Str "No"];
        [Str "Ops"; Num 25%float; Str "No"]].




(** A file that brings a column TagCompletenessScore of its own. *)
Definition scored_records : list string :=
  map line
    [(header ++ ",TagCompletenessScore")%string;
     "A1,R1,EC2,us-east-1,Eng,Apollo,Prod,ann,CC1,terraform,100,Yes,high";
     "A1,R2,S3,us-east-1,Eng,Apollo,Dev,,CC1,terraform,50,No,low"].

(** The frame a file loads to, empty when the load fails. *)
Definition loaded (lines : list string) : DataFrame :=
  match load_data Decimal.to_numeric lines with
  | Ok d => d
  | Raise _ => mkDF [] []
  end.

(** The remediation copy of a frame, empty when it cannot be built. *)
Definition remediation_copy (d : DataFrame) : DataFrame :=
  match untagged_editable d with
  | Ok u => u
  | Raise _ => mkDF [] []
  end.

(** An edit of the remediation copy of [three_records]: the grid gains a
    row the user leaves empty. *)
Definition one_row_added : DataFrame :=
  let u := remediation_copy (loaded three_records) in
  mkDF (columns u) (rows u ++ [[NA; NA; NA; NA; NA; NA; NA; NA]]).

End Sample.

(** ** Shapes of frames *)

(** Every row has one cell per column. *)
Definition rectangular (d : DataFrame) : Prop :=
  Forall (fun r => List.length r = List.length (columns d)) (rows d).

(** Every cell outside the cost column holds a string, possibly empty. *)
Definition text_outside_cost (d : DataFrame) : Prop :=
  forall r i label,
    In r (rows d) -> nth_error (columns d) i = Some label ->
    label <> "MonthlyCostUSD" ->
    exists s, nth_error r i = Some (Str s).

(** A cell that holds a string. *)
Definition is_text (c : cell) : Prop := exists s, c = Str s.

(** The labels of a list are distinct; every label of a list is among
    others: the two checks as computations. *)
Fixpoint distinct (labels : list string) : bool :=
  match labels with
  | [] => true
  | l :: labels' => negb (in_list l labels') && distinct labels'
  end.
Definition all_among (labels among : list string) : bool :=
  forallb (fun l => in_list l among) labels.




(** The test of the loader's loop on one line. *)
Definition accepted (ncols : nat) (line : string) : bool :=
  PyStr.truthy (PyStr.strip line) && (List.length (parse_line line) =? ncols).

(** ** Text of fields *)

(** Number of occurrences of a character in a string. *)
Fixpoint count_char (c : ascii) (s : string) : nat :=
  match s with
  | EmptyString => 0
  | String a s' => (if Ascii.eqb a c then 1 else 0) + count_char c s'
  end.

(** A field as the loader leaves it: no comma, no double quote, no white
    space at either end. *)
Definition clean_text (s : string) : Prop :=
  contains PyStr.comma s = false /\
  contains PyStr.dquote s = false /\
  PyStr.strip s = s.

(** The number a line hands to the sum of the costs: the number its cost
    field denotes, zero when the field is not numeric. *)
Definition cost_of_fields (to_numeric : string -> option float) (i : nat)
  (fields : list string) : float :=
  match to_numeric (nth i fields EmptyString) with
  | Some x => if is_nan x then 0%float else x
  | None => 0%float
  end.

(** ** The filters as one test *)

(** A cell passes a selection that holds [All] or that holds its text. *)
Definition passes (selected : list string) (c : cell) : bool :=
  in_list "All" selected || isin c selected.

(** A row passes the four selections, its fields read at the positions of
    Department, Service, Region and Environment. *)
Definition row_passes (sel : Selections) (dept service region env : nat)
  (r : list cell) : bool :=
  passes (selected_dept sel) (at_col dept r)
  && passes (selected_service sel) (at_col service r)
  && passes (selected_region sel) (at_col region r)
  && passes (selected_env sel) (at_col env r).

(** ** The sidebar *)

(** Equality of cell values, as the hash table of [unique] takes it: all
    nulls are one value. *)
Definition cell_eqb (a b : cell) : bool :=
  match a, b with
  | Str x, Str y => String.eqb x y
  | Str _, _ | _, Str _ => false
  | Int m, Int n => (m =? n)%Z
  | _, _ =>
      if isna a then isna b
      else negb (isna b) && (number a =? number b)%float
  end.

(** [Series.unique()]: the distinct values in order of first appearance. *)
Fixpoint unique (s : list cell) : list cell :=
  match s with
  | [] => []
  | c :: s' => c :: filter (fun x => negb (cell_eqb x c)) (unique s')
  end.

(** [sorted(texts)] *)
Definition sorted (texts : list string) : list string :=
  stable_sort String.leb texts.

Section Sidebar.

(** [str(v)] for a value of a column. *)
Variable str : cell -> string.

(** The options of one multiselect:
    [['All'] + sorted([str(v) for v in df[label].unique().tolist()])],
    the nulls dropped first for Department and Environment, and [['All']]
    alone when anything fails. *)
Definition options (dropna : bool) (df : DataFrame) (label : string) : list string :=
  match series df label with
  | Ok s => "All" :: sorted (map str (unique (if dropna then filter notna s else s)))
  | Raise _ => ["All"]
  end.

Definition departments (df : DataFrame) : list string := options true df "Department".
Definition services (df : DataFrame) : list string := options false df "Service".
Definition regions (df : DataFrame) : list string := options false df "Region".
Definition environments (df : DataFrame) : list string := options true df "Environment".

End Sidebar.

(** [str] of a cell, text as it is; the texts of numbers and nulls are
    not modelled. *)
Definition str_of_text (c : cell) : string :=
  match c with Str s => s | _ => EmptyString end.

(** ** Rows by tagging status *)

(** A row whose [Tagged] field, at position [t], is neither [Yes] nor
    [No]. *)
Definition neither_yes_nor_no (t : nat) (r : list cell) : bool :=
  negb (eq_str (at_col t r) "Yes") && negb (eq_str (at_col t r) "No").

(** ** The row of one environment *)

(** The tagging percentage Task 2.5 shows for a frame of one environment
    whose [Tagged] field is at position [t]. *)
Definition tagging_pct_of (t : nat) (env_df : DataFrame) : float :=
  if 0 <? len env_df
  then (of_nat (len (loc (fun r => eq_str (at_col t r) "Yes") env_df))
        / of_nat (len env_df) * 100)%float
  else 0%float.

(** The row of [env_summary] for one environment, the fields read at the
    positions of Environment, MonthlyCostUSD, ResourceID and Tagged. *)
Definition env_row (lib : Library) (ei ci ri t : nat) (view : DataFrame)
  (env : string) : EnvRow :=
  let env_df := loc (fun r => eq_str (at_col ei r) env) view in
  mkEnvRow env
    (group_sum lib (known (map (at_col ci) (rows env_df))))
    (List.length (filter (fun r => notna (at_col ri r)) (rows env_df)))
    (tagging_pct_of t env_df).

(** ** Task 3.4: the untagged resources *)

Definition untagged_columns : list string :=
  ["ResourceID"; "Service"; "Department"; "Project"; "Environment";
   "MonthlyCostUSD"; "Owner"].

(** [d.sort_values(label, ascending=False)] on a numeric column: the rows
    with a number by decreasing number, then the rows with a null, in the
    order they had. *)
Definition sort_frame_desc (lib : Library) (d : DataFrame) (label : string)
  : result DataFrame :=
  c <- col d label ;;
  Ok (mkDF (columns d)
           (sort_values_desc lib (fun r => number (at_col c r)) (rows d))).

(** [filtered_df[filtered_df['Tagged'] == 'No'][[...]]
     .sort_values('MonthlyCostUSD', ascending=False)] *)
Definition untagged_resources (lib : Library) (filtered_df : DataFrame)
  : result DataFrame :=
  no <- where_eq filtered_df "Tagged" "No" ;;
  sub <- select no untagged_columns ;;
  sort_frame_desc lib sub "MonthlyCostUSD".

(** ** Text that the export writes as it is *)

(** A text the loader would leave alone and that holds no line break:
    [to_csv] writes it without quotes. *)
Definition exportable (s : string) : Prop :=
  clean_text s /\ contains LF s = false /\ contains CR s = false.

(** A line of the exported file as [readlines] returns it. *)
Definition with_newline (s : string) : string := s ++ String LF EmptyString.

(** ** Grouping on two fields *)

(** [df.groupby([key1, key2])[value].sum().reset_index()]: one row per
    pair of keys that occurs, the pairs in ascending order, first on the
    first key; a row with a null in either field belongs to no group. *)
Definition groupby2_sum (lib : Library) (d : DataFrame) (key1 key2 value : string)
  : result (list (string * string * float)) :=
  i1 <- col d key1 ;;
  i2 <- col d key2 ;;
  vi <- col d value ;;
  Ok (flat_map
        (fun a =>
           let da := loc (fun r => eq_str (at_col i1 r) a) d in
           map (fun b => (a, b, group_sum lib (known (map (at_col vi) (group_rows i2 b da)))))
               (group_keys (map (at_col i2) (rows da))))
        (group_keys (map (at_col i1) (rows d)))).

(** Task 2.5 *)
Definition env_comparison (lib : Library) (filtered_df : DataFrame)
  : result (list (string * string * float)) :=
  groupby2_sum lib filtered_df "Environment" "Tagged" "MonthlyCostUSD".

(** Task 4.2 *)
Definition dept_tag_cost (lib : Library) (filtered_df : DataFrame)
  : result (list (string * string * float)) :=
  groupby2_sum lib filtered_df "Department" "Tagged" "MonthlyCostUSD".

(** The rows of a two-key table under one first key. *)
Definition under_key (a : string) (table : list (string * string * float))
  : list (string * string * float) :=
  filter (fun entry => String.eqb (fst (fst entry)) a) table.

(** ** The order of floats, for the proofs *)

(** The place of a float in the order: the sign class first, then the
    exponent, then the mantissa. *)
Definition rank (x : spec_float) : Z * Z * Z :=
  match x with
  | S754_nan => (0, 0, 0)
  | S754_zero _ => (0, 0, 0)
  | S754_infinity s => (if s then -2 else 2, 0, 0)
  | S754_finite s m e => if s then (-1, - e, - Zpos m) else (1, e, Zpos m)
  end%Z.

Definition lex_le (a b : Z * Z * Z) : Prop :=
  let '(a1, a2, a3) := a in
  let '(b1, b2, b3) := b in
  (a1 < b1 \/ (a1 = b1 /\ (a2 < b2 \/ (a2 = b2 /\ a3 <= b3))))%Z.

Definition SFis_nan (x : spec_float) : bool :=
  match x with S754_nan => true | _ => false end.

(** * Properties *)

(** ** Results and lookups *)

(** Split a conjunction into its conjuncts, leaving each as it is. *)
Ltac conjuncts := repeat match goal with |- _ /\ _ => split end.

Lemma bind_Ok {A B : Type} (m : result A) (k : A -> result B) (b : B) :
  bind m k = Ok b -> exists a, m = Ok a /\ k a = Ok b.
Proof.
  destruct m as [a|e]; simpl; intros H; [eauto | discriminate].
Qed.

Lemma in_list_In (v : string) (values : list string) :
  in_list v values = true <-> In v values.
Proof.
  unfold in_list. rewrite existsb_exists. split.
  - intros [x [Hin Heq]]. apply String.eqb_eq in Heq. now subst.
  - intros Hin. exists v. split; [assumption | apply String.eqb_refl].
Qed.

Lemma positions_spec (label : string) (cs : list string) (i : nat) :
  In i (positions label cs) <-> nth_error cs i = Some label.
Proof.
  revert i. induction cs as [|c cs IH]; intros i; simpl.
  - destruct i; simpl; split; intros H; try contradiction; discriminate.
  - destruct (String.eqb_spec c label) as [->|Hne].
    + destruct i; simpl.
      * split; auto.
      * rewrite <- IH. rewrite in_map_iff. split.
        -- intros [H|[j [Hj Hin]]]; [discriminate | now inversion Hj; subst].
        -- intros H. right. eauto.
    + destruct i; simpl.
      * rewrite in_map_iff. split.
        -- intros [j [Hj _]]. discriminate.
        -- intros H. inversion H. contradiction.
      * rewrite <- IH. rewrite in_map_iff. split.
        -- intros [j [Hj Hin]]. now inversion Hj; subst.
        -- intros H. eauto.
Qed.

Lemma positions_In (label : string) (cs : list string) :
  In label cs -> exists i ps, positions label cs = i :: ps.
Proof.
  intros Hin. apply In_nth_error in Hin. destruct Hin as [i Hi].
  apply positions_spec in Hi.
  destruct (positions label cs) as [|j ps]; [contradiction | eauto].
Qed.

Lemma positions_NoDup (label : string) (cs : list string) :
  NoDup cs -> In label cs -> exists i, positions label cs = [i].
Proof.
  induction cs as [|c cs IH]; intros Hnd Hin; [contradiction|].
  inversion Hnd as [|? ? Hnotin Hnd']; subst. simpl.
  destruct (String.eqb_spec c label) as [->|Hne].
  - exists 0. f_equal.
    destruct (positions label cs) as [|j ps] eqn:E; [reflexivity|].
    exfalso. apply Hnotin.
    assert (Hj : In j (positions label cs)) by (rewrite E; now left).
    apply positions_spec in Hj. eapply nth_error_In; eassumption.
  - destruct Hin as [->|Hin]; [contradiction|].
    destruct (IH Hnd' Hin) as [i ->]. now exists (S i).
Qed.

Lemma col_Ok (d : DataFrame) (label : string) (i : nat) :
  col d label = Ok i -> nth_error (columns d) i = Some label.
Proof.
  unfold col. destruct (positions label (columns d)) as [|j ps] eqn:E;
    intros H; inversion H; subst.
  apply positions_spec. rewrite E. now left.
Qed.

Lemma col_In (d : DataFrame) (label : string) :
  In label (columns d) -> exists i, col d label = Ok i.
Proof.
  intros Hin. destruct (positions_In _ _ Hin) as [i [ps E]].
  unfold col. rewrite E. eauto.
Qed.

Lemma col_loc (keep : list cell -> bool) (d : DataFrame) (label : string) :
  col (loc keep d) label = col d label.
Proof. reflexivity. Qed.

Lemma update_at_same {A : Type} (i : nat) (f : A -> A) (l : list A) (d : A) :
  i < List.length l -> nth i (update_at i f l) d = f (nth i l d).
Proof.
  revert i. induction l as [|x l IH]; intros [|i] H; simpl in *; try lia.
  - reflexivity.
  - apply IH. lia.
Qed.

Lemma positions_length (label : string) (cs : list string) :
  List.length (positions label cs) = count_occ string_dec cs label.
Proof.
  induction cs as [|c cs IH]; simpl; [reflexivity|].
  destruct (String.eqb_spec c label) as [->|Hne].
  - destruct (string_dec label label); [|contradiction].
    simpl. now rewrite length_map, IH.
  - destruct (string_dec c label); [contradiction|]. now rewrite length_map.
Qed.

Lemma positions_bound (label : string) (cs : list string) (i : nat) :
  In i (positions label cs) -> i < List.length cs.
Proof.
  intros H. apply positions_spec in H. apply nth_error_Some. congruence.
Qed.

Lemma positions_absent (label : string) (cs : list string) :
  ~ In label cs -> positions label cs = [].
Proof.
  intros Hnin. destruct (positions label cs) as [|i ps] eqn:E; [reflexivity|].
  exfalso. apply Hnin.
  assert (Hi : In i (positions label cs)) by (rewrite E; now left).
  apply positions_spec in Hi. eapply nth_error_In; eassumption.
Qed.

Lemma combine_map_fst {A B C : Type} (f : A * B -> C) (g : A -> C)
  (l : list A) (l' : list B) :
  List.length l' = List.length l ->
  (forall a b, In (a, b) (combine l l') -> f (a, b) = g a) ->
  map f (combine l l') = map g l.
Proof.
  revert l'. induction l as [|a l IH]; intros [|b l'] Hlen H; simpl in *;
    try discriminate; [reflexivity|].
  rewrite (H a b) by now left. f_equal. apply IH; [lia|].
  intros x y Hxy. apply H. now right.
Qed.

Lemma combine_map_snd {A B C : Type} (f : A * B -> C) (g : B -> C)
  (l : list A) (l' : list B) :
  List.length l' = List.length l ->
  (forall a b, In (a, b) (combine l l') -> f (a, b) = g b) ->
  map f (combine l l') = map g l'.
Proof.
  revert l'. induction l as [|a l IH]; intros [|b l'] Hlen H; simpl in *;
    try discriminate; [reflexivity|].
  rewrite (H a b) by now left. f_equal. apply IH; [lia|].
  intros x y Hxy. apply H. now right.
Qed.

Lemma nth_update_at_other {A : Type} (i j : nat) (f : A -> A) (l : list A) (d : A) :
  i <> j -> nth j (update_at i f l) d = nth j l d.
Proof.
  revert i j. induction l as [|x l IH]; intros [|i] [|j] H; simpl; auto.
  contradiction.
Qed.

Lemma positions_snoc (other label : string) (cs : list string) :
  positions other (cs ++ [label])
  = positions other cs
    ++ (if String.eqb label other then [List.length cs] else []).
Proof.
  induction cs as [|c cs IH]; simpl.
  - destruct (String.eqb label other); reflexivity.
  - rewrite IH.
    destruct (String.eqb c other), (String.eqb label other); simpl;
      rewrite ?map_app; simpl; reflexivity.
Qed.

Lemma set_column_series
  (d : DataFrame) (label : string) (values : list cell) :
  rectangular d -> List.length values = len d ->
  series (set_column d label values) label = Ok values /\
  len (set_column d label values) = len d /\
  forall other, other <> label ->
    series (set_column d label values) other = series d other.
Proof.
  intros Hrect Hlen. unfold rectangular, len in *.
  assert (Hw : forall r v, In (r, v) (combine (rows d) values) ->
                 List.length r = List.length (columns d)).
  { intros r v Hin. apply in_combine_l in Hin.
    rewrite Forall_forall in Hrect. now apply Hrect. }
  unfold set_column, series, col.
  destruct (positions label (columns d)) as [|i ps] eqn:Ep.
  - cbn [columns rows].
    assert (Hfresh : ~ In label (columns d)).
    { intros Hin. destruct (positions_In _ _ Hin) as [j [qs E]]. congruence. }
    pose proof (fun other => positions_snoc other label (columns d)) as Hpos.
    split; [|split].
    + rewrite Hpos, Ep, String.eqb_refl. cbn [app bind]. f_equal.
      rewrite map_map.
      transitivity (map (fun v : cell => v) values); [|apply map_id].
      apply combine_map_snd; [assumption|].
      intros r v Hin. cbn [fst snd]. unfold at_col.
      rewrite <- (Hw r v Hin), app_nth2, Nat.sub_diag by lia. reflexivity.
    + rewrite length_map, length_combine. lia.
    + intros other Hne. rewrite Hpos.
      destruct (String.eqb_spec label other) as [->|_]; [contradiction|].
      rewrite app_nil_r.
      destruct (positions other (columns d)) as [|j qs] eqn:Eo; [reflexivity|].
      cbn [bind]. f_equal. rewrite map_map. apply combine_map_fst; [assumption|].
      intros r v Hin. cbn [fst snd]. unfold at_col. apply app_nth1.
      rewrite (Hw r v Hin). apply (positions_bound other). rewrite Eo. now left.
  - cbn [columns rows]. rewrite Ep. cbn [bind].
    assert (Hi : i < List.length (columns d)).
    { apply (positions_bound label). rewrite Ep. now left. }
    split; [|split].
    + f_equal. rewrite map_map.
      transitivity (map (fun v : cell => v) values); [|apply map_id].
      apply combine_map_snd; [assumption|].
      intros r v Hin. cbn [fst snd]. unfold at_col.
      rewrite update_at_same by (rewrite (Hw r v Hin); exact Hi). reflexivity.
    + rewrite length_map, length_combine. lia.
    + intros other Hne.
      destruct (positions other (columns d)) as [|j qs] eqn:Eo; [reflexivity|].
      cbn [bind]. f_equal. rewrite map_map. apply combine_map_fst; [assumption|].
      intros r v Hin. cbn [fst snd]. unfold at_col. apply nth_update_at_other.
      intros ->. assert (H1 : In j (positions label (columns d)))
        by (rewrite Ep; now left).
      assert (H2 : In j (positions other (columns d))) by (rewrite Eo; now left).
      apply positions_spec in H1, H2. congruence.
Qed.

Lemma set_column_labels (d : DataFrame) (label : string) (values : list cell) :
  (In label (columns d) -> columns (set_column d label values) = columns d) /\
  (~ In label (columns d) ->
   columns (set_column d label values) = columns d ++ [label]).
Proof.
  unfold set_column. split; intros H.
  - destruct (positions_In _ _ H) as [i [ps E]]. now rewrite E.
  - now rewrite (positions_absent _ _ H).
Qed.

Lemma seq_eval_raise {A B : Type} (f : DataFrame -> result A) (k : A -> Script B)
  (s : Session) (e : exn) :
  f (filtered_df s) = Raise e -> seq_script (eval f) k s = Raise e.
Proof. intros H. unfold seq_script, eval. now rewrite H. Qed.

(** ** Order of floats *)

Lemma SFleb_rank (x y : spec_float) :
  SFis_nan x = false -> SFis_nan y = false ->
  (SFleb x y = true <-> lex_le (rank x) (rank y)).
Proof.
  destruct x as [s|s| |s m e], y as [s'|s'| |s' m' e']; unfold SFleb, SFcompare;
    simpl; try discriminate; intros _ _;
    try (destruct s; try destruct s'; simpl; split; intros;
         try lia; try reflexivity; discriminate).
  change (Pos.compare_cont Eq m m') with (Pos.compare m m').
  destruct s, s'; simpl;
    destruct (Z.compare_spec e e'); destruct (Pos.compare_spec m m'); simpl;
    split; intros; try lia; try reflexivity; try discriminate.
Qed.

Lemma is_nan_spec (x : float) : is_nan x = SFis_nan (Prim2SF x).
Proof.
  unfold is_nan. rewrite FloatAxioms.eqb_spec. unfold SFeqb, SFcompare.
  destruct (Prim2SF x) as [s|s| |s m e]; simpl; try reflexivity.
  - destruct s; reflexivity.
  - change (Pos.compare_cont Eq m m) with (Pos.compare m m).
    destruct s; rewrite Z.compare_refl, Pos.compare_refl; reflexivity.
Qed.

Lemma leb_total (x y : float) :
  is_nan x = false -> is_nan y = false ->
  (x <=? y)%float = false -> (y <=? x)%float = true.
Proof.
  rewrite !is_nan_spec, !FloatAxioms.leb_spec. intros Hx Hy H.
  apply SFleb_rank; try assumption.
  assert (N : ~ lex_le (rank (Prim2SF x)) (rank (Prim2SF y))).
  { intros L. apply SFleb_rank in L; congruence. }
  unfold lex_le in *.
  destruct (rank (Prim2SF x)) as [[a1 a2] a3], (rank (Prim2SF y)) as [[b1 b2] b3].
  lia.
Qed.

Lemma fle_trans (x y z : float) : fle x y -> fle y z -> fle x z.
Proof.
  unfold fle. rewrite !FloatAxioms.leb_spec. intros H1 H2.
  assert (Hx : SFis_nan (Prim2SF x) = false)
    by (destruct (Prim2SF x); try reflexivity; discriminate H1).
  assert (Hy : SFis_nan (Prim2SF y) = false)
    by (destruct (Prim2SF y); try reflexivity;
        destruct (Prim2SF x); discriminate H1).
  assert (Hz : SFis_nan (Prim2SF z) = false)
    by (destruct (Prim2SF z); try reflexivity;
        destruct (Prim2SF y); discriminate H2).
  apply SFleb_rank in H1, H2; try assumption. apply SFleb_rank; try assumption.
  unfold lex_le in *.
  destruct (rank (Prim2SF x)) as [[a1 a2] a3], (rank (Prim2SF y)) as [[b1 b2] b3],
           (rank (Prim2SF z)) as [[c1 c2] c3].
  lia.
Qed.

(** A comparison with NaN is false. *)
Lemma fle_not_nan (x y : float) : fle x y -> is_nan x = false /\ is_nan y = false.
Proof.
  unfold fle. rewrite !is_nan_spec, FloatAxioms.leb_spec. unfold SFleb, SFcompare.
  destruct (Prim2SF x), (Prim2SF y); simpl; try discriminate; auto.
Qed.

Lemma SFltb_rank (x y : spec_float) :
  SFis_nan x = false -> SFis_nan y = false ->
  (SFltb x y = true <-> ~ lex_le (rank y) (rank x)).
Proof.
  destruct x as [s|s| |s m e], y as [s'|s'| |s' m' e']; unfold SFltb, SFcompare;
    simpl; try discriminate; intros _ _;
    try (destruct s; try destruct s'; simpl; split; intros;
         try lia; try reflexivity; discriminate).
  change (Pos.compare_cont Eq m m') with (Pos.compare m m').
  destruct s, s'; simpl;
    destruct (Z.compare_spec e e'); destruct (Pos.compare_spec m m'); simpl;
    split; intros; try lia; try reflexivity; try discriminate.
Qed.

(** What may follow a float in decreasing order does not exceed it. *)
Lemma may_follow_desc_not_above (x y : float) :
  may_follow_desc x y -> (x <? y)%float = false.
Proof.
  unfold may_follow_desc, fle.
  rewrite is_nan_spec, FloatAxioms.leb_spec, FloatAxioms.ltb_spec.
  intros [Hy|Hle].
  - destruct (Prim2SF y); try discriminate Hy.
    unfold SFltb, SFcompare. now destruct (Prim2SF x).
  - assert (Hx : SFis_nan (Prim2SF x) = false)
      by (destruct (Prim2SF x); try reflexivity;
          destruct (Prim2SF y); discriminate Hle).
    assert (Hy : SFis_nan (Prim2SF y) = false)
      by (destruct (Prim2SF y); try reflexivity; discriminate Hle).
    apply SFleb_rank in Hle; try assumption.
    destruct (SFltb (Prim2SF x) (Prim2SF y)) eqn:E; [|reflexivity].
    apply SFltb_rank in E; try assumption. contradiction.
Qed.

Lemma ltb_irrefl (x : float) : (x <? x)%float = false.
Proof.
  rewrite FloatAxioms.ltb_spec. unfold SFltb, SFcompare.
  destruct (Prim2SF x) as [s|s| |s m e]; try reflexivity.
  - destruct s; reflexivity.
  - change (Pos.compare_cont Eq m m) with (Pos.compare m m).
    destruct s; rewrite Z.compare_refl, Pos.compare_refl; reflexivity.
Qed.

(** ** Sorted lists *)

Lemma StronglySorted_app {A : Type} (R : A -> A -> Prop) (l1 l2 : list A) :
  StronglySorted R l1 -> StronglySorted R l2 ->
  (forall a b, In a l1 -> In b l2 -> R a b) ->
  StronglySorted R (l1 ++ l2).
Proof.
  induction 1 as [|x l1 Hs IH Hall]; intros H2 Hcross; simpl; [assumption|].
  constructor.
  - apply IH; [assumption|]. intros a b Ha Hb. apply Hcross; [now right | assumption].
  - apply Forall_app. split; [assumption|].
    apply Forall_forall. intros b Hb. apply Hcross; [now left | assumption].
Qed.

Lemma StronglySorted_rev {A : Type} (R : A -> A -> Prop) (l : list A) :
  StronglySorted R l -> StronglySorted (fun a b => R b a) (rev l).
Proof.
  induction 1 as [|x l Hs IH Hall]; simpl; [constructor|].
  apply StronglySorted_app; [assumption | repeat constructor |].
  intros a b Ha [<-|[]]. apply in_rev in Ha.
  rewrite Forall_forall in Hall. now apply Hall.
Qed.

Lemma StronglySorted_impl {A : Type} (R S : A -> A -> Prop) (l : list A) :
  (forall a b, R a b -> S a b) -> StronglySorted R l -> StronglySorted S l.
Proof.
  intros HRS. induction 1 as [|x l Hs IH Hall]; constructor; [assumption|].
  eapply Forall_impl; [|exact Hall]. intros b Hb. now apply HRS.
Qed.

Lemma StronglySorted_map {A B : Type} (R : B -> B -> Prop) (f : A -> B) (l : list A) :
  StronglySorted R (map f l) -> StronglySorted (fun a b => R (f a) (f b)) l.
Proof.
  induction l as [|x l IH]; simpl; intros H; [constructor|].
  inversion H as [|? ? Hs Hall]; subst. constructor; [now apply IH|].
  now rewrite Forall_map in Hall.
Qed.

(** A list all of whose elements may follow anything is sorted. *)
Lemma StronglySorted_any {A : Type} (R : A -> A -> Prop) (l : list A) :
  Forall (fun b => forall a, R a b) l -> StronglySorted R l.
Proof.
  induction 1 as [|x l Hx Hall IH]; constructor; [assumption|].
  eapply Forall_impl; [|exact Hall]. intros b Hb. apply Hb.
Qed.

(** ** Taking by position *)

Lemma take_map {A B : Type} (f : A -> B) (indexer : list nat) (l : list A) :
  take indexer (map f l) = map f (take indexer l).
Proof.
  unfold take. induction indexer as [|i indexer IH]; simpl; [reflexivity|].
  rewrite map_app, IH, nth_error_map. now destruct (nth_error l i).
Qed.

Lemma take_seq {A : Type} (l1 l2 : list A) :
  take (seq (List.length l1) (List.length l2)) (l1 ++ l2) = l2.
Proof.
  revert l1. induction l2 as [|a l2 IH]; intros l1; simpl; [reflexivity|].
  rewrite nth_error_app2 by lia. rewrite Nat.sub_diag. simpl. f_equal.
  specialize (IH (l1 ++ [a])). rewrite length_app, <- app_assoc in IH.
  simpl in IH. rewrite Nat.add_1_r in IH. exact IH.
Qed.

Lemma take_all {A : Type} (l : list A) : take (seq 0 (List.length l)) l = l.
Proof. exact (take_seq [] l). Qed.

(** Taking at every position once rearranges the list. *)
Lemma take_Permutation {A : Type} (indexer : list nat) (l : list A) :
  Permutation indexer (seq 0 (List.length l)) -> Permutation (take indexer l) l.
Proof.
  intros H.
  apply (Permutation_flat_map (fun i => match nth_error l i with
                                        | Some a => [a]
                                        | None => []
                                        end)) in H.
  change (Permutation (take indexer l) (take (seq 0 (List.length l)) l)) in H.
  now rewrite take_all in H.
Qed.

Lemma filter_partition_Permutation {A : Type} (p : A -> bool) (l : list A) :
  Permutation (filter (fun a => negb (p a)) l ++ filter p l) l.
Proof.
  induction l as [|a l IH]; simpl; [constructor|].
  destruct (p a); simpl.
  - rewrite <- Permutation_middle. now constructor.
  - now constructor.
Qed.

(** ** What a lawful sort gives *)

Section Sorting.

Variable lib : Library.
Hypothesis lib_sorts : sorts lib.

Context {A : Type}.

Lemma ordered_part_Permutation (ascending : bool) (value : A -> float) (l : list A) :
  Permutation (if ascending
               then take (argsort lib (map value l)) l
               else rev (take (argsort lib (map value (rev l))) (rev l)))
              l.
Proof.
  destruct ascending.
  - apply take_Permutation. rewrite <- (length_map value).
    apply (argsort_positions lib lib_sorts).
  - eapply Permutation_trans; [symmetry; apply Permutation_rev|].
    eapply Permutation_trans; [|symmetry; apply Permutation_rev].
    apply take_Permutation. rewrite <- (length_map value).
    apply (argsort_positions lib lib_sorts).
Qed.

Lemma sort_values_Permutation (ascending : bool) (value : A -> float) (l : list A) :
  Permutation (sort_values lib ascending value l) l.
Proof.
  unfold sort_values.
  eapply Permutation_trans;
    [|apply (filter_partition_Permutation (fun a => is_nan (value a)) l)].
  apply Permutation_app_tail. apply ordered_part_Permutation.
Qed.

Lemma sort_values_desc_Permutation (value : A -> float) (l : list A) :
  Permutation l (sort_values_desc lib value l).
Proof. symmetry. apply sort_values_Permutation. Qed.

Lemma sort_values_asc_Permutation (value : A -> float) (l : list A) :
  Permutation l (sort_values_asc lib value l).
Proof. symmetry. apply sort_values_Permutation. Qed.

(** The keys handed to [argsort] hold no NaN. *)
Lemma nonnan_keys (value : A -> float) (l : list A) :
  Forall (fun x => is_nan x = false)
         (map value (filter (fun a => negb (is_nan (value a))) l)).
Proof.
  rewrite Forall_map. apply Forall_forall. intros a Ha.
  apply filter_In in Ha. destruct Ha as [_ Ha].
  now destruct (is_nan (value a)).
Qed.

Lemma nulls_follow (R : float -> float -> Prop) (value : A -> float) (l : list A) :
  (forall x y, is_nan y = true -> R x y) ->
  StronglySorted (fun a b => R (value a) (value b))
                 (filter (fun a => is_nan (value a)) l).
Proof.
  intros HR. apply StronglySorted_any. apply Forall_forall. intros b Hb a.
  apply filter_In in Hb. apply HR. apply Hb.
Qed.

(** After [sort_values(ascending=False)] the values descend, the nulls
    stand last. *)
Lemma sort_values_desc_descending (value : A -> float) (l : list A) :
  descending_by value (sort_values_desc lib value l).
Proof.
  unfold descending_by, sort_values_desc, sort_values.
  apply StronglySorted_app.
  - pose proof (argsort_ascending lib lib_sorts
                  (map value (rev (filter (fun a => negb (is_nan (value a))) l)))) as H.
    assert (Hn : Forall (fun x => is_nan x = false)
                   (map value (rev (filter (fun a => negb (is_nan (value a))) l)))).
    { rewrite map_rev. apply Forall_rev. apply nonnan_keys. }
    specialize (H Hn). rewrite take_map in H.
    apply StronglySorted_map in H. apply StronglySorted_rev in H.
    eapply StronglySorted_impl; [|exact H].
    intros a b Hab. right. exact Hab.
  - apply nulls_follow. intros x y Hy. now left.
  - intros a b _ Hb. apply filter_In in Hb. left. apply Hb.
Qed.

(** After [sort_values()] the values ascend, the nulls stand last. *)
Lemma sort_values_asc_ascending (value : A -> float) (l : list A) :
  ascending_by value (sort_values_asc lib value l).
Proof.
  unfold ascending_by, sort_values_asc, sort_values.
  apply StronglySorted_app.
  - pose proof (argsort_ascending lib lib_sorts
                  (map value (filter (fun a => negb (is_nan (value a))) l))
                  (nonnan_keys value l)) as H.
    rewrite take_map in H. apply StronglySorted_map in H.
    eapply StronglySorted_impl; [|exact H].
    intros a b Hab. right. exact Hab.
  - apply nulls_follow. intros x y Hy. now left.
  - intros a b _ Hb. apply filter_In in Hb. left. apply Hb.
Qed.

(** The rows with a null key come last, in the order they had. *)
Lemma sort_values_nulls_last (ascending : bool) (value : A -> float) (l : list A) :
  exists ordered,
    sort_values lib ascending value l
      = ordered ++ filter (fun a => is_nan (value a)) l /\
    Permutation ordered (filter (fun a => negb (is_nan (value a))) l).
Proof.
  unfold sort_values. eexists. split; [reflexivity|].
  apply ordered_part_Permutation.
Qed.

Lemma sort_counts_desc_Permutation (value : A -> Z) (l : list A) :
  Permutation l (sort_counts_desc lib value l).
Proof.
  unfold sort_counts_desc. symmetry.
  eapply Permutation_trans; [symmetry; apply Permutation_rev|].
  eapply Permutation_trans; [|symmetry; apply Permutation_rev].
  apply take_Permutation. rewrite <- (length_map value).
  apply (argsort_int_positions lib lib_sorts).
Qed.

Lemma sort_counts_desc_descending (value : A -> Z) (l : list A) :
  StronglySorted (fun a b => (value b <= value a)%Z) (sort_counts_desc lib value l).
Proof.
  unfold sort_counts_desc.
  pose proof (argsort_int_ascending lib lib_sorts (map value (rev l))) as H.
  rewrite take_map in H. apply StronglySorted_map in H.
  apply StronglySorted_rev in H. exact H.
Qed.

End Sorting.

(** ** The insertion sort sorts *)

Section InsertionSort.

Context {A : Type}.
Variable le : A -> A -> bool.

(** The elements on which [le] is a total preorder. *)
Variable ordered : A -> Prop.
Hypothesis le_total : forall a b, ordered a -> ordered b -> le a b = false -> le b a = true.
Hypothesis le_trans :
  forall a b c, le a b = true -> le b c = true -> le a c = true.

Lemma insert_by_In (x y : A) (l : list A) :
  In y (insert_by le x l) <-> y = x \/ In y l.
Proof.
  induction l as [|z l IH]; simpl; [intuition|].
  destruct (le x z); simpl; [intuition|]. rewrite IH. intuition.
Qed.

Lemma insert_by_Permutation (x : A) (l : list A) :
  Permutation (x :: l) (insert_by le x l).
Proof.
  induction l as [|z l IH]; simpl; [reflexivity|].
  destruct (le x z); [reflexivity|].
  rewrite perm_swap. now constructor.
Qed.

Lemma stable_sort_Permutation (l : list A) : Permutation l (stable_sort le l).
Proof.
  induction l as [|x l IH]; simpl; [constructor|].
  rewrite <- insert_by_Permutation. now constructor.
Qed.

Lemma insert_by_sorted (x : A) (l : list A) :
  ordered x -> Forall ordered l ->
  StronglySorted (fun a b => le a b = true) l ->
  StronglySorted (fun a b => le a b = true) (insert_by le x l).
Proof.
  intros Hx Hl Hs. induction Hs as [|y l Hs IH Hall]; simpl.
  - repeat constructor.
  - inversion Hl as [|? ? Hy Hl']; subst.
    destruct (le x y) eqn:E.
    + constructor; [now constructor|]. constructor; [assumption|].
      eapply Forall_impl; [|exact Hall]. intros b Hb. now apply (le_trans x y b).
    + constructor; [now apply IH|].
      apply Forall_forall. intros b Hb. apply insert_by_In in Hb.
      destruct Hb as [->|Hb]; [now apply le_total|].
      rewrite Forall_forall in Hall. now apply Hall.
Qed.

Lemma stable_sort_sorted (l : list A) :
  Forall ordered l -> StronglySorted (fun a b => le a b = true) (stable_sort le l).
Proof.
  induction 1 as [|x l Hx Hl IH]; simpl; [constructor|].
  apply insert_by_sorted; [assumption| |assumption].
  apply Forall_forall. intros b Hb.
  apply (Permutation_in _ (Permutation_sym (stable_sort_Permutation l))) in Hb.
  rewrite Forall_forall in Hl. now apply Hl.
Qed.

End InsertionSort.

(** The pairs of a position and the value at it. *)
Lemma combine_seq_positions {A : Type} (values : list A) (start : nat) :
  Forall (fun p => nth_error values (fst p - start) = Some (snd p) /\ start <= fst p)
         (combine (seq start (List.length values)) values).
Proof.
  revert start. induction values as [|v values IH]; intros start; simpl; constructor.
  - simpl. rewrite Nat.sub_diag. split; [reflexivity | lia].
  - specialize (IH (S start)). eapply Forall_impl; [|exact IH].
    intros [i x] [H1 H2]. simpl in *. split; [|lia].
    replace (i - start) with (S (i - S start)) by lia. exact H1.
Qed.

Lemma take_positions {A : Type} (values : list A) (pairs : list (nat * A)) :
  Forall (fun p => nth_error values (fst p) = Some (snd p)) pairs ->
  take (map fst pairs) values = map snd pairs.
Proof.
  unfold take. induction 1 as [|p pairs Hp Hall IH]; simpl; [reflexivity|].
  now rewrite Hp, IH.
Qed.

Lemma map_fst_combine_seq {A : Type} (values : list A) (start : nat) :
  map fst (combine (seq start (List.length values)) values)
  = seq start (List.length values).
Proof.
  revert start. induction values as [|v values IH]; intros start; simpl; [reflexivity|].
  now rewrite IH.
Qed.

Lemma argsort_by_positions {A : Type} (le : A -> A -> bool) (values : list A) :
  Permutation (argsort_by le values) (seq 0 (List.length values)).
Proof.
  unfold argsort_by. rewrite <- (map_fst_combine_seq values 0) at 2.
  apply Permutation_map. symmetry. apply stable_sort_Permutation.
Qed.

Lemma argsort_by_ascending {A : Type} (le : A -> A -> bool) (ordered : A -> Prop)
  (values : list A) :
  (forall a b, ordered a -> ordered b -> le a b = false -> le b a = true) ->
  (forall a b c, le a b = true -> le b c = true -> le a c = true) ->
  Forall ordered values ->
  StronglySorted (fun a b => le a b = true) (take (argsort_by le values) values).
Proof.
  intros Htotal Htrans Hall. unfold argsort_by.
  set (pairs := combine (seq 0 (List.length values)) values).
  set (le' := fun a b : nat * A => le (snd a) (snd b)).
  assert (Hpos : Forall (fun p => nth_error values (fst p) = Some (snd p))
                        (stable_sort le' pairs)).
  { apply Forall_forall. intros p Hp.
    apply (Permutation_in _ (Permutation_sym (stable_sort_Permutation le' pairs))) in Hp.
    pose proof (combine_seq_positions values 0) as H. rewrite Forall_forall in H.
    destruct (H p Hp) as [E _]. now rewrite Nat.sub_0_r in E. }
  rewrite (take_positions _ _ Hpos).
  assert (Hsorted : StronglySorted (fun a b => le' a b = true) (stable_sort le' pairs)).
  { apply (stable_sort_sorted le' (fun p => ordered (snd p))).
    - intros a b. apply Htotal.
    - intros a b c. apply Htrans.
    - apply Forall_forall. intros [i x] Hp. apply in_combine_r in Hp.
      rewrite Forall_forall in Hall. now apply Hall. }
  clear Hpos. induction Hsorted as [|p l Hs IH Hp]; simpl; constructor; [assumption|].
  rewrite Forall_map. exact Hp.
Qed.

(** The library of the examples sorts. *)
Lemma in_file_order_sorts : sorts in_file_order.
Proof.
  constructor; simpl.
  - intros values. apply argsort_by_positions.
  - intros values Hall.
    apply (argsort_by_ascending PrimFloat.leb (fun x => is_nan x = false)).
    + apply leb_total.
    + apply fle_trans.
    + exact Hall.
  - intros values. apply argsort_by_positions.
  - intros values.
    eapply StronglySorted_impl;
      [|apply (argsort_by_ascending Z.leb (fun _ => True))].
    + intros a b H. now apply Z.leb_le.
    + intros a b _ _ H. apply Z.leb_le. apply Z.leb_gt in H. lia.
    + intros a b c H1 H2. apply Z.leb_le. apply Z.leb_le in H1, H2. lia.
    + apply Forall_forall. intros x _. exact I.
Qed.

(** ** The loader *)

Section LoaderProperties.

Variable to_numeric : string -> option float.

Lemma data_rows_app (n : nat) (l1 l2 : list string) :
  data_rows n (l1 ++ l2) = data_rows n l1 ++ data_rows n l2.
Proof.
  induction l1 as [|l l1 IH]; simpl; [reflexivity|].
  destruct (PyStr.truthy (PyStr.strip l)); [|assumption].
  destruct (List.length (parse_line l) =? n); [|assumption].
  simpl. now rewrite IH.
Qed.

Lemma data_rows_accepted (n : nat) (lines : list string) :
  data_rows n lines = map parse_line (filter (accepted n) lines).
Proof.
  induction lines as [|l lines IH]; simpl; [reflexivity|].
  unfold accepted at 1.
  destruct (PyStr.truthy (PyStr.strip l)); simpl; [|assumption].
  destruct (List.length (parse_line l) =? n); simpl; [|assumption].
  now rewrite IH.
Qed.

Lemma data_rows_width (n : nat) (lines : list string) :
  Forall (fun r => List.length r = n) (data_rows n lines).
Proof.
  induction lines as [|l lines IH]; simpl; [constructor|].
  destruct (PyStr.truthy (PyStr.strip l)); [|assumption].
  destruct (Nat.eqb_spec (List.length (parse_line l)) n); [|assumption].
  now constructor.
Qed.

Lemma update_at_length {A : Type} (i : nat) (f : A -> A) (l : list A) :
  List.length (update_at i f l) = List.length l.
Proof.
  revert i. induction l as [|x l IH]; intros [|i]; simpl; auto.
Qed.

Lemma update_at_other {A : Type} (i j : nat) (f : A -> A) (l : list A) :
  i <> j -> nth_error (update_at i f l) j = nth_error l j.
Proof.
  revert i j. induction l as [|x l IH]; intros [|i] [|j] Hne; simpl; auto.
  contradiction.
Qed.

(** What a successful load returns: the parsed header, and for every
    accepted line its fields as text, the cost field coerced. *)
Lemma load_data_Ok (lines : list string) (d : DataFrame) :
  load_data to_numeric lines = Ok d ->
  exists header_line rest i,
    lines = header_line :: rest /\
    positions "MonthlyCostUSD" (parse_line header_line) = [i] /\
    d = mkDF (parse_line header_line)
             (map (fun r => update_at i (coerce to_numeric) (map Str r))
                  (data_rows (List.length (parse_line header_line)) rest)).
Proof.
  unfold load_data. destruct lines as [|h rest]; [discriminate|].
  destruct (positions "MonthlyCostUSD" (parse_line h)) as [|i [|j ps]] eqn:E;
    try discriminate.
  intros H. inversion H; subst. exists h, rest, i.
  repeat split; try assumption. simpl. now rewrite map_map.
Qed.

Lemma load_data_rectangular (lines : list string) (d : DataFrame) :
  load_data to_numeric lines = Ok d -> rectangular d.
Proof.
  intros H. destruct (load_data_Ok _ _ H) as [h [rest [i [_ [_ ->]]]]].
  unfold rectangular. simpl. rewrite Forall_map.
  eapply Forall_impl; [|apply data_rows_width].
  intros r Hr. simpl in *. now rewrite update_at_length, length_map.
Qed.

Lemma load_data_text (lines : list string) (d : DataFrame) :
  load_data to_numeric lines = Ok d -> text_outside_cost d.
Proof.
  intros H. destruct (load_data_Ok _ _ H) as [h [rest [i [_ [Hpos ->]]]]].
  intros r j label Hr Hj Hne. simpl in *.
  apply in_map_iff in Hr. destruct Hr as [fields [<- Hfields]].
  assert (Hw : List.length fields = List.length (parse_line h)).
  { pose proof (data_rows_width (List.length (parse_line h)) rest) as Hall.
    rewrite Forall_forall in Hall. now apply Hall. }
  assert (Hij : i <> j).
  { intros ->. assert (Hi : In j (positions "MonthlyCostUSD" (parse_line h)))
      by (rewrite Hpos; now left).
    apply positions_spec in Hi. congruence. }
  rewrite update_at_other by assumption.
  assert (Hlt : j < List.length fields).
  { rewrite Hw. apply nth_error_Some. congruence. }
  destruct (nth_error fields j) as [s|] eqn:Es.
  - exists s. now apply map_nth_error.
  - apply nth_error_None in Es. lia.
Qed.

(** C8: a line whose field count differs from the header's is dropped
    without an exception, and the lines around it are parsed as they
    are without it: the rows are those of the lines before followed by
    those of the lines after, in every case the rows of the accepted
    lines in file order, and the load returns what it returns on the
    file without the line. *)
Theorem mismatched_line_is_dropped
  (header_line : string) (before : list string) (line : string)
  (after : list string) :
  List.length (parse_line line) <> List.length (parse_line header_line) ->
  let ncols := List.length (parse_line header_line) in
  data_rows ncols (before ++ line :: after)
    = data_rows ncols before ++ data_rows ncols after
  /\ data_rows ncols (before ++ line :: after)
    = map parse_line (filter (accepted ncols) (before ++ after))
  /\ load_data to_numeric (header_line :: before ++ line :: after)
    = load_data to_numeric (header_line :: before ++ after).
Proof.
  intros Hne ncols.
  assert (Hdrop : data_rows ncols (line :: after) = data_rows ncols after).
  { simpl. destruct (PyStr.truthy (PyStr.strip line)); [|reflexivity].
    apply Nat.eqb_neq in Hne. fold ncols in Hne. now rewrite Hne. }
  assert (Hrows : data_rows ncols (before ++ line :: after)
                  = data_rows ncols (before ++ after)).
  { now rewrite !data_rows_app, Hdrop. }
  split; [|split].
  - now rewrite data_rows_app, Hdrop.
  - rewrite Hrows. apply data_rows_accepted.
  - unfold load_data. fold ncols. now rewrite Hrows.
Qed.

End LoaderProperties.

Lemma mismatched_line_is_dropped_witness :
  let ncols := List.length (parse_line "ResourceID,MonthlyCostUSD") in
  data_rows ncols (["R1,100"] ++ "R9" :: ["R2,50"])
    = data_rows ncols ["R1,100"] ++ data_rows ncols ["R2,50"]
  /\ data_rows ncols (["R1,100"] ++ "R9" :: ["R2,50"])
    = map parse_line (filter (accepted ncols) (["R1,100"] ++ ["R2,50"]))
  /\ load_data Decimal.to_numeric
       ("ResourceID,MonthlyCostUSD" :: ["R1,100"] ++ "R9" :: ["R2,50"])
    = load_data Decimal.to_numeric
        ("ResourceID,MonthlyCostUSD" :: ["R1,100"] ++ ["R2,50"]).
Proof.
  apply (mismatched_line_is_dropped Decimal.to_numeric
           "ResourceID,MonthlyCostUSD" ["R1,100"] "R9" ["R2,50"]).
  vm_compute. intros H. discriminate H.
Defined.

(** The damaged sample file loads to the same frame as the clean one. *)
Example damaged_file_loads_like_clean_file :
  load_data Decimal.to_numeric Sample.three_records_damaged
  = load_data Decimal.to_numeric Sample.three_records.
Proof. vm_compute. reflexivity. Qed.

(** ** The filters *)

Lemma restrict_all (label : string) (selected : list string) (view : DataFrame) :
  In "All" selected -> restrict label selected view = Ok view.
Proof.
  intros Hin. unfold restrict.
  apply in_list_In in Hin. now rewrite Hin.
Qed.

(** A filter keeps the labels and keeps a sub-sequence of the rows. *)
Lemma restrict_Ok (label : string) (selected : list string) (view view' : DataFrame) :
  restrict label selected view = Ok view' ->
  columns view' = columns view /\
  exists keep, rows view' = filter keep (rows view).
Proof.
  unfold restrict, where_isin.
  destruct (negb (in_list "All" selected)).
  - intros H. apply bind_Ok in H. destruct H as [i [_ H]].
    inversion H; subst. simpl. eauto.
  - intros H. inversion H; subst. split; [reflexivity|].
    exists (fun _ => true).
    induction (rows view') as [|r rs IH]; simpl; congruence.
Qed.

Lemma apply_filters_Ok (d view : DataFrame) (sel : Selections) :
  apply_filters d sel = Ok view ->
  columns view = columns d /\ incl (rows view) (rows d).
Proof.
  unfold apply_filters. intros H.
  apply bind_Ok in H. destruct H as [v1 [H1 H]].
  apply bind_Ok in H. destruct H as [v2 [H2 H]].
  apply bind_Ok in H. destruct H as [v3 [H3 H4]].
  apply restrict_Ok in H1, H2, H3, H4.
  destruct H1 as [C1 [k1 R1]], H2 as [C2 [k2 R2]],
           H3 as [C3 [k3 R3]], H4 as [C4 [k4 R4]].
  split; [congruence|].
  intros r Hr. rewrite R4 in Hr. apply filter_In in Hr. destruct Hr as [Hr _].
  rewrite R3 in Hr. apply filter_In in Hr. destruct Hr as [Hr _].
  rewrite R2 in Hr. apply filter_In in Hr. destruct Hr as [Hr _].
  rewrite R1 in Hr. apply filter_In in Hr. now destruct Hr as [Hr _].
Qed.

(** C7: a field whose selection holds [All] is not restricted, whatever
    else the selection holds; with [All] in the selection of each of the
    four fields the filters return the dataset as it is, rows in their
    order. *)
Theorem all_selects_everything (d : DataFrame) (sel : Selections) :
  In "All" (selected_dept sel) -> In "All" (selected_service sel) ->
  In "All" (selected_region sel) -> In "All" (selected_env sel) ->
  (forall label view, restrict label (selected_dept sel) view = Ok view) /\
  (forall label view, restrict label (selected_service sel) view = Ok view) /\
  (forall label view, restrict label (selected_region sel) view = Ok view) /\
  (forall label view, restrict label (selected_env sel) view = Ok view) /\
  apply_filters d sel = Ok d.
Proof.
  intros Hd Hs Hr He.
  repeat split; intros; try now apply restrict_all.
  unfold apply_filters.
  rewrite (restrict_all _ _ _ Hd). simpl.
  rewrite (restrict_all _ _ _ Hs). simpl.
  rewrite (restrict_all _ _ _ Hr). simpl.
  now apply restrict_all.
Qed.

Lemma all_selects_everything_witness :
  let sel := mkSel ["All"] ["All"; "EC2"] ["eu-west-1"; "All"] ["All"] in
  (forall label view, restrict label (selected_dept sel) view = Ok view) /\
  (forall label view, restrict label (selected_service sel) view = Ok view) /\
  (forall label view, restrict label (selected_region sel) view = Ok view) /\
  (forall label view, restrict label (selected_env sel) view = Ok view) /\
  apply_filters Sample.three_columns sel = Ok Sample.three_columns.
Proof.
  apply (all_selects_everything Sample.three_columns
           (mkSel ["All"] ["All"; "EC2"] ["eu-west-1"; "All"] ["All"]));
    simpl; auto.
Defined.

(** ** Selecting columns by label *)

(** With distinct labels, a list of present labels selects one column per
    label. *)
Lemma cols_distinct (d : DataFrame) (labels : list string) :
  NoDup (columns d) -> incl labels (columns d) ->
  exists idx,
    cols d labels = Ok idx /\
    Forall2 (fun i label => nth_error (columns d) i = Some label) idx labels.
Proof.
  intros Hnd Hincl. unfold cols.
  assert (H : exists idx,
             mapM (fun label => match positions label (columns d) with
                                | [] => Raise (KeyError label)
                                | ps => Ok ps
                                end) labels = Ok (map (fun i => [i]) idx) /\
             Forall2 (fun i label => nth_error (columns d) i = Some label)
                     idx labels).
  { induction labels as [|l labels IH]; simpl.
    - exists []. split; [reflexivity | constructor].
    - destruct IH as [idx [E F]].
      { intros x Hx. apply Hincl. now right. }
      destruct (positions_NoDup l (columns d) Hnd) as [i Ei].
      { apply Hincl. now left. }
      exists (i :: idx). rewrite Ei, E. simpl. split; [reflexivity|].
      constructor; [|assumption].
      apply positions_spec. rewrite Ei. now left. }
  destruct H as [idx [E F]]. exists idx. rewrite E. simpl. split; [|assumption].
  f_equal. clear. induction idx as [|i idx IH]; simpl; congruence.
Qed.

Lemma labels_of_positions (cs : list string) (idx : list nat) (labels : list string) :
  Forall2 (fun i label => nth_error cs i = Some label) idx labels ->
  map (fun i => nth i cs EmptyString) idx = labels.
Proof.
  induction 1 as [|i l idx labels Hi _ IH]; simpl; [reflexivity|].
  f_equal; [|assumption]. now apply nth_error_nth.
Qed.

Lemma select_distinct (d : DataFrame) (labels : list string) :
  NoDup (columns d) -> incl labels (columns d) ->
  exists idx,
    Forall2 (fun i label => nth_error (columns d) i = Some label) idx labels /\
    select d labels = Ok (mkDF labels (map (at_cols idx) (rows d))).
Proof.
  intros Hnd Hincl. destruct (cols_distinct d labels Hnd Hincl) as [idx [E F]].
  exists idx. split; [assumption|].
  unfold select. rewrite E. simpl. now rewrite (labels_of_positions _ _ _ F).
Qed.

(** In a frame with text outside the cost column, the cells selected by
    labels other than the cost label are text. *)
Lemma at_cols_text (d : DataFrame) (idx : list nat) (labels : list string)
  (r : list cell) :
  text_outside_cost d -> In r (rows d) ->
  Forall2 (fun i label => nth_error (columns d) i = Some label) idx labels ->
  ~ In "MonthlyCostUSD" labels ->
  Forall is_text (at_cols idx r).
Proof.
  intros Htext Hr F Hcost. unfold at_cols.
  induction F as [|i l idx labels Hi _ IH]; simpl; constructor.
  - destruct (Htext r i l Hr Hi) as [s Hs].
    { intros ->. apply Hcost. now left. }
    exists s. unfold at_col. now apply nth_error_nth.
  - apply IH. intros Hin. apply Hcost. now right.
Qed.

Lemma filter_notna_text (r : list cell) :
  Forall is_text r -> filter notna r = r.
Proof.
  induction 1 as [|c r [s ->] _ IH]; simpl; [reflexivity|]. now rewrite IH.
Qed.

Lemma filter_isna_text (r : list cell) :
  Forall is_text r -> filter isna r = [].
Proof.
  induction 1 as [|c r [s ->] _ IH]; simpl; [reflexivity | assumption].
Qed.

Lemma existsb_isna_text (r : list cell) :
  Forall is_text r -> existsb isna r = false.
Proof.
  induction 1 as [|c r [s ->] _ IH]; simpl; [reflexivity | assumption].
Qed.

Lemma no_null_in_column (j n : nat) (rs : list (list cell)) :
  Forall (fun r => Forall is_text r /\ List.length r = n) rs -> j < n ->
  List.length (filter (fun r => isna (at_col j r)) rs) = 0.
Proof.
  intros Hall Hj. induction Hall as [|r rs [Ht Hl] _ IH]; simpl; [reflexivity|].
  assert (E : isna (at_col j r) = false).
  { unfold at_col. rewrite Forall_forall in Ht.
    destruct (Ht (nth j r NA)) as [s ->]; [|reflexivity].
    apply nth_In. lia. }
  now rewrite E.
Qed.

Lemma text_outside_cost_view (d view : DataFrame) :
  columns view = columns d -> incl (rows view) (rows d) ->
  text_outside_cost d -> text_outside_cost view.
Proof.
  intros Hc Hr Ht r i label Hin Hi Hne.
  rewrite Hc in Hi. exact (Ht r i label (Hr r Hin) Hi Hne).
Qed.

Lemma distinct_NoDup (labels : list string) :
  distinct labels = true -> NoDup labels.
Proof.
  induction labels as [|l labels IH]; simpl; intros H; constructor.
  - apply andb_prop in H. destruct H as [H _].
    intros Hin. apply in_list_In in Hin. rewrite Hin in H. discriminate.
  - apply IH. apply andb_prop in H. tauto.
Qed.

Lemma all_among_incl (labels among : list string) :
  all_among labels among = true -> incl labels among.
Proof.
  unfold all_among. rewrite forallb_forall. intros H l Hl.
  apply in_list_In. now apply H.
Qed.

Lemma missing_cols_nil (d : DataFrame) :
  missing_cols d = [] -> incl required_cols (columns d).
Proof.
  unfold missing_cols. intros H l Hl. apply in_list_In.
  destruct (in_list l (columns d)) eqn:E; [reflexivity|].
  assert (Hin : In l (filter (fun c => negb (in_list c (columns d))) required_cols)).
  { apply filter_In. split; [assumption | now rewrite E]. }
  rewrite H in Hin. contradiction.
Qed.

(** ** Tag completeness on loaded data *)

Lemma map_constant {A B : Type} (f : A -> B) (c : B) (l : list A) :
  (forall x, In x l -> f x = c) -> map f l = repeat c (List.length l).
Proof.
  induction l as [|x l IH]; simpl; intros H; [reflexivity|].
  rewrite (H x) by now left. f_equal. apply IH. intros y Hy. apply H. now right.
Qed.

(** The census holds the counts it is given, each with its percentage. *)
Lemma census_Permutation (lib : Library) (counts : list (string * nat)) (total : nat) :
  sorts lib ->
  Permutation (census lib counts total)
              (map (fun lc => (fst lc, snd lc, np_percent (snd lc) total)) counts).
Proof.
  intros Hs. unfold census. apply Permutation_map. symmetry.
  now apply sort_counts_desc_Permutation.
Qed.

Lemma census_of_zeros (lib : Library) (total : nat) :
  sorts lib ->
  Permutation (census lib (map (fun label => (label, 0)) tag_columns) total)
              (map (fun label => (label, 0, np_percent 0 total)) tag_columns).
Proof.
  intros Hs. eapply Permutation_trans; [now apply census_Permutation|].
  rewrite map_map. reflexivity.
Qed.

Lemma score_of_text (lib : Library) (d : DataFrame) :
  NoDup (columns d) -> incl tag_columns (columns d) -> text_outside_cost d ->
  TagCompletenessScore d = Ok (repeat 5 (len d)) /\
  missing_tags lib d
    = Ok (census lib (map (fun label => (label, 0)) tag_columns) (len d)).
Proof.
  intros Hnd Hincl Htext.
  destruct (select_distinct d tag_columns Hnd Hincl) as [idx [F Esel]].
  assert (Hlen : List.length idx = 5).
  { apply Forall2_length in F. exact F. }
  assert (Hrow : forall r, In r (rows d) ->
                   Forall is_text (at_cols idx r) /\ List.length (at_cols idx r) = 5).
  { intros r Hr. split.
    - eapply at_cols_text; eauto.
      unfold tag_columns. simpl. intuition discriminate.
    - unfold at_cols. now rewrite length_map. }
  unfold TagCompletenessScore, missing_tags. rewrite Esel.
  cbn [bind rows columns]. split.
  - f_equal. rewrite map_map. unfold len. apply map_constant.
    intros r Hr. destruct (Hrow r Hr) as [Ht Hl].
    now rewrite (filter_notna_text _ Ht).
  - f_equal. f_equal.
    assert (Hall : Forall (fun r => Forall is_text r /\ List.length r = 5)
                          (map (at_cols idx) (rows d))).
    { rewrite Forall_map. apply Forall_forall. exact Hrow. }
    unfold isnull_sum, tag_columns. cbn -[at_col filter].
    rewrite !(no_null_in_column _ 5 _ Hall) by lia. reflexivity.
Qed.

Section TagProperties.

Variable to_numeric : string -> option float.

(** C2: whatever the file, a loaded record holds a string, possibly
    empty, in every field other than the cost, none of them null; so on
    every view of the loaded data every record scores 5 over the five
    tag fields and the census of missing tags counts 0 for each of
    them, blank fields included. *)
Theorem blank_tags_are_not_null (lines : list string) (d : DataFrame) :
  load_data to_numeric lines = Ok d ->
  rectangular d /\
  text_outside_cost d /\
  forall sel view,
    apply_filters d sel = Ok view ->
    NoDup (columns d) -> incl tag_columns (columns d) ->
    TagCompletenessScore view = Ok (repeat 5 (len view)) /\
    forall lib, sorts lib ->
    exists table,
      missing_tags lib view = Ok table /\
      Permutation table
        (map (fun label => (label, 0, np_percent 0 (len view))) tag_columns).
Proof.
  intros Hload. split; [|split].
  - eapply load_data_rectangular; eassumption.
  - eapply load_data_text; eassumption.
  - intros sel view Hview Hnd Hincl.
    destruct (apply_filters_Ok _ _ _ Hview) as [Hc Hr].
    assert (Htext : text_outside_cost view).
    { eapply text_outside_cost_view; eauto.
      eapply load_data_text; eassumption. }
    rewrite <- Hc in Hnd, Hincl. split.
    + apply (score_of_text in_file_order view Hnd Hincl Htext).
    + intros lib Hs. eexists. split.
      * apply (score_of_text lib view Hnd Hincl Htext).
      * now apply census_of_zeros.
Qed.

End TagProperties.

Lemma blank_tags_are_not_null_witness :
  let d := Sample.loaded Sample.three_records in
  text_outside_cost d /\
  TagCompletenessScore d = Ok [5; 5; 5] /\
  exists table,
    missing_tags in_file_order d = Ok table /\
    Permutation table (map (fun label => (label, 0, np_percent 0 3)) tag_columns).
Proof.
  intros d.
  destruct (blank_tags_are_not_null Decimal.to_numeric Sample.three_records d)
    as [_ [Htext Hview]].
  - vm_compute. reflexivity.
  - split; [exact Htext|].
    destruct (Hview default_selections d) as [Hscore Hcensus].
    + vm_compute. reflexivity.
    + apply distinct_NoDup. vm_compute. reflexivity.
    + apply all_among_incl. vm_compute. reflexivity.
    + split; [exact Hscore|].
      exact (Hcensus in_file_order in_file_order_sorts).
Defined.

(** ** The remediation copy *)

Lemma editable_are_required : incl editable_columns required_cols.
Proof. apply all_among_incl. reflexivity. Qed.

(** C10: on a view that passed the schema check the remediation copy is
    built, and it has the eight columns ResourceID, Service, Department,
    Project, Environment, Owner, CostCenter, MonthlyCostUSD and no other:
    AccountID, CreatedBy, Tagged and TagCompletenessScore are not among
    them.  Whatever the editor hands back for it, the exported CSV has
    these eight labels as its header line and one line per row. *)
Theorem remediation_copy_has_eight_columns (view : DataFrame) :
  NoDup (columns view) -> missing_cols view = [] ->
  exists u,
    untagged_editable view = Ok u /\
    columns u = editable_columns /\
    Forall (fun r => List.length r = 8) (rows u) /\
    ~ In "AccountID" (columns u) /\ ~ In "CreatedBy" (columns u) /\
    ~ In "Tagged" (columns u) /\ ~ In "TagCompletenessScore" (columns u) /\
    forall float_repr int_repr edited_df,
      edit_of u edited_df ->
      hd_error (to_csv float_repr int_repr edited_df)
        = Some "ResourceID,Service,Department,Project,Environment,Owner,CostCenter,MonthlyCostUSD" /\
      List.length (to_csv float_repr int_repr edited_df) = S (len edited_df).
Proof.
  intros Hnd Hmiss. apply missing_cols_nil in Hmiss.
  destruct (col_In view "Tagged") as [t Et].
  { apply Hmiss. unfold required_cols. simpl. tauto. }
  unfold untagged_editable, where_eq. rewrite Et. cbn [bind].
  set (no := loc (fun r => eq_str (at_col t r) "No") view).
  destruct (select_distinct no editable_columns) as [idx [F Esel]].
  { exact Hnd. }
  { intros l Hl. apply Hmiss. now apply editable_are_required. }
  eexists. split; [exact Esel|]. cbn [columns rows].
  split; [reflexivity|]. split.
  { rewrite Forall_map. apply Forall_forall. intros r _.
    unfold at_cols. rewrite length_map. apply Forall2_length in F. exact F. }
  unfold editable_columns.
  repeat (split; [simpl; intuition discriminate|]).
  intros float_repr int_repr edited_df [Hc _]. cbn [columns] in Hc.
  unfold to_csv. rewrite Hc. split; [reflexivity|].
  simpl. now rewrite length_map.
Qed.

Lemma remediation_copy_has_eight_columns_witness :
  exists u,
    untagged_editable (Sample.loaded Sample.three_records) = Ok u /\
    columns u = editable_columns /\
    Forall (fun r => List.length r = 8) (rows u) /\
    ~ In "AccountID" (columns u) /\ ~ In "CreatedBy" (columns u) /\
    ~ In "Tagged" (columns u) /\ ~ In "TagCompletenessScore" (columns u) /\
    forall float_repr int_repr edited_df,
      edit_of u edited_df ->
      hd_error (to_csv float_repr int_repr edited_df)
        = Some "ResourceID,Service,Department,Project,Environment,Owner,CostCenter,MonthlyCostUSD" /\
      List.length (to_csv float_repr int_repr edited_df) = S (len edited_df).
Proof.
  apply (remediation_copy_has_eight_columns (Sample.loaded Sample.three_records)).
  - apply distinct_NoDup. vm_compute. reflexivity.
  - vm_compute. reflexivity.
Defined.

(** ** The improvement count *)

Lemma loc_len_le (keep : list cell -> bool) (d : DataFrame) :
  len (loc keep d) <= len d.
Proof. unfold len, loc. simpl. apply filter_length_le. Qed.

Lemma rows_missing_a_tag_Ok (d incomplete : DataFrame) :
  rows_missing_a_tag d = Ok incomplete ->
  exists idx,
    cols d tag_columns = Ok idx /\
    incomplete = loc (fun r => existsb isna (at_cols idx r)) d.
Proof.
  unfold rows_missing_a_tag. intros H. apply bind_Ok in H.
  destruct H as [idx [E H]]. inversion H; subst. eauto.
Qed.

(** C3, as the code has it: the improvement count is the number of all
    rows of the remediation copy before editing, with or without a
    missing tag, minus the number of rows of the edited copy with at
    least one null tag field, by plain integer subtraction.  It exceeds
    the difference of the two missing-tag row counts by the number of
    rows that had every tag before the edit, and it is negative whenever
    the edited copy has more rows with a null tag than the copy had rows:
    nothing clamps it to zero. *)
Theorem improvement_counts_all_rows_before
  (before after incomplete_before incomplete_after : DataFrame) :
  rows_missing_a_tag before = Ok incomplete_before ->
  rows_missing_a_tag after = Ok incomplete_after ->
  improvement before after
    = Ok (Z.of_nat (len before) - Z.of_nat (len incomplete_after))%Z /\
  claimed_improvement before after
    = Ok (Z.of_nat (len incomplete_before) - Z.of_nat (len incomplete_after))%Z /\
  len incomplete_before <= len before /\
  (forall got claimed,
      improvement before after = Ok got ->
      claimed_improvement before after = Ok claimed ->
      got = (claimed + Z.of_nat (len before - len incomplete_before))%Z) /\
  (len before < len incomplete_after ->
   exists got, improvement before after = Ok got /\ (got < 0)%Z).
Proof.
  intros Hb Ha.
  assert (Hle : len incomplete_before <= len before).
  { destruct (rows_missing_a_tag_Ok _ _ Hb) as [idx [_ ->]]. apply loc_len_le. }
  assert (Hi : improvement before after
               = Ok (Z.of_nat (len before) - Z.of_nat (len incomplete_after))%Z).
  { unfold improvement. now rewrite Ha. }
  assert (Hc : claimed_improvement before after
               = Ok (Z.of_nat (len incomplete_before)
                     - Z.of_nat (len incomplete_after))%Z).
  { unfold claimed_improvement. now rewrite Hb, Ha. }
  repeat split; try assumption.
  - intros got claimed Hg Hcl. rewrite Hi in Hg. rewrite Hc in Hcl.
    inversion Hg. inversion Hcl. lia.
  - intros Hlt. eexists. split; [exact Hi | lia].
Qed.

Lemma improvement_counts_all_rows_before_witness :
  let before := mkDF editable_columns [] in
  let after := mkDF editable_columns [[NA; NA; NA; NA; NA; NA; NA; NA]] in
  improvement before after = Ok (Z.of_nat (len before) - Z.of_nat (len after))%Z /\
  claimed_improvement before after
    = Ok (Z.of_nat (len before) - Z.of_nat (len after))%Z /\
  len before <= len before /\
  (forall got claimed,
      improvement before after = Ok got ->
      claimed_improvement before after = Ok claimed ->
      got = (claimed + Z.of_nat (len before - len before))%Z) /\
  (len before < len after ->
   exists got, improvement before after = Ok got /\ (got < 0)%Z).
Proof.
  intros before after.
  apply (improvement_counts_all_rows_before before after before after);
    vm_compute; reflexivity.
Defined.

(** C3 as the specification words it fails: on the remediation copy of
    the three sample records, handed back unedited, the code shows an
    improvement of 2 where the difference of the missing-tag row counts
    is 0. *)
Lemma improvement_differs_from_claimed_difference :
  let u := Sample.remediation_copy (Sample.loaded Sample.three_records) in
  improvement u u = Ok 2%Z /\
  claimed_improvement u u = Ok 0%Z /\
  improvement u u <> claimed_improvement u u.
Proof.
  intros u. assert (Hi : improvement u u = Ok 2%Z) by (vm_compute; reflexivity).
  assert (Hc : claimed_improvement u u = Ok 0%Z) by (vm_compute; reflexivity).
  repeat split; try assumption. rewrite Hi, Hc. discriminate.
Qed.

(** A row added and left empty in the editor lowers the count by one. *)
Example empty_added_row_lowers_improvement :
  let u := Sample.remediation_copy (Sample.loaded Sample.three_records) in
  edit_of u Sample.one_row_added /\
  improvement u u = Ok 2%Z /\
  improvement u Sample.one_row_added = Ok 1%Z.
Proof.
  intros u. split; [split; [reflexivity | vm_compute; repeat constructor]|].
  split; vm_compute; reflexivity.
Qed.

(** ** Percentages and the empty view *)

(** The guarded percentages are 0 on a view without rows, the one of the
    cost as soon as the sum of no number is not above zero. *)
Lemma guarded_percentages_on_empty (lib : Library) (view : DataFrame) :
  rows view = [] -> incl required_cols (columns view) ->
  positive (np_sum lib []) = false ->
  untagged_pct view = Ok 0%float /\
  untagged_cost_pct lib view = Ok 0%float /\
  env_summary lib view = Ok [].
Proof.
  intros Hrows Hreq Hzero.
  destruct (col_In view "Tagged") as [t Et].
  { apply Hreq. unfold required_cols. simpl. tauto. }
  destruct (col_In view "MonthlyCostUSD") as [c Ec].
  { apply Hreq. unfold required_cols. simpl. tauto. }
  destruct (col_In view "Environment") as [e Ee].
  { apply Hreq. unfold required_cols. simpl. tauto. }
  destruct (col_In view "ResourceID") as [r Er].
  { apply Hreq. unfold required_cols. simpl. tauto. }
  unfold untagged_pct, untagged_cost_pct, untagged_cost, total_cost, series,
    untagged_count, env_summary, where_eq.
  rewrite ?col_loc, Et, Ec, Ee, Er. cbn [bind]. rewrite ?col_loc, Ec.
  unfold len, loc, nansum. rewrite Hrows. cbn [rows filter map bind].
  rewrite Hzero. repeat split.
Qed.

(** The unguarded one divides by zero there. *)
Lemma tagged_pct_metric_on_empty (view : DataFrame) :
  rows view = [] -> In "Tagged" (columns view) ->
  tagged_pct_metric view = Raise ZeroDivisionError.
Proof.
  intros Hrows Hin. destruct (col_In view "Tagged" Hin) as [t Et].
  unfold tagged_pct_metric, tagged_count, where_eq. rewrite Et.
  unfold len, loc. now rewrite Hrows.
Qed.

(** C1 fails on the code.  On the view of a file that has a header and no
    record, and on the view left when the department selection is
    emptied, the percentages of Tasks 1.5, 2.2 and 2.5 are defined and 0,
    but the Tagged % of Task 1.4 divides by the empty length: the run
    stops there on a ZeroDivisionError. *)
Theorem tagged_pct_divides_by_zero_on_empty_view :
  let view := Sample.loaded Sample.header_only in
  let none_selected := mkSel [] ["All"] ["All"] ["All"] in
  len view = 0 /\
  untagged_pct view = Ok 0%float /\
  untagged_cost_pct in_file_order view = Ok 0%float /\
  env_summary in_file_order view = Ok [] /\
  tagged_pct_metric view = Raise ZeroDivisionError /\
  page Decimal.to_numeric in_file_order Sample.header_only default_selections
    = Uncaught ZeroDivisionError /\
  apply_filters (Sample.loaded Sample.three_records) none_selected
    = Ok (mkDF (columns (Sample.loaded Sample.three_records)) []) /\
  page Decimal.to_numeric in_file_order Sample.three_records none_selected
    = Uncaught ZeroDivisionError.
Proof.
  intros view none_selected. conjuncts; vm_compute; reflexivity.
Qed.

(** ** The end-to-end example *)

(** C9: on the three records Eng 100 tagged, Eng 50 untagged, Ops 25
    untagged, with every filter at [All], the total cost is 175, the
    untagged cost 75, the untagged cost percentage prints as 42.86, and
    the department with the most untagged cost is Eng at 50; so on the
    three-field frame of the example, and so on the page run from a file
    with these records. *)
Theorem end_to_end_example :
  let view := Sample.three_columns in
  apply_filters Sample.three_columns default_selections = Ok view /\
  total_cost in_file_order view = Ok 175%float /\
  untagged_cost in_file_order view = Ok 75%float /\
  (exists pct, untagged_cost_pct in_file_order view = Ok pct /\
               pct = (75 / 175 * 100)%float /\ hundredths pct = 4286%Z) /\
  (exists g, dept_untagged in_file_order view = Ok g /\
             top g = Some ("Eng", 50%float)) /\
  exists report session,
    page Decimal.to_numeric in_file_order Sample.three_records default_selections
      = Shown (report, session) /\
    shown_total_cost report = 175%float /\
    shown_untagged_cost report = 75%float /\
    hundredths (shown_untagged_cost_pct report) = 4286%Z /\
    top (shown_dept_untagged report) = Some ("Eng", 50%float).
Proof.
  intros view.
  split; [vm_compute; reflexivity|]. split; [vm_compute; reflexivity|].
  split; [vm_compute; reflexivity|]. split; [|split].
  - eexists. split; [vm_compute; reflexivity|].
    split; vm_compute; reflexivity.
  - eexists. split; vm_compute; reflexivity.
  - eexists. eexists. split; [vm_compute; reflexivity|].
    conjuncts; vm_compute; reflexivity.
Qed.

(** ** Order of strings *)

Lemma str_lt_compare (a b : string) : str_lt a b <-> String.compare a b = Lt.
Proof.
  unfold str_lt, String.ltb. destruct (String.compare a b); split;
    intros H; try reflexivity; discriminate.
Qed.

Lemma str_lt_trans (a b c : string) : str_lt a b -> str_lt b c -> str_lt a c.
Proof.
  rewrite !str_lt_compare. intros H1 H2.
  apply String_as_OT.cmp_lt. apply String_as_OT.cmp_lt in H1, H2.
  eapply String_as_OT.lt_trans; eassumption.
Qed.

Lemma str_lt_irrefl (a : string) : ~ str_lt a a.
Proof.
  rewrite str_lt_compare. intros H.
  pose proof (proj2 (String_as_OT.cmp_eq a a) eq_refl) as E.
  unfold String_as_OT.cmp in E. congruence.
Qed.

Lemma compare_Gt_lt (a b : string) : String.compare a b = Gt -> str_lt b a.
Proof.
  intros H. apply str_lt_compare. rewrite String.compare_antisym, H. reflexivity.
Qed.

(** ** Group keys *)

Lemma insert_key_In (k x : string) (ks : list string) :
  In x (insert_key k ks) <-> x = k \/ In x ks.
Proof.
  induction ks as [|k' ks IH]; simpl.
  - intuition.
  - destruct (String.compare k k') eqn:E; simpl.
    + apply String_as_OT.cmp_eq in E. subst. intuition.
    + intuition.
    + rewrite IH. intuition.
Qed.

Lemma insert_key_sorted (k : string) (ks : list string) :
  StronglySorted str_lt ks -> StronglySorted str_lt (insert_key k ks).
Proof.
  induction 1 as [|k' ks Hs IH Hall]; simpl.
  - repeat constructor.
  - destruct (String.compare k k') eqn:E.
    + now constructor.
    + apply str_lt_compare in E. constructor; [now constructor|].
      constructor; [assumption|].
      eapply Forall_impl; [|exact Hall].
      intros x Hx. eapply str_lt_trans; eassumption.
    + apply compare_Gt_lt in E. constructor; [assumption|].
      apply Forall_forall. intros x Hx. apply insert_key_In in Hx.
      destruct Hx as [->|Hx]; [assumption|].
      rewrite Forall_forall in Hall. now apply Hall.
Qed.

Lemma group_keys_sorted (s : list cell) : StronglySorted str_lt (group_keys s).
Proof.
  induction s as [|c s IH]; simpl; [constructor|].
  destruct (key_of c); [now apply insert_key_sorted | assumption].
Qed.

Lemma group_keys_In (k : string) (s : list cell) :
  In k (group_keys s) <-> In (Str k) s.
Proof.
  induction s as [|c s IH]; simpl; [tauto|].
  destruct c as [x|q|n|]; simpl.
  - rewrite insert_key_In, IH. split.
    + intros [->|H]; auto.
    + intros [H|H]; [inversion H; auto | auto].
  - rewrite IH. split; [auto | intros [H|H]; [discriminate | assumption]].
  - rewrite IH. split; [auto | intros [H|H]; [discriminate | assumption]].
  - rewrite IH. split; [auto | intros [H|H]; [discriminate | assumption]].
Qed.

Lemma sorted_NoDup (ks : list string) : StronglySorted str_lt ks -> NoDup ks.
Proof.
  induction 1 as [|k ks Hs IH Hall]; constructor; [|assumption].
  intros Hin. rewrite Forall_forall in Hall.
  exact (str_lt_irrefl k (Hall k Hin)).
Qed.

Lemma group_keys_NoDup (s : list cell) : NoDup (group_keys s).
Proof. apply sorted_NoDup, group_keys_sorted. Qed.

(** ** Group-by-sum *)

Lemma groupby_sum_Ok (lib : Library) (d : DataFrame) (key value : string) :
  In key (columns d) -> In value (columns d) ->
  exists ki vi,
    col d key = Ok ki /\ col d value = Ok vi /\
    groupby_sum lib d key value
      = Ok (map (fun k => (k, group_sum lib (known (map (at_col vi) (group_rows ki k d)))))
                (group_keys (map (at_col ki) (rows d)))).
Proof.
  intros Hk Hv. destruct (col_In d key Hk) as [ki Ek].
  destruct (col_In d value Hv) as [vi Ev].
  exists ki, vi. unfold groupby_sum. now rewrite Ek, Ev.
Qed.


Lemma project_cost_is_group_by_sum (lib : Library) (view : DataFrame) :
  project_cost lib view = group_by_sum_desc lib view "Project".
Proof. reflexivity. Qed.

Lemma dept_untagged_is_group_by_sum (lib : Library) (view : DataFrame) :
  dept_untagged lib view
  = (no <- where_eq view "Tagged" "No" ;; group_by_sum_desc lib no "Department").
Proof. reflexivity. Qed.




(** ** Conservation of cost under grouping *)






Lemma flat_map_insert_absent {A : Type} (k0 : string) (x : A)
  (group : string -> list A) (ks : list string) :
  ~ In k0 ks ->
  flat_map (fun k => if String.eqb k0 k then x :: group k else group k) ks
  = flat_map group ks.
Proof.
  induction ks as [|k ks IH]; simpl; intros Hnin; [reflexivity|].
  destruct (String.eqb_spec k0 k) as [->|Hne].
  - exfalso. apply Hnin. now left.
  - rewrite IH; [reflexivity|]. intros Hin. apply Hnin. now right.
Qed.

Lemma flat_map_insert_present {A : Type} (k0 : string) (x : A)
  (group : string -> list A) (ks : list string) :
  NoDup ks -> In k0 ks ->
  Permutation
    (flat_map (fun k => if String.eqb k0 k then x :: group k else group k) ks)
    (x :: flat_map group ks).
Proof.
  induction 1 as [|k ks Hnin Hnd IH]; simpl; intros Hin; [contradiction|].
  destruct (String.eqb_spec k0 k) as [->|Hne].
  - rewrite flat_map_insert_absent by assumption. reflexivity.
  - destruct Hin as [->|Hin]; [contradiction|].
    eapply Permutation_trans; [apply Permutation_app_head, IH, Hin|].
    symmetry. apply Permutation_middle.
Qed.

(** Over distinct keys that cover the keys of the rows, every row stands
    in one group: the groups, one after the other, are the rows in
    another order. *)
Lemma groups_partition_rows (ki : nat) (ks : list string) (rs : list (list cell)) :
  NoDup ks ->
  (forall r, In r rs -> exists k, at_col ki r = Str k /\ In k ks) ->
  Permutation (flat_map (fun k => filter (fun r => eq_str (at_col ki r) k) rs) ks) rs.
Proof.
  intros Hnd. induction rs as [|r rs IH]; intros Hkeys.
  - clear. induction ks as [|k ks IH]; simpl; [constructor | exact IH].
  - destruct (Hkeys r) as [k0 [Ek Hin]]; [now left|].
    rewrite (flat_map_ext _
               (fun k => if String.eqb k0 k
                         then r :: filter (fun r => eq_str (at_col ki r) k) rs
                         else filter (fun r => eq_str (at_col ki r) k) rs)).
    + eapply Permutation_trans; [now apply flat_map_insert_present|].
      constructor. apply IH. intros r' Hr'. apply Hkeys. now right.
    + intros k. cbn [filter]. rewrite Ek. reflexivity.
Qed.

Lemma key_cells_are_text (d : DataFrame) (key : string) (ki : nat) :
  text_outside_cost d -> col d key = Ok ki -> key <> "MonthlyCostUSD" ->
  forall r, In r (rows d) ->
    exists k, at_col ki r = Str k /\ In k (group_keys (map (at_col ki) (rows d))).
Proof.
  intros Htext Ek Hne r Hr. apply col_Ok in Ek.
  destruct (Htext r ki key Hr Ek Hne) as [k Hk].
  exists k. assert (E : at_col ki r = Str k) by now apply nth_error_nth.
  split; [assumption|]. apply group_keys_In. rewrite <- E. now apply in_map.
Qed.

Section Conservation.

Variable to_numeric : string -> option float.
Variable lib : Library.


End Conservation.



(** ** The aggregations and the session *)

Lemma seq_eval {A B : Type} (f : DataFrame -> result A) (k : A -> Script B)
  (s : Session) (a : A) :
  f (filtered_df s) = Ok a -> seq_script (eval f) k s = k a s.
Proof. intros H. unfold seq_script, eval. now rewrite H. Qed.

Lemma mapM_Ok {A B : Type} (f : A -> result B) (l : list A) :
  (forall a, In a l -> exists b, f a = Ok b) -> exists bs, mapM f l = Ok bs.
Proof.
  induction l as [|a l IH]; simpl; intros H; [eauto|].
  destruct (H a) as [b Eb]; [now left|].
  destruct IH as [bs Ebs]; [intros x Hx; apply H; now right|].
  rewrite Eb, Ebs. simpl. eauto.
Qed.

Lemma py_div_nonzero (a n : nat) :
  0 < n -> py_div a n = Ok (of_nat a / of_nat n)%float.
Proof.
  intros Hn. unfold py_div. destruct (Nat.eqb_spec n 0); [lia | reflexivity].
Qed.

(** Assigning a column under a new label appends it: the labels gain the
    new one at the end and every row keeps its cells in front of the new
    one. *)
Lemma set_column_fresh (d : DataFrame) (label : string) (values : list cell) :
  ~ In label (columns d) -> rectangular d -> List.length values = len d ->
  columns (set_column d label values) = columns d ++ [label] /\
  map (firstn (List.length (columns d))) (rows (set_column d label values))
    = rows d /\
  map (fun r => at_col (List.length (columns d)) r) (rows (set_column d label values))
    = values.
Proof.
  intros Hnin Hrect Hlen. unfold set_column.
  rewrite (positions_absent _ _ Hnin). cbn [columns rows].
  split; [reflexivity|]. unfold rectangular, len in *.
  revert values Hlen.
  induction Hrect as [|r rs Hr _ IH]; intros [|v vs] Hlen; simpl in *;
    try discriminate; [split; reflexivity|].
  destruct (IH vs) as [IH1 IH2]; [lia|]. split.
  - rewrite IH1. f_equal. rewrite <- Hr.
    rewrite firstn_app, firstn_all, Nat.sub_diag. simpl. apply app_nil_r.
  - rewrite IH2. f_equal. unfold at_col. rewrite <- Hr.
    rewrite app_nth2, Nat.sub_diag by lia. reflexivity.
Qed.

(** Assigning a column under a label the frame has keeps the labels and
    the length of every row. *)
Lemma set_column_in_place (d : DataFrame) (label : string) (values : list cell) :
  In label (columns d) -> rectangular d ->
  columns (set_column d label values) = columns d /\
  rectangular (set_column d label values).
Proof.
  intros Hin Hrect. unfold set_column, rectangular in *.
  destruct (positions_In _ _ Hin) as [i [ps E]]. rewrite E. cbn [columns rows].
  split; [reflexivity|]. rewrite Forall_map. apply Forall_forall.
  intros [r v] Hrv. cbn [fst snd]. rewrite update_at_length.
  rewrite Forall_forall in Hrect. apply Hrect. eapply in_combine_l; eassumption.
Qed.

Lemma counts_Ok (view : DataFrame) (v : string) :
  In "Tagged" (columns view) -> exists d, where_eq view "Tagged" v = Ok d /\
                                          columns d = columns view /\
                                          len d <= len view.
Proof.
  intros Hin. destruct (col_In view "Tagged" Hin) as [t Et].
  unfold where_eq. rewrite Et. cbn [bind]. eexists. split; [reflexivity|].
  split; [reflexivity | apply loc_len_le].
Qed.

Lemma tagged_pct_Ok (env_df : DataFrame) :
  In "Tagged" (columns env_df) -> exists pct, tagged_pct env_df = Ok pct.
Proof.
  intros Hin. destruct (counts_Ok env_df "Yes" Hin) as [yes [E _]].
  unfold tagged_pct. rewrite E. cbn [bind].
  destruct (0 <? len env_df) eqn:G; [|eauto].
  apply Nat.ltb_lt in G. rewrite py_div_nonzero by assumption. cbn [bind]. eauto.
Qed.

Lemma env_summary_Ok (lib : Library) (view : DataFrame) :
  incl required_cols (columns view) -> exists e, env_summary lib view = Ok e.
Proof.
  intros Hreq.
  destruct (col_In view "Environment") as [e Ee];
    [apply Hreq; unfold required_cols; simpl; tauto|].
  destruct (col_In view "MonthlyCostUSD") as [c Ec];
    [apply Hreq; unfold required_cols; simpl; tauto|].
  destruct (col_In view "ResourceID") as [r Er];
    [apply Hreq; unfold required_cols; simpl; tauto|].
  unfold env_summary. rewrite Ee, Ec, Er. cbn [bind].
  apply mapM_Ok. intros env _. unfold where_eq. rewrite Ee. cbn [bind].
  destruct (tagged_pct_Ok (loc (fun r0 => eq_str (at_col e r0) env) view))
    as [pct Ep]; [apply Hreq; unfold required_cols; simpl; tauto|].
  rewrite Ep. cbn [bind]. eauto.
Qed.

(** On a view with rows that passed the schema check every aggregate
    before the score is defined. *)
Lemma first_aggregates_Ok (lib : Library) (view : DataFrame) :
  incl required_cols (columns view) -> rows view <> [] ->
  (exists n, tagged_count view = Ok n) /\
  (exists n, untagged_count view = Ok n) /\
  (exists q, tagged_pct_metric view = Ok q) /\
  (exists q, untagged_pct view = Ok q) /\
  (exists q, total_cost lib view = Ok q) /\
  (exists q, tagged_cost lib view = Ok q) /\
  (exists q, untagged_cost lib view = Ok q) /\
  (exists q, untagged_cost_pct lib view = Ok q) /\
  (exists g, dept_untagged lib view = Ok g) /\
  (exists g, project_cost lib view = Ok g) /\
  (exists e, env_summary lib view = Ok e).
Proof.
  intros Hreq Hrows.
  assert (Ht : In "Tagged" (columns view))
    by (apply Hreq; unfold required_cols; simpl; tauto).
  assert (Hc : In "MonthlyCostUSD" (columns view))
    by (apply Hreq; unfold required_cols; simpl; tauto).
  assert (Hd : In "Department" (columns view))
    by (apply Hreq; unfold required_cols; simpl; tauto).
  assert (Hp : In "Project" (columns view))
    by (apply Hreq; unfold required_cols; simpl; tauto).
  assert (Hlen : 0 < len view).
  { unfold len. destruct (rows view); [contradiction | simpl; lia]. }
  destruct (counts_Ok view "Yes" Ht) as [yes [Ey [Cy _]]].
  destruct (counts_Ok view "No" Ht) as [no [En [Cn _]]].
  destruct (col_In view "MonthlyCostUSD" Hc) as [c Ec].
  assert (Ecy : col yes "MonthlyCostUSD" = Ok c) by (unfold col; now rewrite Cy).
  assert (Ecn : col no "MonthlyCostUSD" = Ok c) by (unfold col; now rewrite Cn).
  unfold tagged_pct_metric, untagged_pct, tagged_count, untagged_count,
    untagged_cost_pct, tagged_cost, untagged_cost, total_cost, series,
    dept_untagged, project_cost.
  rewrite Ey, En, Ec. cbn [bind]. rewrite Ecy, Ecn. cbn [bind].
  rewrite !py_div_nonzero by assumption. cbn [bind].
  apply Nat.ltb_lt in Hlen. rewrite Hlen. cbn [bind].
  destruct (groupby_sum_Ok lib no "Department" "MonthlyCostUSD")
    as [ki [vi [_ [_ Eg]]]]; [now rewrite Cn | now rewrite Cn |].
  destruct (groupby_sum_Ok lib view "Project" "MonthlyCostUSD" Hp Hc)
    as [ki' [vi' [_ [_ Eg']]]].
  rewrite Eg, Eg'. cbn [bind].
  repeat (split; [eauto|]). now apply env_summary_Ok.
Qed.

Lemma seq_assign {B : Type} (label : string) (values : list cell)
  (k : unit -> Script B) (s : Session) :
  seq_script (assign_column label values) k s
  = k tt (mkSession (df s) (set_column (filtered_df s) label values)).
Proof. reflexivity. Qed.

Lemma NoDup_snoc {A : Type} (l : list A) (x : A) :
  NoDup l -> ~ In x l -> NoDup (l ++ [x]).
Proof.
  intros Hnd Hnin. apply NoDup_rev in Hnd.
  rewrite <- (rev_involutive (l ++ [x])). apply NoDup_rev.
  rewrite rev_app_distr. simpl. constructor; [|assumption].
  intros Hin. apply Hnin. now apply in_rev.
Qed.

Lemma aggregations_stop_on_empty (lib : Library) (d view : DataFrame) :
  In "Tagged" (columns view) -> rows view = [] ->
  aggregations lib (mkSession d view) = Raise ZeroDivisionError.
Proof.
  intros Hin Hrows.
  destruct (counts_Ok view "Yes" Hin) as [yes [Ey _]].
  destruct (counts_Ok view "No" Hin) as [no [En _]].
  unfold aggregations.
  erewrite seq_eval by reflexivity.
  erewrite seq_eval by reflexivity.
  erewrite seq_eval by (cbn [filtered_df]; unfold tagged_count; rewrite Ey; reflexivity).
  erewrite seq_eval by (cbn [filtered_df]; unfold untagged_count; rewrite En; reflexivity).
  apply seq_eval_raise. cbn [filtered_df]. now apply tagged_pct_metric_on_empty.
Qed.

(** On a view with rows and distinct labels that passed the schema check
    the aggregations run to their end, whether or not the view already
    has a score column, and leave the view with the scores assigned. *)
Lemma aggregations_run (lib : Library) (d view : DataFrame) :
  NoDup (columns view) -> incl required_cols (columns view) -> rows view <> [] ->
  exists report after,
    aggregations lib (mkSession d view) = Ok (report, mkSession d after) /\
    shown_total report = len view /\
    tagged_count view = Ok (shown_tagged_count report) /\
    untagged_count view = Ok (shown_untagged_count report) /\
    total_cost lib view = Ok (shown_total_cost report) /\
    len after = len view /\
    exists scores,
      TagCompletenessScore view = Ok scores /\
      after = set_column view "TagCompletenessScore" (score_cells scores) /\
      (rectangular view ->
       shown_avg_completeness report = mean (score_cells scores) /\
       shown_fully_tagged report = count_eq_num (score_cells scores) 5 /\
       shown_poorly_tagged report = count_lt_num (score_cells scores) 3).
Proof.
  intros Hnd Hmiss Hrows.
  destruct (first_aggregates_Ok lib view Hmiss Hrows)
    as [[a1 E1] [[a2 E2] [[a3 E3] [[a4 E4] [[a5 E5] [[a6 E6] [[a7 E7]
       [[a8 E8] [[a9 E9] [[a10 E10] [a11 E11]]]]]]]]]]].
  assert (Htags : incl tag_columns (columns view)).
  { intros l Hl. apply Hmiss. revert l Hl. apply all_among_incl. reflexivity. }
  destruct (select_distinct view tag_columns Hnd Htags) as [idx [_ Esel]].
  set (scores := map (fun r => List.length (filter notna r))
                     (map (at_cols idx) (rows view))).
  assert (Escore : TagCompletenessScore view = Ok scores).
  { unfold TagCompletenessScore. now rewrite Esel. }
  set (after := set_column view "TagCompletenessScore" (score_cells scores)).
  destruct (set_column_labels view "TagCompletenessScore" (score_cells scores))
    as [Hold Hnew]. fold after in Hold, Hnew.
  assert (Hin : forall l, In l (columns view) -> In l (columns after)).
  { intros l Hl.
    destruct (in_dec string_dec "TagCompletenessScore" (columns view)) as [H|H].
    - now rewrite (Hold H).
    - rewrite (Hnew H). apply in_or_app. now left. }
  assert (Hnd' : NoDup (columns after)).
  { destruct (in_dec string_dec "TagCompletenessScore" (columns view)) as [H|H].
    - now rewrite (Hold H).
    - rewrite (Hnew H). now apply NoDup_snoc. }
  destruct (col_In after "TagCompletenessScore") as [ci Eci].
  { destruct (in_dec string_dec "TagCompletenessScore" (columns view)) as [H|H].
    - now rewrite (Hold H).
    - rewrite (Hnew H). apply in_or_app. right. now left. }
  assert (Eseries : series after "TagCompletenessScore"
                    = Ok (map (at_col ci) (rows after))).
  { unfold series. now rewrite Eci. }
  destruct (select_distinct after tag_columns Hnd') as [idx' [_ Esel']].
  { intros l Hl. apply Hin. now apply Htags. }
  assert (Ecost : In "MonthlyCostUSD" (columns after)).
  { apply Hin, Hmiss. unfold required_cols. simpl. tauto. }
  destruct (groupby_sum_Ok lib after "Service" "MonthlyCostUSD")
    as [k1 [v1 [_ [_ Eg1]]]];
    [apply Hin, Hmiss; unfold required_cols; simpl; tauto | assumption |].
  destruct (groupby_sum_Ok lib after "Environment" "MonthlyCostUSD")
    as [k2 [v2 [_ [_ Eg2]]]];
    [apply Hin, Hmiss; unfold required_cols; simpl; tauto | assumption |].
  assert (Hlen : len after = len view).
  { unfold after, set_column, len, score_cells, scores.
    destruct (positions "TagCompletenessScore" (columns view)); cbn [rows];
      rewrite length_map, length_combine, !length_map; lia. }
  eexists. exists after. split.
  - unfold aggregations.
    erewrite seq_eval by reflexivity.
    erewrite seq_eval by reflexivity.
    erewrite seq_eval by exact E1.
    erewrite seq_eval by exact E2.
    erewrite seq_eval by exact E3.
    erewrite seq_eval by exact E4.
    erewrite seq_eval by exact E5.
    erewrite seq_eval by exact E6.
    erewrite seq_eval by exact E7.
    erewrite seq_eval by exact E8.
    erewrite seq_eval by exact E9.
    erewrite seq_eval by exact E10.
    erewrite seq_eval by exact E11.
    erewrite seq_eval by exact Escore.
    rewrite seq_assign. cbn [filtered_df df]. fold after.
    erewrite seq_eval by (cbn [filtered_df]; exact Eseries).
    erewrite seq_eval
      by (cbn [filtered_df]; unfold missing_tags; rewrite Esel'; reflexivity).
    erewrite seq_eval
      by (cbn [filtered_df]; unfold service_cost; rewrite Eg1; reflexivity).
    erewrite seq_eval by (cbn [filtered_df]; unfold env_cost; exact Eg2).
    unfold ret. cbn [df]. reflexivity.
  - cbn [shown_total shown_tagged_count shown_untagged_count shown_total_cost
         shown_avg_completeness shown_fully_tagged shown_poorly_tagged].
    repeat (split; [assumption || reflexivity|]).
    exists scores. split; [exact Escore|]. split; [reflexivity|]. intros Hrect.
    assert (Hsc : List.length (score_cells scores) = len view).
    { unfold score_cells, scores, len. now rewrite !length_map. }
    destruct (set_column_series view "TagCompletenessScore" _ Hrect Hsc)
      as [Hback _].
    fold after in Hback. rewrite Eseries in Hback. inversion Hback as [Hcol].
    rewrite Hcol. repeat split; reflexivity.
Qed.

(** C4, as the code has it: on a view with rows that passed the schema
    check the aggregations of Task Sets 1 to 4 all run, they leave the
    canonical dataset as it was, and they leave the filtered view with
    its rows in their order and every cell of every column other than
    TagCompletenessScore unchanged; but Task 3.1 stores the completeness
    score in the view itself, in the column TagCompletenessScore.  A view
    without a column of that name gains it, appended after the others; in
    a view that has one, which the schema check lets through, the labels
    stay and the cells of that column are overwritten by the scores. *)
Theorem aggregations_store_the_score_column (lib : Library) (s : Session) :
  NoDup (columns (filtered_df s)) ->
  missing_cols (filtered_df s) = [] ->
  rows (filtered_df s) <> [] ->
  rectangular (filtered_df s) ->
  exists report scores after,
    TagCompletenessScore (filtered_df s) = Ok scores /\
    after = set_column (filtered_df s) "TagCompletenessScore" (score_cells scores) /\
    aggregations lib s = Ok (report, mkSession (df s) after) /\
    len after = len (filtered_df s) /\
    series after "TagCompletenessScore" = Ok (score_cells scores) /\
    (forall other, other <> "TagCompletenessScore" ->
       series after other = series (filtered_df s) other) /\
    (~ In "TagCompletenessScore" (columns (filtered_df s)) ->
     columns after = columns (filtered_df s) ++ ["TagCompletenessScore"] /\
     map (firstn (List.length (columns (filtered_df s)))) (rows after)
       = rows (filtered_df s) /\
     map (at_col (List.length (columns (filtered_df s)))) (rows after)
       = score_cells scores) /\
    (In "TagCompletenessScore" (columns (filtered_df s)) ->
     columns after = columns (filtered_df s) /\ rectangular after).
Proof.
  intros Hnd Hmiss Hrows Hrect.
  apply missing_cols_nil in Hmiss.
  destruct s as [d view]. cbn [filtered_df df] in *.
  destruct (aggregations_run lib d view Hnd Hmiss Hrows)
    as [report [after [Erun [_ [_ [_ [_ [_ [scores [Es [Eafter _]]]]]]]]]]].
  exists report, scores, after.
  split; [exact Es|]. split; [exact Eafter|]. split; [exact Erun|].
  assert (Hlen : List.length (score_cells scores) = len view).
  { unfold TagCompletenessScore in Es. apply bind_Ok in Es.
    destruct Es as [tags [Esel Es]]. inversion Es; subst scores.
    unfold select in Esel. apply bind_Ok in Esel.
    destruct Esel as [idx [_ Esel]]. inversion Esel; subst tags.
    unfold score_cells, len. cbn [rows]. now rewrite !length_map. }
  destruct (set_column_series view "TagCompletenessScore" _ Hrect Hlen)
    as [Hback [Hsame Hothers]].
  rewrite <- Eafter in Hback, Hsame, Hothers.
  split; [exact Hsame|]. split; [exact Hback|]. split; [exact Hothers|].
  split.
  - intros Hfresh. rewrite Eafter.
    now apply set_column_fresh.
  - intros Hin. rewrite Eafter. now apply set_column_in_place.
Qed.

Lemma aggregations_store_the_score_column_witness :
  let d := Sample.loaded Sample.three_records in
  let lib := in_file_order in
  exists report scores after,
    TagCompletenessScore d = Ok scores /\
    after = set_column d "TagCompletenessScore" (score_cells scores) /\
    aggregations lib (mkSession d d) = Ok (report, mkSession d after) /\
    len after = len d /\
    series after "TagCompletenessScore" = Ok (score_cells scores) /\
    (forall other, other <> "TagCompletenessScore" ->
       series after other = series d other) /\
    (~ In "TagCompletenessScore" (columns d) ->
     columns after = columns d ++ ["TagCompletenessScore"] /\
     map (firstn (List.length (columns d))) (rows after) = rows d /\
     map (at_col (List.length (columns d))) (rows after) = score_cells scores) /\
    (In "TagCompletenessScore" (columns d) ->
     columns after = columns d /\ rectangular after).
Proof.
  intros d lib.
  apply (aggregations_store_the_score_column lib (mkSession d d)).
  - apply distinct_NoDup. vm_compute. reflexivity.
  - vm_compute. reflexivity.
  - vm_compute. intros H. discriminate H.
  - vm_compute. repeat constructor.
Defined.

(** C4 as the specification words it fails: after the aggregations of the
    page on the three sample records the filtered view has thirteen
    columns where it had twelve, and its rows are one cell longer.  And
    on a file that brings a column TagCompletenessScore of its own the
    view keeps its thirteen columns, but the cells of that column, the
    text of the file before, are the scores after. *)
Lemma aggregations_change_the_filtered_view :
  let d := Sample.loaded Sample.three_records in
  let scored := Sample.loaded Sample.scored_records in
  apply_filters d default_selections = Ok d /\
  (exists report after,
     aggregations in_file_order (mkSession d d) = Ok (report, mkSession d after) /\
     List.length (columns d) = 12 /\
     List.length (columns after) = 13 /\
     In "TagCompletenessScore" (columns after) /\
     columns after <> columns d /\
     rows after <> rows d) /\
  missing_cols scored = [] /\
  apply_filters scored default_selections = Ok scored /\
  exists report after,
    aggregations in_file_order (mkSession scored scored)
      = Ok (report, mkSession scored after) /\
    List.length (columns scored) = 13 /\
    columns after = columns scored /\
    series scored "TagCompletenessScore" = Ok [Str "high"; Str "low"] /\
    series after "TagCompletenessScore" = Ok [Int 5; Int 5] /\
    rows after <> rows scored.
Proof.
  intros d scored. split; [vm_compute; reflexivity|]. split.
  - eexists. eexists. split; [vm_compute; reflexivity|].
    split; [reflexivity|]. split; [reflexivity|].
    split; [apply in_list_In; vm_compute; reflexivity|].
    split; vm_compute; intros H; discriminate H.
  - split; [vm_compute; reflexivity|]. split; [vm_compute; reflexivity|].
    eexists. eexists. split; [vm_compute; reflexivity|].
    split; [reflexivity|]. split; [vm_compute; reflexivity|].
    split; [vm_compute; reflexivity|]. split; [vm_compute; reflexivity|].
    vm_compute. intros H. discriminate H.
Qed.

(** * Further properties of the loader *)

Lemma split_length (sep : ascii) (s : string) :
  List.length (PyStr.split sep s) = S (count_char sep s).
Proof.
  induction s as [|a s IH]; simpl; [reflexivity|].
  destruct (Ascii.eqb a sep); simpl; [now rewrite IH|].
  destruct (PyStr.split sep s) as [|f fs]; simpl in *; [discriminate | assumption].
Qed.

Lemma count_char_remove (a c : ascii) (s : string) :
  Ascii.eqb a c = false -> count_char a (PyStr.remove c s) = count_char a s.
Proof.
  intros Hne. induction s as [|x s IH]; simpl; [reflexivity|].
  destruct (Ascii.eqb_spec x c) as [->|Hxc]; simpl.
  - rewrite IH. rewrite Ascii.eqb_sym, Hne. reflexivity.
  - now rewrite IH.
Qed.

Lemma count_char_lstrip (a : ascii) (s : string) :
  PyStr.isspace a = false -> count_char a (PyStr.lstrip s) = count_char a s.
Proof.
  intros Ha. induction s as [|x s IH]; simpl; [reflexivity|].
  destruct (PyStr.isspace x) eqn:Ex; [|reflexivity].
  rewrite IH. destruct (Ascii.eqb_spec x a) as [->|_]; [congruence | reflexivity].
Qed.

Lemma count_char_rstrip (a : ascii) (s : string) :
  PyStr.isspace a = false -> count_char a (PyStr.rstrip s) = count_char a s.
Proof.
  intros Ha. induction s as [|x s IH]; simpl; [reflexivity|].
  destruct (PyStr.rstrip s) as [|y r] eqn:Er.
  - simpl in IH. rewrite <- IH.
    destruct (PyStr.isspace x) eqn:Ex; simpl.
    + destruct (Ascii.eqb_spec x a) as [->|_]; [congruence | reflexivity].
    + lia.
  - simpl in *. now rewrite IH.
Qed.

(** X1: the loader takes a line apart at every comma, between double
    quotes or not: a line has one field more than it has commas. *)
Theorem fields_are_commas_plus_one (line : string) :
  List.length (parse_line line) = S (count_char PyStr.comma line).
Proof.
  unfold parse_line. rewrite length_map, split_length. f_equal.
  rewrite count_char_remove by reflexivity.
  unfold PyStr.strip.
  rewrite count_char_rstrip, count_char_lstrip by reflexivity. reflexivity.
Qed.

Lemma contains_count (c : ascii) (s : string) :
  contains c s = false <-> count_char c s = 0.
Proof.
  induction s as [|a s IH]; simpl; [tauto|].
  destruct (Ascii.eqb a c); simpl; [split; intros H; discriminate | exact IH].
Qed.

Lemma contains_remove (c : ascii) (s : string) :
  contains c (PyStr.remove c s) = false.
Proof.
  induction s as [|a s IH]; simpl; [reflexivity|].
  destruct (Ascii.eqb a c) eqn:E; simpl; [assumption | now rewrite E].
Qed.

Lemma contains_lstrip (c : ascii) (s : string) :
  contains c s = false -> contains c (PyStr.lstrip s) = false.
Proof.
  induction s as [|a s IH]; simpl; [auto|]. intros H.
  apply orb_false_iff in H. destruct H as [Ha Hs].
  destruct (PyStr.isspace a); [now apply IH | simpl; now rewrite Ha, Hs].
Qed.

Lemma contains_rstrip (c : ascii) (s : string) :
  contains c s = false -> contains c (PyStr.rstrip s) = false.
Proof.
  induction s as [|a s IH]; simpl; [auto|]. intros H.
  apply orb_false_iff in H. destruct H as [Ha Hs]. specialize (IH Hs).
  destruct (PyStr.rstrip s) as [|y r].
  - destruct (PyStr.isspace a); simpl; [reflexivity | now rewrite Ha].
  - simpl in *. now rewrite Ha, IH.
Qed.

Lemma contains_strip (c : ascii) (s : string) :
  contains c s = false -> contains c (PyStr.strip s) = false.
Proof. intros H. now apply contains_rstrip, contains_lstrip. Qed.

(** No field of a split holds the separator, and a field holds no
    character the string does not hold. *)
Lemma split_fields (sep c : ascii) (s : string) :
  Forall (fun f => contains sep f = false /\
                   (contains c s = false -> contains c f = false))
         (PyStr.split sep s).
Proof.
  induction s as [|a s IH]; simpl.
  - repeat constructor.
  - destruct (Ascii.eqb a sep) eqn:E.
    + constructor; [split; [reflexivity | reflexivity]|].
      eapply Forall_impl; [|exact IH]. intros f [H1 H2]. split; [assumption|].
      intros H. apply orb_false_iff in H. tauto.
    + destruct (PyStr.split sep s) as [|f fs]; [repeat constructor|].
      * simpl. now rewrite E.
      * simpl. intros H. apply orb_false_iff in H. destruct H as [Ha _].
        now rewrite Ha.
      * inversion IH as [|? ? [H1 H2] Hfs]; subst. constructor.
        -- split; [simpl; now rewrite E, H1|].
           intros H. apply orb_false_iff in H. destruct H as [Ha Hs].
           simpl. now rewrite Ha, H2.
        -- eapply Forall_impl; [|exact Hfs]. intros g [G1 G2].
           split; [assumption|]. intros H. apply orb_false_iff in H. tauto.
Qed.

Lemma lstrip_cases (s : string) :
  PyStr.lstrip s = EmptyString \/
  exists c t, PyStr.lstrip s = String c t /\ PyStr.isspace c = false.
Proof.
  induction s as [|a s IH]; simpl; [now left|].
  destruct (PyStr.isspace a) eqn:E; [assumption | right; eauto].
Qed.

Lemma rstrip_head (c : ascii) (t : string) :
  PyStr.isspace c = false -> PyStr.rstrip (String c t) = String c (PyStr.rstrip t).
Proof.
  intros H. simpl. destruct (PyStr.rstrip t); [now rewrite H | reflexivity].
Qed.

Lemma rstrip_idempotent (s : string) :
  PyStr.rstrip (PyStr.rstrip s) = PyStr.rstrip s.
Proof.
  induction s as [|a s IH]; simpl; [reflexivity|].
  destruct (PyStr.rstrip s) as [|y r] eqn:Er.
  - destruct (PyStr.isspace a) eqn:Ea; simpl; [reflexivity | now rewrite Ea].
  - change (PyStr.rstrip (String a (String y r)) = String a (String y r)).
    simpl PyStr.rstrip at 1. simpl in IH. rewrite IH. reflexivity.
Qed.

Lemma strip_idempotent (s : string) : PyStr.strip (PyStr.strip s) = PyStr.strip s.
Proof.
  unfold PyStr.strip. destruct (lstrip_cases s) as [E|[c [t [E Hc]]]]; rewrite E.
  - reflexivity.
  - rewrite (rstrip_head _ _ Hc). simpl PyStr.lstrip. rewrite Hc.
    rewrite <- (rstrip_head _ _ Hc). apply rstrip_idempotent.
Qed.

Lemma parse_line_clean (line : string) : Forall clean_text (parse_line line).
Proof.
  unfold parse_line. rewrite Forall_map.
  eapply Forall_impl;
    [|apply (split_fields PyStr.comma PyStr.dquote
               (PyStr.remove PyStr.dquote (PyStr.strip line)))].
  intros f [H1 H2]. repeat split.
  - now apply contains_strip.
  - apply contains_strip, H2, contains_remove.
  - apply strip_idempotent.
Qed.

Section LoadedText.

Variable to_numeric : string -> option float.

(** X2: whatever the file holds, the labels of a loaded frame and the
    text of its cells hold no comma and no double quote and have no white
    space at either end. *)
Theorem loaded_text_is_clean (lines : list string) (d : DataFrame) :
  load_data to_numeric lines = Ok d ->
  Forall clean_text (columns d) /\
  forall r s, In r (rows d) -> In (Str s) r -> clean_text s.
Proof.
  intros H. destruct (load_data_Ok _ _ _ H) as [h [rest [i [_ [_ ->]]]]].
  cbn [columns rows]. split; [apply parse_line_clean|].
  intros r s Hr Hs. apply in_map_iff in Hr. destruct Hr as [fields [<- Hf]].
  assert (Hclean : Forall clean_text fields).
  { rewrite data_rows_accepted in Hf. apply in_map_iff in Hf.
    destruct Hf as [l [<- _]]. apply parse_line_clean. }
  assert (Hcells : forall (cells : list cell) j,
             (forall x, In (Str x) cells -> clean_text x) ->
             forall x, In (Str x) (update_at j (coerce to_numeric) cells) ->
                       clean_text x).
  { induction cells as [|c cells IH]; intros [|j] Hall x Hx; simpl in Hx;
      try contradiction.
    - destruct Hx as [Hx|Hx]; [|apply Hall; now right].
      destruct c as [y|q|n|]; simpl in Hx; try discriminate.
      destruct (to_numeric y); discriminate.
    - destruct Hx as [Hx|Hx]; [apply Hall; now left|].
      eapply IH; [|exact Hx]. intros y Hy. apply Hall. now right. }
  eapply Hcells; [|exact Hs].
  intros x Hx. apply in_map_iff in Hx. destruct Hx as [f [Ef Hin]].
  inversion Ef; subst. rewrite Forall_forall in Hclean. now apply Hclean.
Qed.

End LoadedText.

Lemma loaded_text_is_clean_witness :
  let d := Sample.loaded Sample.three_records_damaged in
  Forall clean_text (columns d) /\
  forall r s, In r (rows d) -> In (Str s) r -> clean_text s.
Proof.
  intros d.
  apply (loaded_text_is_clean Decimal.to_numeric Sample.three_records_damaged d).
  vm_compute. reflexivity.
Defined.

Section LoadedCosts.

Variable to_numeric : string -> option float.
Variable lib : Library.

(** X3: in a loaded frame the cost column holds numbers and nulls, never
    text: each cost is the number its field denotes, null when the field
    is not numeric; and what the total cost of the frame hands to the
    sum is, for every accepted line in file order, the number its cost
    field denotes, a field that is not numeric counting for zero. *)
Theorem loaded_costs_are_numbers_or_null
  (header_line : string) (rest : list string) (d : DataFrame) :
  load_data to_numeric (header_line :: rest) = Ok d ->
  exists i,
    col d "MonthlyCostUSD" = Ok i /\
    (forall r, In r (rows d) ->
       at_col i r = NA \/ exists q, at_col i r = Num q) /\
    series d "MonthlyCostUSD"
      = Ok (map (fun fields => coerce to_numeric (Str (nth i fields EmptyString)))
                (data_rows (List.length (parse_line header_line)) rest)) /\
    total_cost lib d
      = Ok (np_sum lib (map (cost_of_fields to_numeric i)
                            (data_rows (List.length (parse_line header_line)) rest))).
Proof.
  intros H. destruct (load_data_Ok _ _ _ H) as [h [rest' [i [E [Hp ->]]]]].
  inversion E; subst h rest'. clear E. exists i.
  assert (Hcol : col (mkDF (parse_line header_line)
                      (map (fun r => update_at i (coerce to_numeric) (map Str r))
                           (data_rows (List.length (parse_line header_line)) rest)))
                     "MonthlyCostUSD" = Ok i).
  { unfold col. cbn [columns]. now rewrite Hp. }
  assert (Hi : i < List.length (parse_line header_line)).
  { apply (positions_bound "MonthlyCostUSD"). rewrite Hp. now left. }
  assert (Hcell : forall fields,
             In fields (data_rows (List.length (parse_line header_line)) rest) ->
             at_col i (update_at i (coerce to_numeric) (map Str fields))
             = coerce to_numeric (Str (nth i fields EmptyString))).
  { intros fields Hf.
    pose proof (data_rows_width (List.length (parse_line header_line)) rest) as Hw.
    rewrite Forall_forall in Hw. specialize (Hw fields Hf).
    unfold at_col. rewrite update_at_same by (rewrite length_map; lia).
    f_equal. rewrite (nth_indep _ NA (Str EmptyString))
      by (rewrite length_map; lia).
    apply map_nth. }
  split; [exact Hcol|]. split; [|split].
  - intros r Hr. cbn [rows] in Hr. apply in_map_iff in Hr.
    destruct Hr as [fields [<- Hf]]. rewrite (Hcell fields Hf). simpl.
    destruct (to_numeric (nth i fields EmptyString)); eauto.
  - unfold series. rewrite Hcol. cbn [bind rows]. f_equal.
    rewrite map_map. apply map_ext_in. exact Hcell.
  - unfold total_cost, series, nansum. rewrite Hcol. cbn [bind rows]. f_equal.
    f_equal. rewrite !map_map. apply map_ext_in. intros fields Hf.
    rewrite (Hcell fields Hf). unfold cost_of_fields, fillna0. cbn [coerce].
    destruct (to_numeric (nth i fields EmptyString)) as [x|]; reflexivity.
Qed.

End LoadedCosts.

Lemma loaded_costs_are_numbers_or_null_witness :
  let d := Sample.loaded Sample.three_records in
  exists i,
    col d "MonthlyCostUSD" = Ok i /\
    (forall r, In r (rows d) ->
       at_col i r = NA \/ exists q, at_col i r = Num q) /\
    series d "MonthlyCostUSD"
      = Ok (map (fun fields =>
                   coerce Decimal.to_numeric (Str (nth i fields EmptyString)))
                (data_rows (List.length (parse_line (Sample.line Sample.header)))
                           (tl Sample.three_records))) /\
    total_cost in_file_order d
      = Ok (np_sum in_file_order
              (map (cost_of_fields Decimal.to_numeric i)
                   (data_rows (List.length (parse_line (Sample.line Sample.header)))
                              (tl Sample.three_records)))).
Proof.
  intros d.
  apply (loaded_costs_are_numbers_or_null Decimal.to_numeric in_file_order
           (Sample.line Sample.header) (tl Sample.three_records) d).
  vm_compute. reflexivity.
Defined.

Section LoadedRows.

Variable to_numeric : string -> option float.

(** X4: records are kept in file order and none is merged with another:
    a file whose data lines are those of one file followed by those of a
    second, under the same header, loads to the rows of the first
    followed by the rows of the second; so a file that repeats its lines
    loads every record twice. *)
Theorem load_keeps_every_record
  (header_line : string) (lines1 lines2 : list string) (d1 d2 : DataFrame) :
  load_data to_numeric (header_line :: lines1) = Ok d1 ->
  load_data to_numeric (header_line :: lines2) = Ok d2 ->
  load_data to_numeric (header_line :: lines1 ++ lines2)
    = Ok (mkDF (columns d1) (rows d1 ++ rows d2)) /\
  columns d2 = columns d1 /\
  len (mkDF (columns d1) (rows d1 ++ rows d2)) = len d1 + len d2.
Proof.
  intros H1 H2.
  destruct (load_data_Ok _ _ _ H1) as [h [r1 [i [E1 [Hp1 ->]]]]].
  destruct (load_data_Ok _ _ _ H2) as [h' [r2 [j [E2 [Hp2 ->]]]]].
  inversion E1; subst h r1. inversion E2; subst h' r2.
  assert (j = i) by congruence. subst j.
  cbn [columns rows]. split; [|split].
  - unfold load_data. rewrite Hp1. cbn [rows].
    now rewrite data_rows_app, !map_app, !map_map.
  - reflexivity.
  - unfold len. cbn [rows]. apply length_app.
Qed.

(** X5: how a load ends.  An empty file has no header line to read: an
    IndexError.  Under a header that does not name the cost column the
    load stops on a KeyError, under one that names it more than once on a
    TypeError.  Under a header that names it once the load succeeds, with
    the header's fields as labels and one row for every line that is not
    blank and has as many fields as the header. *)
Theorem load_outcomes (header_line : string) (rest : list string) :
  load_data to_numeric [] = Raise IndexError /\
  (count_occ string_dec (parse_line header_line) "MonthlyCostUSD" = 0 ->
   load_data to_numeric (header_line :: rest) = Raise (KeyError "MonthlyCostUSD")) /\
  (2 <= count_occ string_dec (parse_line header_line) "MonthlyCostUSD" ->
   load_data to_numeric (header_line :: rest) = Raise TypeError) /\
  (count_occ string_dec (parse_line header_line) "MonthlyCostUSD" = 1 ->
   exists d,
     load_data to_numeric (header_line :: rest) = Ok d /\
     columns d = parse_line header_line /\
     len d = List.length
               (filter (accepted (List.length (parse_line header_line))) rest)).
Proof.
  split; [reflexivity|].
  rewrite <- positions_length. unfold load_data.
  destruct (positions "MonthlyCostUSD" (parse_line header_line))
    as [|i [|j ps]]; simpl List.length.
  - split; [reflexivity|]. split; intros H; [lia | discriminate].
  - split; [intros H; discriminate|]. split; [intros H; lia|]. intros _.
    eexists. split; [reflexivity|]. split; [reflexivity|].
    unfold len. cbn [rows]. now rewrite !length_map, data_rows_accepted, length_map.
  - split; [intros H; discriminate|]. split; [reflexivity|].
    intros H. discriminate.
Qed.

End LoadedRows.

Lemma load_keeps_every_record_witness :
  let d := Sample.loaded Sample.three_records in
  load_data Decimal.to_numeric
    (Sample.line Sample.header :: tl Sample.three_records ++ tl Sample.three_records)
    = Ok (mkDF (columns d) (rows d ++ rows d)) /\
  columns d = columns d /\
  len (mkDF (columns d) (rows d ++ rows d)) = len d + len d.
Proof.
  intros d.
  apply (load_keeps_every_record Decimal.to_numeric (Sample.line Sample.header)
           (tl Sample.three_records) (tl Sample.three_records) d d);
    vm_compute; reflexivity.
Defined.

Lemma load_outcomes_witness :
  load_data Decimal.to_numeric ["ResourceID,Tagged"; "R1,Yes"]
    = Raise (KeyError "MonthlyCostUSD") /\
  load_data Decimal.to_numeric ["MonthlyCostUSD,MonthlyCostUSD"; "1,2"]
    = Raise TypeError /\
  exists d,
    load_data Decimal.to_numeric ["ResourceID,MonthlyCostUSD"; "R1,7"; ""; "R2"]
      = Ok d /\
    columns d = parse_line "ResourceID,MonthlyCostUSD" /\
    len d = List.length
              (filter (accepted (List.length (parse_line "ResourceID,MonthlyCostUSD")))
                      ["R1,7"; ""; "R2"]).
Proof.
  split; [|split].
  - apply (proj1 (proj2 (load_outcomes Decimal.to_numeric
                           "ResourceID,Tagged" ["R1,Yes"]))).
    vm_compute. reflexivity.
  - apply (proj1 (proj2 (proj2 (load_outcomes Decimal.to_numeric
                                   "MonthlyCostUSD,MonthlyCostUSD" ["1,2"])))).
    vm_compute. repeat constructor.
  - apply (proj2 (proj2 (proj2 (load_outcomes Decimal.to_numeric
                                   "ResourceID,MonthlyCostUSD"
                                   ["R1,7"; ""; "R2"])))).
    vm_compute. reflexivity.
Defined.

(** * Further properties of the filters *)

Lemma filter_all {A : Type} (p : A -> bool) (l : list A) :
  (forall x, In x l -> p x = true) -> filter p l = l.
Proof.
  induction l as [|x l IH]; simpl; intros H; [reflexivity|].
  rewrite (H x) by now left. f_equal. apply IH. intros y Hy. apply H. now right.
Qed.

Lemma filter_twice {A : Type} (p q : A -> bool) (l : list A) :
  filter q (filter p l) = filter (fun x => p x && q x) l.
Proof.
  induction l as [|x l IH]; simpl; [reflexivity|].
  destruct (p x); simpl; [destruct (q x); now rewrite IH | assumption].
Qed.

Lemma isin_nil (c : cell) : isin c [] = false.
Proof. now destruct c. Qed.

Lemma loc_loc (p q : list cell -> bool) (d : DataFrame) :
  loc q (loc p d) = loc (fun r => p r && q r) d.
Proof. unfold loc. cbn [columns rows]. now rewrite filter_twice. Qed.

(** One filter of the block is the test [passes] on its column. *)
Lemma restrict_passes (label : string) (selected : list string)
  (view : DataFrame) (i : nat) :
  col view label = Ok i ->
  restrict label selected view
  = Ok (loc (fun r => passes selected (at_col i r)) view).
Proof.
  intros E. unfold restrict, where_isin, passes.
  destruct (in_list "All" selected); simpl.
  - f_equal. unfold loc. rewrite filter_all by reflexivity. now destruct view.
  - now rewrite E.
Qed.

Lemma apply_filters_loc (d : DataFrame) (sel : Selections) (i1 i2 i3 i4 : nat) :
  col d "Department" = Ok i1 -> col d "Service" = Ok i2 ->
  col d "Region" = Ok i3 -> col d "Environment" = Ok i4 ->
  apply_filters d sel = Ok (loc (row_passes sel i1 i2 i3 i4) d).
Proof.
  intros E1 E2 E3 E4. unfold apply_filters.
  rewrite (restrict_passes _ _ _ _ E1). cbn [bind].
  rewrite (restrict_passes _ _ _ i2) by (rewrite col_loc; exact E2). cbn [bind].
  rewrite (restrict_passes _ _ _ i3) by (rewrite !col_loc; exact E3). cbn [bind].
  rewrite (restrict_passes _ _ _ i4) by (rewrite !col_loc; exact E4).
  rewrite !loc_loc. unfold loc. cbn [columns rows]. f_equal. f_equal.
  apply filter_ext. intros r. unfold row_passes. now rewrite !andb_assoc.
Qed.

Lemma filter_columns_Ok (d : DataFrame) :
  missing_cols d = [] ->
  exists i1 i2 i3 i4,
    col d "Department" = Ok i1 /\ col d "Service" = Ok i2 /\
    col d "Region" = Ok i3 /\ col d "Environment" = Ok i4.
Proof.
  intros H. apply missing_cols_nil in H.
  destruct (col_In d "Department") as [i1 E1];
    [apply H; unfold required_cols; simpl; tauto|].
  destruct (col_In d "Service") as [i2 E2];
    [apply H; unfold required_cols; simpl; tauto|].
  destruct (col_In d "Region") as [i3 E3];
    [apply H; unfold required_cols; simpl; tauto|].
  destruct (col_In d "Environment") as [i4 E4];
    [apply H; unfold required_cols; simpl; tauto|].
  exists i1, i2, i3, i4. tauto.
Qed.

(** X6: on a dataset that passed the schema check the filter block never
    raises, and the four filters act as one conjunctive test: the view
    has the labels of the dataset and exactly the rows that pass all four
    selections, in the order of the dataset.  A row passes a selection
    when the selection holds [All] or holds the text of the row's field;
    a null field passes only [All]. *)
Theorem filters_are_conjunctive (d : DataFrame) (sel : Selections) :
  missing_cols d = [] ->
  exists i1 i2 i3 i4,
    col d "Department" = Ok i1 /\ col d "Service" = Ok i2 /\
    col d "Region" = Ok i3 /\ col d "Environment" = Ok i4 /\
    apply_filters d sel
      = Ok (mkDF (columns d) (filter (row_passes sel i1 i2 i3 i4) (rows d))) /\
    (forall selected, passes selected NA = in_list "All" selected).
Proof.
  intros H. destruct (filter_columns_Ok d H) as [i1 [i2 [i3 [i4 [E1 [E2 [E3 E4]]]]]]].
  exists i1, i2, i3, i4. repeat (split; [assumption|]).
  split; [now apply apply_filters_loc|].
  intros selected. unfold passes. simpl. apply orb_false_r.
Qed.

Lemma filters_are_conjunctive_witness :
  let d := Sample.loaded Sample.three_records in
  let sel := mkSel ["Eng"] ["All"] ["All"] ["Prod"; "Test"] in
  exists i1 i2 i3 i4,
    col d "Department" = Ok i1 /\ col d "Service" = Ok i2 /\
    col d "Region" = Ok i3 /\ col d "Environment" = Ok i4 /\
    apply_filters d sel
      = Ok (mkDF (columns d) (filter (row_passes sel i1 i2 i3 i4) (rows d))) /\
    (forall selected, passes selected NA = in_list "All" selected).
Proof.
  intros d sel. apply (filters_are_conjunctive d sel). vm_compute. reflexivity.
Defined.

(** X7: filtering a view again with the selections that produced it
    changes nothing; a view never has more rows than the dataset; and a
    field whose selection is empty leaves no row at all. *)
Theorem filters_are_idempotent (d : DataFrame) (sel : Selections) :
  missing_cols d = [] ->
  exists view,
    apply_filters d sel = Ok view /\
    apply_filters view sel = Ok view /\
    len view <= len d /\
    (selected_dept sel = [] \/ selected_service sel = [] \/
     selected_region sel = [] \/ selected_env sel = [] -> rows view = []).
Proof.
  intros H. destruct (filter_columns_Ok d H) as [i1 [i2 [i3 [i4 [E1 [E2 [E3 E4]]]]]]].
  exists (loc (row_passes sel i1 i2 i3 i4) d).
  split; [now apply apply_filters_loc|]. split; [|split].
  - rewrite (apply_filters_loc _ sel i1 i2 i3 i4) by (rewrite col_loc; assumption).
    rewrite loc_loc. unfold loc. cbn [columns rows]. f_equal. f_equal.
    apply filter_ext. intros r. apply andb_diag.
  - apply loc_len_le.
  - intros Hempty. unfold loc. cbn [rows].
    assert (Hnone : forall r, row_passes sel i1 i2 i3 i4 r = false).
    { intros r. unfold row_passes, passes.
      destruct Hempty as [-> | [-> | [-> | ->]]];
        rewrite isin_nil; cbn [in_list existsb orb];
        rewrite ?andb_false_r; reflexivity. }
    induction (rows d) as [|r rs IH]; simpl; [reflexivity|].
    now rewrite Hnone.
Qed.

Lemma filters_are_idempotent_witness :
  let d := Sample.loaded Sample.three_records in
  let sel := mkSel [] ["All"] ["All"] ["Prod"] in
  exists view,
    apply_filters d sel = Ok view /\
    apply_filters view sel = Ok view /\
    len view <= len d /\
    (selected_dept sel = [] \/ selected_service sel = [] \/
     selected_region sel = [] \/ selected_env sel = [] -> rows view = []).
Proof.
  intros d sel. apply (filters_are_idempotent d sel). vm_compute. reflexivity.
Defined.

(** * The sidebar options *)

Lemma leb_cases (a b : string) : String.leb a b = true <-> a = b \/ str_lt a b.
Proof.
  unfold String.leb, str_lt, String.ltb.
  destruct (String.compare a b) eqn:E; split; intros H; try reflexivity;
    try discriminate.
  - left. now apply String_as_OT.cmp_eq.
  - now right.
  - destruct H as [->|H]; [|discriminate].
    pose proof (proj2 (String_as_OT.cmp_eq b b) eq_refl) as E'.
    unfold String_as_OT.cmp in E'. congruence.
Qed.

Lemma leb_false_lt (a b : string) : String.leb a b = false -> str_lt b a.
Proof.
  unfold String.leb. destruct (String.compare a b) eqn:E; try discriminate.
  intros _. now apply compare_Gt_lt.
Qed.

Lemma insert_leb_In (x y : string) (l : list string) :
  In y (insert_by String.leb x l) <-> y = x \/ In y l.
Proof.
  induction l as [|z l IH]; simpl; [intuition|].
  destruct (String.leb x z); simpl; [intuition|]. rewrite IH. intuition.
Qed.

Lemma sorted_In (y : string) (l : list string) : In y (sorted l) <-> In y l.
Proof.
  unfold sorted. induction l as [|x l IH]; simpl; [tauto|].
  rewrite insert_leb_In, IH. intuition.
Qed.

Lemma insert_leb_sorted (x : string) (l : list string) :
  ~ In x l -> StronglySorted str_lt l ->
  StronglySorted str_lt (insert_by String.leb x l).
Proof.
  intros Hnin Hs. induction Hs as [|y l Hs IH Hall]; simpl.
  - repeat constructor.
  - destruct (String.leb x y) eqn:E.
    + apply leb_cases in E. destruct E as [->|Hlt]; [exfalso; apply Hnin; now left|].
      constructor; [now constructor|]. constructor; [assumption|].
      eapply Forall_impl; [|exact Hall]. intros z Hz. eapply str_lt_trans; eauto.
    + apply leb_false_lt in E. constructor.
      * apply IH. intros Hin. apply Hnin. now right.
      * apply Forall_forall. intros z Hz. apply insert_leb_In in Hz.
        destruct Hz as [->|Hz]; [assumption|].
        rewrite Forall_forall in Hall. now apply Hall.
Qed.

Lemma sorted_distinct (l : list string) :
  NoDup l -> StronglySorted str_lt (sorted l).
Proof.
  unfold sorted. induction 1 as [|x l Hnin Hnd IH]; simpl; [constructor|].
  apply insert_leb_sorted; [|assumption].
  intros Hin. apply Hnin. now apply (sorted_In x l).
Qed.

Lemma unique_text (s : list cell) : Forall is_text s -> Forall is_text (unique s).
Proof.
  induction 1 as [|c s Hc _ IH]; simpl; constructor; [assumption|].
  apply Forall_forall. intros x Hx. apply filter_In in Hx.
  rewrite Forall_forall in IH. apply IH. tauto.
Qed.

Lemma unique_In_text (v : string) (s : list cell) :
  In (Str v) (unique s) <-> In (Str v) s.
Proof.
  induction s as [|c s IH]; simpl; [tauto|].
  rewrite filter_In, IH. split.
  - intros [H|[H _]]; auto.
  - intros [H|H]; [now left|].
    destruct c as [x|q|n|]; simpl.
    + destruct (String.eqb_spec v x) as [->|Hne]; [now left | right; tauto].
    + right; tauto.
    + right; tauto.
    + right; tauto.
Qed.

Lemma images_stay_distinct {X Y : Type} (image : X -> Y) (keep : X -> bool)
  (xs : list X) (Hnd : NoDup (map image xs)) :
  NoDup (map image (filter keep xs)).
Proof.
  revert Hnd. induction xs as [|x xs IH]; simpl; intros H; [constructor|].
  inversion H as [|? ? Hnin Hnd]; subst.
  destruct (keep x); simpl; [|now apply IH].
  constructor; [|now apply IH].
  intros Hin. apply Hnin. apply in_map_iff in Hin.
  destruct Hin as [y [Ey Hy]]. apply filter_In in Hy.
  apply in_map_iff. exists y. tauto.
Qed.

Section SidebarProperties.

Variable str : cell -> string.
Hypothesis str_text : forall s, str (Str s) = s.

Lemma unique_texts_distinct (s : list cell) :
  Forall is_text s -> NoDup (map str (unique s)).
Proof.
  induction 1 as [|c s [x ->] Hs IH]; simpl; constructor.
  - rewrite in_map_iff. intros [y [Ey Hy]]. apply filter_In in Hy.
    destruct Hy as [Hy Hne].
    pose proof (unique_text s Hs) as Ht. rewrite Forall_forall in Ht.
    destruct (Ht y Hy) as [z ->]. rewrite !str_text in Ey. subst z.
    simpl in Hne. now rewrite String.eqb_refl in Hne.
  - now apply images_stay_distinct.
Qed.

(** X8: the options of a sidebar filter over a text column that is
    present are [All] followed by the values of the column, each once, in
    ascending order; and selecting every listed value restricts nothing:
    the filter returns all the rows. *)
Theorem options_list_every_value
  (dropna : bool) (df : DataFrame) (label : string) (i : nat) :
  col df label = Ok i ->
  (forall r, In r (rows df) -> is_text (at_col i r)) ->
  exists values,
    options str dropna df label = "All" :: values /\
    StronglySorted str_lt values /\
    (forall v, In v values <-> exists r, In r (rows df) /\ at_col i r = Str v) /\
    exists view,
      restrict label values df = Ok view /\
      columns view = columns df /\ rows view = rows df.
Proof.
  intros Ecol Htext.
  set (s := map (at_col i) (rows df)).
  assert (Hs : Forall is_text s).
  { unfold s. rewrite Forall_map. apply Forall_forall. exact Htext. }
  assert (Hkeep : (if dropna then filter notna s else s) = s).
  { destruct dropna; [now apply filter_notna_text | reflexivity]. }
  exists (sorted (map str (unique s))).
  assert (Hin : forall v, In v (sorted (map str (unique s)))
                          <-> exists r, In r (rows df) /\ at_col i r = Str v).
  { intros v. rewrite sorted_In, in_map_iff. split.
    - intros [c [Ec Hc]].
      pose proof (unique_text s Hs) as Ht. rewrite Forall_forall in Ht.
      destruct (Ht c Hc) as [x ->]. rewrite str_text in Ec. subst x.
      apply (proj1 (unique_In_text _ _)) in Hc. unfold s in Hc.
      apply in_map_iff in Hc.
      destruct Hc as [r [Er Hr]]. eauto.
    - intros [r [Hr Er]]. exists (Str v). split; [apply str_text|].
      apply unique_In_text. unfold s. rewrite <- Er. now apply in_map. }
  split; [|split; [|split]].
  - unfold options, series. rewrite Ecol. cbn [bind]. fold s. now rewrite Hkeep.
  - apply sorted_distinct. now apply unique_texts_distinct.
  - exact Hin.
  - unfold restrict, where_isin.
    destruct (in_list "All" (sorted (map str (unique s)))); simpl.
    + eauto.
    + rewrite Ecol. cbn [bind]. eexists. split; [reflexivity|].
      split; [reflexivity|]. cbn [loc rows]. apply filter_all.
      intros r Hr. destruct (Htext r Hr) as [v Ev]. rewrite Ev. simpl.
      apply in_list_In. apply Hin. eauto.
Qed.

End SidebarProperties.

Lemma options_list_every_value_witness :
  let df := Sample.loaded Sample.three_records in
  exists values,
    options str_of_text true df "Department" = "All" :: values /\
    StronglySorted str_lt values /\
    (forall v, In v values <-> exists r, In r (rows df) /\ at_col 4 r = Str v) /\
    exists view,
      restrict "Department" values df = Ok view /\
      columns view = columns df /\ rows view = rows df.
Proof.
  intros df.
  apply (options_list_every_value str_of_text (fun s => eq_refl) true df
           "Department" 4).
  - vm_compute. reflexivity.
  - intros r Hr. vm_compute in Hr.
    repeat (destruct Hr as [<-|Hr]; [vm_compute; eauto|]). contradiction.
Defined.

(** * Counts, costs and percentages *)

Lemma yes_no_partition (t : nat) (rs : list (list cell)) :
  List.length (filter (fun r => eq_str (at_col t r) "Yes") rs)
  + List.length (filter (fun r => eq_str (at_col t r) "No") rs)
  + List.length (filter (neither_yes_nor_no t) rs)
  = List.length rs.
Proof.
  induction rs as [|r rs IH]; simpl; [reflexivity|].
  unfold neither_yes_nor_no at 1.
  destruct (at_col t r) as [s|q|n|]; simpl; try lia.
  destruct (String.eqb_spec s "Yes") as [->|Hy]; simpl; [lia|].
  destruct (String.eqb s "No"); simpl; lia.
Qed.




(** X9: the tagged and the untagged count never exceed the number of rows
    between them: with the rows whose Tagged field is neither Yes nor No,
    a blank or a null included, they add up to the length of the view.
    On a view with rows both percentages of Task Set 1 are computed, each
    the float quotient of its count by the length, times 100. *)
Theorem counts_partition_the_view (view : DataFrame) :
  In "Tagged" (columns view) ->
  exists t tagged untagged,
    col view "Tagged" = Ok t /\
    tagged_count view = Ok tagged /\
    untagged_count view = Ok untagged /\
    tagged + untagged + List.length (filter (neither_yes_nor_no t) (rows view))
      = len view /\
    (rows view <> [] ->
     tagged_pct_metric view = Ok (of_nat tagged / of_nat (len view) * 100)%float /\
     untagged_pct view = Ok (of_nat untagged / of_nat (len view) * 100)%float).
Proof.
  intros Hin. destruct (col_In view "Tagged" Hin) as [t Et].
  exists t. eexists. eexists. split; [exact Et|].
  unfold tagged_count, untagged_count, tagged_pct_metric, untagged_pct,
    tagged_count, untagged_count, where_eq.
  rewrite Et. cbn [bind]. split; [reflexivity|]. split; [reflexivity|].
  unfold len, loc. cbn [rows].
  pose proof (yes_no_partition t (rows view)) as Hsum.
  split; [exact Hsum|]. intros Hrows.
  assert (Hn : 0 < List.length (rows view)).
  { destruct (rows view); [contradiction | simpl; lia]. }
  rewrite !py_div_nonzero by assumption. cbn [bind].
  apply Nat.ltb_lt in Hn. rewrite Hn. cbn [bind]. split; reflexivity.
Qed.

Lemma counts_partition_the_view_witness :
  let view := Sample.loaded Sample.three_records in
  exists t tagged untagged,
    col view "Tagged" = Ok t /\
    tagged_count view = Ok tagged /\
    untagged_count view = Ok untagged /\
    tagged + untagged + List.length (filter (neither_yes_nor_no t) (rows view))
      = len view /\
    (rows view <> [] ->
     tagged_pct_metric view = Ok (of_nat tagged / of_nat (len view) * 100)%float /\
     untagged_pct view = Ok (of_nat untagged / of_nat (len view) * 100)%float).
Proof.
  intros view. apply (counts_partition_the_view view).
  apply in_list_In. vm_compute. reflexivity.
Defined.



(** * Top contributors and sorted tables *)

Lemma group_keys_nil (s : list cell) :
  group_keys s = [] <-> forall k, ~ In (Str k) s.
Proof.
  split.
  - intros H k Hin. apply group_keys_In in Hin. rewrite H in Hin. contradiction.
  - intros H. destruct (group_keys s) as [|k ks] eqn:E; [reflexivity|].
    exfalso. apply (H k). apply group_keys_In. rewrite E. now left.
Qed.

(** No sum of a table in decreasing order is above the first. *)
Lemma descending_head (a : string * float) (g : list (string * float)) :
  descending (a :: g) ->
  forall b, In b (a :: g) -> (snd a <? snd b)%float = false.
Proof.
  intros H b [<-|Hb]; [apply ltb_irrefl|].
  inversion H as [|? ? _ Hall]; subst. rewrite Forall_forall in Hall.
  apply may_follow_desc_not_above. now apply Hall.
Qed.

(** X11: the department with the most untagged cost.  On a view that
    passed the schema check the table of Task 2.3 is built; its first
    row, the answer shown, has a sum no other department exceeds, and its
    department is that of some untagged row of the view.  When the
    departments are text the table is empty, and the page says there is
    no untagged resource, exactly when the untagged count is 0. *)
Theorem top_department_has_the_largest_sum (lib : Library) (view : DataFrame) :
  sorts lib ->
  missing_cols view = [] ->
  exists t dp g,
    col view "Tagged" = Ok t /\ col view "Department" = Ok dp /\
    dept_untagged lib view = Ok g /\
    (forall k v, top g = Some (k, v) ->
       (forall k' v', In (k', v') g -> (v <? v')%float = false) /\
       exists r, In r (rows view) /\ at_col t r = Str "No" /\ at_col dp r = Str k) /\
    ((forall r, In r (rows view) -> is_text (at_col dp r)) ->
     (g = [] <-> untagged_count view = Ok 0)).
Proof.
  intros Hsorts Hmiss. apply missing_cols_nil in Hmiss.
  destruct (col_In view "Tagged") as [t Et];
    [apply Hmiss; unfold required_cols; simpl; tauto|].
  destruct (col_In view "Department") as [dp Ed];
    [apply Hmiss; unfold required_cols; simpl; tauto|].
  destruct (col_In view "MonthlyCostUSD") as [c Ec];
    [apply Hmiss; unfold required_cols; simpl; tauto|].
  exists t, dp. eexists. split; [exact Et|]. split; [exact Ed|].
  unfold dept_untagged, untagged_count, where_eq, groupby_sum.
  rewrite Et. cbn [bind]. rewrite !col_loc, Ed, Ec. cbn [bind].
  split; [reflexivity|].
  set (no := loc (fun r => eq_str (at_col t r) "No") view).
  set (keys := group_keys (map (at_col dp) (rows no))).
  set (table := map (fun k => (k, group_sum lib (known (map (at_col c)
                                                          (group_rows dp k no)))))
                    keys).
  assert (Hsorted : descending (sort_values_desc lib snd table))
    by now apply sort_values_desc_descending.
  assert (Hperm : Permutation table (sort_values_desc lib snd table))
    by now apply sort_values_desc_Permutation.
  split.
  - intros k v Htop. unfold top in Htop.
    destruct (sort_values_desc lib snd table) as [|a g] eqn:Eg; [discriminate|].
    simpl in Htop. inversion Htop; subst a. split.
    + intros k' v' Hin. exact (descending_head _ _ Hsorted (k', v') Hin).
    + assert (Hin : In (k, v) table).
      { apply (Permutation_in _ (Permutation_sym Hperm)). now left. }
      unfold table in Hin. apply in_map_iff in Hin. destruct Hin as [k0 [E Hk]].
      inversion E; subst k0. unfold keys in Hk. apply group_keys_In in Hk.
      apply in_map_iff in Hk. destruct Hk as [r [Er Hr]].
      unfold no, loc in Hr. cbn [rows] in Hr. apply filter_In in Hr.
      destruct Hr as [Hr Hno]. exists r. split; [assumption|]. split; [|assumption].
      destruct (at_col t r) as [s| | |]; simpl in Hno; try discriminate.
      apply String.eqb_eq in Hno. now subst.
  - intros Htext. unfold len. split.
    + intros Hnil. f_equal.
      assert (Htab : table = []).
      { apply Permutation_nil. rewrite <- Hnil. now apply Permutation_sym. }
      assert (Hkeys : keys = []).
      { unfold table in Htab. destruct keys; [reflexivity | discriminate]. }
      unfold keys in Hkeys.
      pose proof (proj1 (group_keys_nil _) Hkeys) as Hnone.
      assert (Hall : forall r, ~ In r (rows no)).
      { intros r Hin.
        assert (Hr : In r (rows view)).
        { unfold no, loc in Hin. cbn [rows] in Hin. apply filter_In in Hin. tauto. }
        destruct (Htext r Hr) as [k Ek]. apply (Hnone k).
        rewrite <- Ek. now apply in_map. }
      destruct (rows no) as [|r rs]; [reflexivity|].
      exfalso. apply (Hall r). now left.
    + intros Hzero. inversion Hzero as [Hlen].
      assert (Hrows : rows no = []).
      { destruct (rows no); [reflexivity | discriminate]. }
      assert (Htab : table = []) by (unfold table, keys; now rewrite Hrows).
      clear Hsorted. revert Hperm. rewrite Htab. apply Permutation_nil.
Qed.

Lemma top_department_has_the_largest_sum_witness :
  let view := Sample.loaded Sample.three_records in
  let lib := in_file_order in
  exists t dp g,
    col view "Tagged" = Ok t /\ col view "Department" = Ok dp /\
    dept_untagged lib view = Ok g /\
    (forall k v, top g = Some (k, v) ->
       (forall k' v', In (k', v') g -> (v <? v')%float = false) /\
       exists r, In r (rows view) /\ at_col t r = Str "No" /\ at_col dp r = Str k) /\
    ((forall r, In r (rows view) -> is_text (at_col dp r)) ->
     (g = [] <-> untagged_count view = Ok 0)).
Proof.
  intros view lib. apply (top_department_has_the_largest_sum lib view).
  - exact in_file_order_sorts.
  - vm_compute. reflexivity.
Defined.

(** X12: the table of Task 4.3 is the other way round: the cost by
    service holds every group of the grouped table once, the smallest sum
    first and a sum that is NaN last, so that no sum is below the first. *)
Theorem service_cost_is_ascending (lib : Library) (view : DataFrame) :
  sorts lib ->
  In "Service" (columns view) -> In "MonthlyCostUSD" (columns view) ->
  exists table g,
    groupby_sum lib view "Service" "MonthlyCostUSD" = Ok table /\
    service_cost lib view = Ok g /\
    Permutation table g /\
    ascending_by snd g /\
    NoDup (map fst g).
Proof.
  intros Hsorts Hs Hc.
  destruct (groupby_sum_Ok lib view "Service" "MonthlyCostUSD" Hs Hc)
    as [ki [vi [_ [_ E]]]].
  eexists. eexists. split; [exact E|].
  unfold service_cost. rewrite E. cbn [bind]. split; [reflexivity|].
  split; [now apply sort_values_asc_Permutation|].
  split; [now apply sort_values_asc_ascending|].
  eapply Permutation_NoDup.
  - apply Permutation_map. now apply sort_values_asc_Permutation.
  - rewrite map_map. cbn [fst]. rewrite map_id. apply group_keys_NoDup.
Qed.

Lemma service_cost_is_ascending_witness :
  let view := Sample.loaded Sample.three_records in
  let lib := in_file_order in
  exists table g,
    groupby_sum lib view "Service" "MonthlyCostUSD" = Ok table /\
    service_cost lib view = Ok g /\
    Permutation table g /\
    ascending_by snd g /\
    NoDup (map fst g).
Proof.
  intros view lib. apply (service_cost_is_ascending lib view).
  - exact in_file_order_sorts.
  - apply in_list_In. vm_compute. reflexivity.
  - apply in_list_In. vm_compute. reflexivity.
Defined.

(** * The environment summary *)

Lemma mapM_map {A B : Type} (f : A -> result B) (g : A -> B) (l : list A) :
  (forall a, In a l -> f a = Ok (g a)) -> mapM f l = Ok (map g l).
Proof.
  induction l as [|a l IH]; simpl; intros H; [reflexivity|].
  rewrite (H a) by now left. cbn [bind].
  rewrite IH by (intros x Hx; apply H; now right). reflexivity.
Qed.

Lemma list_sum_map_plus {A : Type} (f g : A -> nat) (l : list A) :
  list_sum (map (fun x => f x + g x) l) = list_sum (map f l) + list_sum (map g l).
Proof. induction l as [|x l IH]; simpl; [reflexivity | rewrite IH; lia]. Qed.

Lemma list_sum_indicator (k0 : string) (ks : list string) :
  NoDup ks -> In k0 ks ->
  list_sum (map (fun k => if String.eqb k0 k then 1 else 0) ks) = 1.
Proof.
  induction 1 as [|k ks Hnin Hnd IH]; simpl; intros Hin; [contradiction|].
  destruct (String.eqb_spec k0 k) as [->|Hne].
  - f_equal. clear IH Hin Hnd. induction ks as [|x ks IH]; simpl; [reflexivity|].
    destruct (String.eqb_spec k x) as [->|_]; [exfalso; apply Hnin; now left|].
    apply IH. intros H. apply Hnin. now right.
  - destruct Hin as [->|Hin]; [contradiction | now apply IH].
Qed.

(** Over distinct keys that cover the keys of the rows, the group sizes
    add up to the number of rows. *)
Lemma group_sizes_add_up (ki : nat) (ks : list string) (rs : list (list cell)) :
  NoDup ks ->
  (forall r, In r rs -> exists k, at_col ki r = Str k /\ In k ks) ->
  list_sum (map (fun k => List.length (filter (fun r => eq_str (at_col ki r) k) rs)) ks)
  = List.length rs.
Proof.
  intros Hnd. induction rs as [|r rs IH]; intros Hkeys.
  - simpl. clear. induction ks as [|k ks IHk]; simpl; [reflexivity | assumption].
  - destruct (Hkeys r) as [k0 [Ek Hin]]; [now left|].
    rewrite (map_ext _
               (fun k => (if String.eqb k0 k then 1 else 0)
                         + List.length (filter (fun r => eq_str (at_col ki r) k) rs))).
    + rewrite list_sum_map_plus, list_sum_indicator by assumption.
      rewrite IH by (intros r' Hr'; apply Hkeys; now right). reflexivity.
    + intros k. simpl. rewrite Ek. simpl. destruct (String.eqb k0 k); reflexivity.
Qed.

Lemma tagged_pct_value (env_df : DataFrame) (t : nat) :
  col env_df "Tagged" = Ok t -> tagged_pct env_df = Ok (tagging_pct_of t env_df).
Proof.
  intros Et. unfold tagged_pct, where_eq, tagging_pct_of. rewrite Et. cbn [bind].
  destruct (0 <? len env_df) eqn:G; [|reflexivity].
  apply Nat.ltb_lt in G. now rewrite py_div_nonzero.
Qed.

(** X13: the environment summary of Task 2.5 on a view of loaded data.
    It is built, with one row per environment in ascending order of the
    names, each the row of its environment: the sum of the costs of its
    records, their number, and the share of them tagged Yes.  Every row
    counts at least one resource, the resource counts add up to the
    length of the view, and the records of the environments, one
    environment after the other, are the records of the view in another
    order. *)
Theorem env_summary_accounts_for_every_row (lib : Library) (view : DataFrame) :
  missing_cols view = [] -> text_outside_cost view ->
  exists ei ci ri t e,
    col view "Environment" = Ok ei /\ col view "MonthlyCostUSD" = Ok ci /\
    col view "ResourceID" = Ok ri /\ col view "Tagged" = Ok t /\
    env_summary lib view = Ok e /\
    e = map (env_row lib ei ci ri t view) (map env_name e) /\
    StronglySorted str_lt (map env_name e) /\
    list_sum (map env_total_resources e) = len view /\
    Forall (fun row => 0 < env_total_resources row) e /\
    Permutation (flat_map (fun env => group_rows ei env view) (map env_name e))
                (rows view).
Proof.
  intros Hmiss Htext. apply missing_cols_nil in Hmiss.
  destruct (col_In view "Environment") as [ei Ee];
    [apply Hmiss; unfold required_cols; simpl; tauto|].
  destruct (col_In view "MonthlyCostUSD") as [ci Ec];
    [apply Hmiss; unfold required_cols; simpl; tauto|].
  destruct (col_In view "ResourceID") as [ri Er];
    [apply Hmiss; unfold required_cols; simpl; tauto|].
  destruct (col_In view "Tagged") as [t Et];
    [apply Hmiss; unfold required_cols; simpl; tauto|].
  set (keys := group_keys (map (at_col ei) (rows view))).
  assert (Hsum : env_summary lib view = Ok (map (env_row lib ei ci ri t view) keys)).
  { unfold env_summary. rewrite Ee, Ec, Er. cbn [bind]. apply mapM_map.
    intros env _. unfold where_eq. rewrite Ee. cbn [bind].
    rewrite (tagged_pct_value _ t) by (rewrite col_loc; exact Et).
    reflexivity. }
  assert (Hkeys : forall r, In r (rows view) ->
                    exists k, at_col ei r = Str k /\ In k keys).
  { apply (key_cells_are_text view "Environment"); [assumption | assumption|].
    intros H. discriminate. }
  assert (Hrid : forall r, In r (rows view) -> notna (at_col ri r) = true).
  { intros r Hr. apply col_Ok in Er.
    destruct (Htext r ri "ResourceID" Hr Er) as [s Hs]; [intros H; discriminate|].
    unfold at_col. now rewrite (nth_error_nth _ _ _ Hs). }
  assert (Hgroup : forall k,
             filter (fun r => notna (at_col ri r))
                    (filter (fun r => eq_str (at_col ei r) k) (rows view))
             = filter (fun r => eq_str (at_col ei r) k) (rows view)).
  { intros k. apply filter_all. intros r Hr. apply filter_In in Hr.
    apply Hrid. tauto. }
  assert (Hnames : map env_name (map (env_row lib ei ci ri t view) keys) = keys).
  { rewrite map_map. cbn [env_row env_name]. apply map_id. }
  exists ei, ci, ri, t. eexists.
  split; [exact Ee|]. split; [exact Ec|]. split; [exact Er|]. split; [exact Et|].
  split; [exact Hsum|]. rewrite Hnames.
  split; [reflexivity|]. split; [apply group_keys_sorted|].
  split; [|split].
  - rewrite map_map. cbn [env_row env_total_resources loc rows].
    rewrite (map_ext _ (fun k => List.length
                                   (filter (fun r => eq_str (at_col ei r) k)
                                           (rows view))))
      by (intros k; now rewrite Hgroup).
    apply group_sizes_add_up; [apply group_keys_NoDup | exact Hkeys].
  - rewrite Forall_map. apply Forall_forall. intros k Hk.
    cbn [env_row env_total_resources loc rows].
    rewrite Hgroup. unfold keys in Hk. apply group_keys_In in Hk.
    apply in_map_iff in Hk. destruct Hk as [r [Ek Hr]].
    assert (Hin : In r (filter (fun r => eq_str (at_col ei r) k) (rows view))).
    { apply filter_In. split; [assumption|]. rewrite Ek. simpl.
      apply String.eqb_refl. }
    destruct (filter (fun r => eq_str (at_col ei r) k) (rows view));
      [contradiction | simpl; lia].
  - unfold group_rows.
    apply groups_partition_rows; [apply group_keys_NoDup | exact Hkeys].
Qed.

Lemma env_summary_accounts_for_every_row_witness :
  let view := Sample.loaded Sample.three_records in
  let lib := in_file_order in
  exists ei ci ri t e,
    col view "Environment" = Ok ei /\ col view "MonthlyCostUSD" = Ok ci /\
    col view "ResourceID" = Ok ri /\ col view "Tagged" = Ok t /\
    env_summary lib view = Ok e /\
    e = map (env_row lib ei ci ri t view) (map env_name e) /\
    StronglySorted str_lt (map env_name e) /\
    list_sum (map env_total_resources e) = len view /\
    Forall (fun row => 0 < env_total_resources row) e /\
    Permutation (flat_map (fun env => group_rows ei env view) (map env_name e))
                (rows view).
Proof.
  intros view lib. apply (env_summary_accounts_for_every_row lib view).
  - vm_compute. reflexivity.
  - apply (load_data_text Decimal.to_numeric Sample.three_records).
    vm_compute. reflexivity.
Defined.

(** * Assigning and reading a column *)

(** X14: a column assigned to a frame is read back as it was assigned,
    whether its label is new or replaces a column of that label, and
    every column of another label reads as before: the statistics of Task
    Set 3 read exactly the scores Task 3.1 stored, and the assignment
    disturbs no other field. *)
Theorem assigned_column_reads_back
  (d : DataFrame) (label : string) (values : list cell) :
  rectangular d -> List.length values = len d ->
  series (set_column d label values) label = Ok values /\
  len (set_column d label values) = len d /\
  forall other, other <> label ->
    series (set_column d label values) other = series d other.
Proof. apply set_column_series. Qed.

Lemma assigned_column_reads_back_witness :
  let d := Sample.loaded Sample.three_records in
  let values := [Int 5; Int 4; Int 4] in
  series (set_column d "TagCompletenessScore" values) "TagCompletenessScore"
    = Ok values /\
  len (set_column d "TagCompletenessScore" values) = len d /\
  forall other, other <> "TagCompletenessScore" ->
    series (set_column d "TagCompletenessScore" values) other = series d other.
Proof.
  intros d values.
  apply (assigned_column_reads_back d "TagCompletenessScore" values).
  - vm_compute. repeat constructor.
  - reflexivity.
Defined.

(** * Scores and missing tags on any frame *)

Lemma filter_notna_isna_length (r : list cell) :
  List.length (filter notna r) + List.length (filter isna r) = List.length r.
Proof.
  induction r as [|c r IH]; simpl; [reflexivity|].
  unfold notna at 1. destruct (isna c); simpl; lia.
Qed.

Lemma scores_plus_missing (ts : list (list cell)) :
  Forall (fun r => List.length r = 5) ts ->
  list_sum (map (fun r => List.length (filter notna r)) ts)
  + List.length (filter isna (List.concat ts))
  = 5 * List.length ts.
Proof.
  induction 1 as [|r ts Hr _ IH]; simpl; [reflexivity|].
  rewrite filter_app, length_app.
  pose proof (filter_notna_isna_length r). lia.
Qed.

Lemma nulls_by_column (ts : list (list cell)) :
  Forall (fun r => List.length r = 5) ts ->
  List.length (filter (fun r => isna (at_col 0 r)) ts)
  + List.length (filter (fun r => isna (at_col 1 r)) ts)
  + List.length (filter (fun r => isna (at_col 2 r)) ts)
  + List.length (filter (fun r => isna (at_col 3 r)) ts)
  + List.length (filter (fun r => isna (at_col 4 r)) ts)
  = List.length (filter isna (List.concat ts)).
Proof.
  induction 1 as [|r ts Hr _ IH]; [reflexivity|].
  destruct r as [|a [|b [|c [|d [|e [|x r]]]]]]; try discriminate.
  cbn [List.concat]. rewrite filter_app, length_app, <- IH.
  cbn [filter at_col nth].
  destruct (isna a), (isna b), (isna c), (isna d), (isna e); simpl; lia.
Qed.

Lemma list_sum_Permutation (l l' : list nat) :
  Permutation l l' -> list_sum l = list_sum l'.
Proof. induction 1; simpl; lia. Qed.

Lemma StronglySorted_map_impl {A B : Type} (R : A -> A -> Prop)
  (S : B -> B -> Prop) (f : A -> B) (l : list A) :
  (forall a b, R a b -> S (f a) (f b)) ->
  StronglySorted R l -> StronglySorted S (map f l).
Proof.
  intros H. induction 1 as [|a l Hl IH Hall]; simpl; constructor; [assumption|].
  rewrite Forall_map. eapply Forall_impl; [|exact Hall]. intros b. apply H.
Qed.

(** X15: scores and missing tags on any frame with distinct labels that
    has the five tag columns, nulls or not.  Every row gets a score, from
    0 to 5; the scores and the null tag cells together make five per row.
    The census of Task 3.3 lists the five tag fields, each once, by
    decreasing count, and its counts add up to the number of null tag
    cells. *)
Theorem scores_and_census_account_for_every_tag (lib : Library) (d : DataFrame) :
  sorts lib ->
  NoDup (columns d) -> incl tag_columns (columns d) ->
  exists scores census missing,
    TagCompletenessScore d = Ok scores /\
    missing_tags lib d = Ok census /\
    missing_tag_cells d = Ok missing /\
    List.length scores = len d /\
    Forall (fun n => n <= 5) scores /\
    list_sum scores + missing = 5 * len d /\
    Permutation (map (fun x => fst (fst x)) census) tag_columns /\
    list_sum (map (fun x => snd (fst x)) census) = missing /\
    StronglySorted (fun a b => snd (fst b) <= snd (fst a)) census.
Proof.
  intros Hsorts Hnd Hincl.
  destruct (select_distinct d tag_columns Hnd Hincl) as [idx [F Esel]].
  assert (Hlen : List.length idx = 5) by (apply Forall2_length in F; exact F).
  set (ts := map (at_cols idx) (rows d)) in *.
  assert (Hw : Forall (fun r => List.length r = 5) ts).
  { unfold ts. rewrite Forall_map. apply Forall_forall. intros r _.
    unfold at_cols. now rewrite length_map. }
  unfold TagCompletenessScore, missing_tags, missing_tag_cells.
  rewrite Esel. cbn [bind rows].
  do 3 eexists. repeat (split; [reflexivity|]).
  split; [unfold ts, len; now rewrite !length_map|].
  split.
  { rewrite Forall_map. eapply Forall_impl; [|exact Hw].
    intros r Hr. simpl in Hr. rewrite <- Hr. apply filter_length_le. }
  split.
  { replace (len d) with (List.length ts)
      by (unfold ts, len; now rewrite length_map).
    now apply scores_plus_missing. }
  unfold census.
  set (counts := isnull_sum (mkDF tag_columns ts)).
  pose proof (sort_counts_desc_Permutation lib Hsorts
                (fun lc : string * nat => Z.of_nat (snd lc)) counts) as Hperm.
  split; [|split].
  - rewrite map_map. cbn [fst].
    etransitivity; [apply Permutation_map, Permutation_sym, Hperm|].
    unfold counts, isnull_sum, tag_columns. cbn -[at_col filter]. reflexivity.
  - rewrite map_map. cbn [fst snd].
    erewrite list_sum_Permutation
      by (apply Permutation_map, Permutation_sym, Hperm).
    unfold counts, isnull_sum, tag_columns. cbn -[at_col filter].
    rewrite <- (nulls_by_column ts Hw). lia.
  - eapply StronglySorted_map_impl;
      [|apply (sort_counts_desc_descending lib Hsorts
                 (fun lc : string * nat => Z.of_nat (snd lc)) counts)].
    intros a b Hab. cbn [fst snd]. cbv beta in Hab. lia.
Qed.

Lemma scores_and_census_account_for_every_tag_witness :
  let d := Sample.one_row_added in
  exists scores census missing,
    TagCompletenessScore d = Ok scores /\
    missing_tags in_file_order d = Ok census /\
    missing_tag_cells d = Ok missing /\
    List.length scores = len d /\
    Forall (fun n => n <= 5) scores /\
    list_sum scores + missing = 5 * len d /\
    Permutation (map (fun x => fst (fst x)) census) tag_columns /\
    list_sum (map (fun x => snd (fst x)) census) = missing /\
    StronglySorted (fun a b => snd (fst b) <= snd (fst a)) census.
Proof.
  intros d. apply (scores_and_census_account_for_every_tag in_file_order d).
  - exact in_file_order_sorts.
  - apply distinct_NoDup. vm_compute. reflexivity.
  - apply all_among_incl. vm_compute. reflexivity.
Defined.

(** * The remediation comparison *)

Lemma filter_map_length {A B : Type} (p : B -> bool) (f : A -> B) (l : list A) :
  List.length (filter p (map f l)) = List.length (filter (fun x => p (f x)) l).
Proof.
  induction l as [|x l IH]; simpl; [reflexivity|].
  destruct (p (f x)); simpl; now rewrite IH.
Qed.

Lemma null_rows_and_null_cells (ts : list (list cell)) :
  Forall (fun r => List.length r = 5) ts ->
  List.length (filter (existsb isna) ts) <= List.length (filter isna (List.concat ts)) /\
  List.length (filter isna (List.concat ts)) <= 5 * List.length (filter (existsb isna) ts).
Proof.
  induction 1 as [|r ts Hr _ [IH1 IH2]]; simpl; [lia|].
  rewrite filter_app, length_app.
  pose proof (filter_length_le isna r) as Hle. rewrite Hr in Hle.
  destruct (existsb isna r) eqn:E; simpl.
  - apply existsb_exists in E. destruct E as [c [Hc Hna]].
    assert (Hin : In c (filter isna r)) by (apply filter_In; tauto).
    destruct (filter isna r); [contradiction | simpl in *; lia].
  - assert (Hnone : filter isna r = []).
    { destruct (filter isna r) as [|c cs] eqn:Ef; [reflexivity|].
      assert (Hin : In c (filter isna r)) by (rewrite Ef; now left).
      apply filter_In in Hin. destruct Hin as [Hin Hna].
      assert (Hex : existsb isna r = true) by (apply existsb_exists; eauto).
      congruence. }
    rewrite Hnone. simpl. lia.
Qed.

(** X16: the two figures of the After panel.  On an edited copy with
    distinct labels that has the five tag columns, the improvement lies
    between the number of rows before minus the number of rows after and
    the number of rows before; the rows still missing a tag are at most
    the remaining missing tags, which are at most five times as many; and
    the improvement equals the number of rows before exactly when no
    missing tag remains. *)
Theorem improvement_and_remaining_missing_tags (before after : DataFrame) :
  NoDup (columns after) -> incl tag_columns (columns after) ->
  exists incomplete missing_after got,
    rows_missing_a_tag after = Ok incomplete /\
    missing_tag_cells after = Ok missing_after /\
    improvement before after = Ok got /\
    (Z.of_nat (len before) - Z.of_nat (len after) <= got <= Z.of_nat (len before))%Z /\
    len incomplete <= missing_after <= 5 * len incomplete /\
    (got = Z.of_nat (len before) <-> missing_after = 0).
Proof.
  intros Hnd Hincl.
  destruct (cols_distinct after tag_columns Hnd Hincl) as [idx [Ecols F]].
  assert (Hlen : List.length idx = 5) by (apply Forall2_length in F; exact F).
  unfold improvement, rows_missing_a_tag, missing_tag_cells, select.
  rewrite Ecols. cbn [bind rows].
  do 3 eexists. repeat (split; [reflexivity|]).
  set (ts := map (at_cols idx) (rows after)).
  assert (Hw : Forall (fun r => List.length r = 5) ts).
  { unfold ts. rewrite Forall_map. apply Forall_forall. intros r _.
    unfold at_cols. now rewrite length_map. }
  assert (Hinc : len (loc (fun r => existsb isna (at_cols idx r)) after)
                 = List.length (filter (existsb isna) ts)).
  { unfold len, loc, ts. cbn [rows]. now rewrite filter_map_length. }
  rewrite Hinc.
  destruct (null_rows_and_null_cells ts Hw) as [H1 H2].
  assert (Hle : List.length (filter (existsb isna) ts) <= len after).
  { rewrite <- Hinc. apply loc_len_le. }
  repeat split; try lia.
Qed.

Lemma improvement_and_remaining_missing_tags_witness :
  let before := Sample.remediation_copy (Sample.loaded Sample.three_records) in
  let after := Sample.one_row_added in
  exists incomplete missing_after got,
    rows_missing_a_tag after = Ok incomplete /\
    missing_tag_cells after = Ok missing_after /\
    improvement before after = Ok got /\
    (Z.of_nat (len before) - Z.of_nat (len after) <= got <= Z.of_nat (len before))%Z /\
    len incomplete <= missing_after <= 5 * len incomplete /\
    (got = Z.of_nat (len before) <-> missing_after = 0).
Proof.
  intros before after.
  apply (improvement_and_remaining_missing_tags before after).
  - apply distinct_NoDup. vm_compute. reflexivity.
  - apply all_among_incl. vm_compute. reflexivity.
Defined.

(** * The untagged resources of Tasks 3.4 and 3.5 *)

(** X17: the untagged resources table of Task 3.4 on a view with distinct
    labels that passed the schema check.  It is built, with the seven
    columns ResourceID, Service, Department, Project, Environment,
    MonthlyCostUSD, Owner; its rows are those of the untagged records in
    another order, the known costs first by decreasing cost and the null
    costs last; so the count the export line of Task 3.5 shows is the
    untagged count of Task 1.4, and the costs it adds up are the costs
    under the untagged cost of Task 2.1, in the order of the table. *)
Theorem untagged_resources_match_the_metrics (lib : Library) (view : DataFrame) :
  sorts lib ->
  NoDup (columns view) -> missing_cols view = [] ->
  exists t ci u untagged known unknown,
    col view "Tagged" = Ok t /\ col view "MonthlyCostUSD" = Ok ci /\
    untagged_resources lib view = Ok u /\
    untagged_count view = Ok untagged /\
    columns u = untagged_columns /\
    len u = untagged /\
    total_cost lib u = Ok (nansum lib (map (at_col 5) (rows u))) /\
    untagged_cost lib view
      = Ok (nansum lib (map (at_col ci)
                            (filter (fun r => eq_str (at_col t r) "No") (rows view)))) /\
    Permutation (map (at_col 5) (rows u))
                (map (at_col ci)
                     (filter (fun r => eq_str (at_col t r) "No") (rows view))) /\
    rows u = known ++ unknown /\
    StronglySorted (fun a b => fle (number (at_col 5 b)) (number (at_col 5 a))) known /\
    Forall (fun r => is_nan (number (at_col 5 r)) = false) known /\
    Forall (fun r => is_nan (number (at_col 5 r)) = true) unknown.
Proof.
  intros Hsorts Hnd Hmiss. apply missing_cols_nil in Hmiss.
  destruct (col_In view "Tagged") as [t Et];
    [apply Hmiss; unfold required_cols; simpl; tauto|].
  destruct (positions_NoDup "MonthlyCostUSD" (columns view) Hnd) as [ci Eci];
    [apply Hmiss; unfold required_cols; simpl; tauto|].
  set (no := loc (fun r => eq_str (at_col t r) "No") view).
  destruct (select_distinct no untagged_columns) as [idx [F Esel]];
    [exact Hnd | |].
  { intros l Hl. apply Hmiss. revert l Hl. apply all_among_incl. reflexivity. }
  assert (Hidx : exists i0 i1 i2 i3 i4 i6, idx = [i0; i1; i2; i3; i4; ci; i6]).
  { unfold untagged_columns in F.
    inversion F as [|i0 ? l0 ? _ F0]; subst. inversion F0 as [|i1 ? l1 ? _ F1]; subst.
    inversion F1 as [|i2 ? l2 ? _ F2]; subst. inversion F2 as [|i3 ? l3 ? _ F3]; subst.
    inversion F3 as [|i4 ? l4 ? _ F4]; subst. inversion F4 as [|i5 ? l5 ? H5 F5]; subst.
    inversion F5 as [|i6 ? l6 ? _ F6]; subst. inversion F6; subst.
    exists i0, i1, i2, i3, i4, i6. repeat f_equal.
    cbn [columns no loc] in H5. apply positions_spec in H5.
    rewrite Eci in H5. destruct H5 as [H5|[]]. now symmetry. }
  destruct Hidx as [i0 [i1 [i2 [i3 [i4 [i6 Eidx]]]]]].
  assert (Hcell : forall r, at_col 5 (at_cols idx r) = at_col ci r).
  { intros r. rewrite Eidx. reflexivity. }
  set (sub := map (at_cols idx) (rows no)) in *.
  set (value := fun r => number (at_col 5 r)).
  pose proof (sort_values_desc_Permutation lib Hsorts value sub) as Hperm.
  pose proof (sort_values_desc_descending lib Hsorts value sub) as Hdesc.
  unfold sort_values_desc, sort_values, descending_by in Hperm, Hdesc.
  set (known := rev (take (argsort lib (map value
                             (rev (filter (fun a => negb (is_nan (value a))) sub))))
                          (rev (filter (fun a => negb (is_nan (value a))) sub)))) in *.
  set (unknown := filter (fun a => is_nan (value a)) sub) in *.
  assert (Hknown : Forall (fun r => is_nan (value r) = false) known).
  { apply Forall_forall. intros r Hr.
    destruct (sort_values_nulls_last lib Hsorts false value sub) as [ordered [E P]].
    unfold sort_values in E. apply app_inv_tail in E. fold known in E.
    rewrite <- E in P. apply (Permutation_in _ P) in Hr.
    apply filter_In in Hr. destruct Hr as [_ Hr].
    now destruct (is_nan (value r)). }
  assert (Ecol : col view "MonthlyCostUSD" = Ok ci) by (unfold col; now rewrite Eci).
  exists t, ci, (mkDF untagged_columns (known ++ unknown)), (len no), known, unknown.
  split; [exact Et|]. split; [exact Ecol|]. split.
  { unfold untagged_resources, where_eq. rewrite Et. cbn [bind]. fold no.
    rewrite Esel. reflexivity. }
  split; [unfold untagged_count, where_eq; now rewrite Et|].
  split; [reflexivity|]. split.
  { unfold len. cbn [rows]. rewrite <- (Permutation_length Hperm).
    unfold sub. now rewrite length_map. }
  split; [reflexivity|]. split.
  { unfold untagged_cost, where_eq. rewrite Et. cbn [bind].
    unfold total_cost, series. rewrite col_loc, Ecol. reflexivity. }
  split.
  { cbn [rows]. eapply Permutation_trans;
      [apply Permutation_map, Permutation_sym, Hperm|].
    unfold sub. rewrite map_map.
    rewrite (map_ext _ (at_col ci)) by exact Hcell. reflexivity. }
  split; [reflexivity|]. split; [|split].
  - assert (Hpre : StronglySorted
                     (fun a b => may_follow_desc (value a) (value b)) known).
    { clear -Hdesc. induction known as [|r known IH]; [constructor|].
      simpl in Hdesc. inversion Hdesc as [|? ? Hs Hall]; subst.
      constructor; [now apply IH|]. apply Forall_app in Hall. tauto. }
    clear -Hpre Hknown. induction Hpre as [|r known Hs IH Hall]; [constructor|].
    inversion Hknown as [|? ? Hr Hk]; subst. constructor; [now apply IH|].
    rewrite Forall_forall in *. intros b Hb.
    destruct (Hall b Hb) as [Hn|Hle]; [|exact Hle].
    rewrite (Hk b Hb) in Hn. discriminate.
  - exact Hknown.
  - apply Forall_forall. intros r Hr. apply filter_In in Hr. tauto.
Qed.

Lemma untagged_resources_match_the_metrics_witness :
  let view := Sample.loaded Sample.three_records in
  let lib := in_file_order in
  exists t ci u untagged known unknown,
    col view "Tagged" = Ok t /\ col view "MonthlyCostUSD" = Ok ci /\
    untagged_resources lib view = Ok u /\
    untagged_count view = Ok untagged /\
    columns u = untagged_columns /\
    len u = untagged /\
    total_cost lib u = Ok (nansum lib (map (at_col 5) (rows u))) /\
    untagged_cost lib view
      = Ok (nansum lib (map (at_col ci)
                            (filter (fun r => eq_str (at_col t r) "No") (rows view)))) /\
    Permutation (map (at_col 5) (rows u))
                (map (at_col ci)
                     (filter (fun r => eq_str (at_col t r) "No") (rows view))) /\
    rows u = known ++ unknown /\
    StronglySorted (fun a b => fle (number (at_col 5 b)) (number (at_col 5 a))) known /\
    Forall (fun r => is_nan (number (at_col 5 r)) = false) known /\
    Forall (fun r => is_nan (number (at_col 5 r)) = true) unknown.
Proof.
  intros view lib. apply (untagged_resources_match_the_metrics lib view).
  - exact in_file_order_sorts.
  - apply distinct_NoDup. vm_compute. reflexivity.
  - vm_compute. reflexivity.
Defined.

(** * How the page ends *)

Section PageOutcomes.

Variable to_numeric : string -> option float.
Variable lib : Library.

(** X18: how a run of the page ends.  A load that raises is shown as a
    load error and nothing else runs; a loaded frame that lacks a
    required column stops the page with the list of the missing columns.
    Otherwise, with distinct labels, the filters never raise, and the run
    ends in one of two ways: on a view without rows it stops uncaught on
    the division by zero of Task 1.4; on a view with rows every
    aggregation runs, the report is shown and the canonical dataset is
    the loaded frame as it was. *)
Theorem page_outcomes (lines : list string) (sel : Selections) :
  match load_data to_numeric lines with
  | Raise e => page to_numeric lib lines sel = LoadErrorShown e
  | Ok d =>
      (missing_cols d <> [] ->
       page to_numeric lib lines sel = MissingColumnsShown (missing_cols d)) /\
      (missing_cols d = [] -> NoDup (columns d) ->
       exists view,
         apply_filters d sel = Ok view /\
         (rows view = [] ->
          page to_numeric lib lines sel = Uncaught ZeroDivisionError) /\
         (rows view <> [] ->
          exists report session,
            page to_numeric lib lines sel = Shown (report, session) /\
            df session = d /\
            shown_total report = len view /\
            len (filtered_df session) = len view /\
            tagged_count view = Ok (shown_tagged_count report) /\
            untagged_count view = Ok (shown_untagged_count report) /\
            total_cost lib view = Ok (shown_total_cost report)))
  end.
Proof.
  unfold page. destruct (load_data to_numeric lines) as [d|e]; [|reflexivity].
  split.
  - intros Hne. destruct (missing_cols d); [contradiction | reflexivity].
  - intros Hmiss Hnd. rewrite Hmiss.
    destruct (filter_columns_Ok d Hmiss) as [i1 [i2 [i3 [i4 [E1 [E2 [E3 E4]]]]]]].
    rewrite (apply_filters_loc d sel i1 i2 i3 i4 E1 E2 E3 E4).
    eexists. split; [reflexivity|].
    apply missing_cols_nil in Hmiss. split.
    + intros Hrows. rewrite aggregations_stop_on_empty; [reflexivity | | assumption].
      cbn [loc columns]. apply Hmiss. unfold required_cols. simpl. tauto.
    + intros Hrows.
      destruct (aggregations_run lib d (loc (row_passes sel i1 i2 i3 i4) d))
        as [report [after [Erun [H1 [H2 [H3 [H4 [H5 _]]]]]]]]; try assumption.
      rewrite Erun. exists report, (mkSession d after).
      cbn [df filtered_df]. repeat split; assumption.
Qed.

End PageOutcomes.

Lemma page_outcomes_witness :
  page Decimal.to_numeric in_file_order [] default_selections = LoadErrorShown IndexError /\
  page Decimal.to_numeric in_file_order ["ResourceID,MonthlyCostUSD"; "R1,5"] default_selections
    = MissingColumnsShown
        ["AccountID"; "Service"; "Region"; "Department"; "Project"; "Environment";
         "Owner"; "CostCenter"; "CreatedBy"; "Tagged"] /\
  exists report session,
    page Decimal.to_numeric in_file_order Sample.three_records
         (mkSel ["Eng"] ["All"] ["All"] ["All"])
      = Shown (report, session) /\
    df session = Sample.loaded Sample.three_records /\
    shown_total report = 2.
Proof.
  split; [|split].
  - exact (page_outcomes Decimal.to_numeric in_file_order [] default_selections).
  - apply (proj1 (page_outcomes Decimal.to_numeric in_file_order
                    ["ResourceID,MonthlyCostUSD"; "R1,5"] default_selections)).
    vm_compute. intros H. discriminate H.
  - pose proof (page_outcomes Decimal.to_numeric in_file_order Sample.three_records
                  (mkSel ["Eng"] ["All"] ["All"] ["All"])) as H.
    change (load_data Decimal.to_numeric Sample.three_records)
      with (Ok (Sample.loaded Sample.three_records)) in H.
    destruct H as [_ H].
    destruct H as [view [Ev [_ H]]].
    + vm_compute. reflexivity.
    + apply distinct_NoDup. vm_compute. reflexivity.
    + assert (Hview : view = loc (fun r => eq_str (at_col 4 r) "Eng")
                               (Sample.loaded Sample.three_records)).
      { vm_compute in Ev. inversion Ev. vm_compute. reflexivity. }
      destruct H as [report [session [Ep [Ed [Ht _]]]]].
      * rewrite Hview. vm_compute. intros H0. discriminate H0.
      * exists report, session. split; [exact Ep|]. split; [exact Ed|].
        rewrite Ht, Hview. vm_compute. reflexivity.
Defined.

(** * Export and load *)

Lemma lstrip_app (s t : string) :
  PyStr.lstrip (s ++ t)%string
  = match PyStr.lstrip s with
    | EmptyString => PyStr.lstrip t
    | _ => (PyStr.lstrip s ++ t)%string
    end.
Proof.
  induction s as [|c s IH]; simpl; [now destruct (PyStr.lstrip t)|].
  destruct (PyStr.isspace c); [assumption | reflexivity].
Qed.

Lemma rstrip_app_newline (s : string) :
  PyStr.rstrip (with_newline s) = PyStr.rstrip s.
Proof.
  unfold with_newline. induction s as [|c s IH]; simpl; [reflexivity|].
  simpl in IH. now rewrite IH.
Qed.

Lemma strip_newline (s : string) : PyStr.strip (with_newline s) = PyStr.strip s.
Proof.
  unfold PyStr.strip, with_newline. rewrite lstrip_app.
  destruct (PyStr.lstrip s) as [|c t] eqn:E; [reflexivity|].
  apply (rstrip_app_newline (String c t)).
Qed.

Lemma lstrip_shorter (s : string) :
  PyStr.lstrip s = s \/ String.length (PyStr.lstrip s) < String.length s.
Proof.
  induction s as [|c s IH]; simpl; [now left|].
  destruct (PyStr.isspace c); [right | now left].
  destruct IH as [->|IH]; lia.
Qed.

Lemma rstrip_length (s : string) :
  String.length (PyStr.rstrip s) <= String.length s.
Proof.
  induction s as [|c s IH]; simpl; [lia|].
  destruct (PyStr.rstrip s); [destruct (PyStr.isspace c)|]; simpl in *; lia.
Qed.

Lemma strip_fixed (s : string) :
  PyStr.strip s = s -> PyStr.lstrip s = s /\ PyStr.rstrip s = s.
Proof.
  unfold PyStr.strip. intros H.
  destruct (lstrip_shorter s) as [E|Hlt].
  - rewrite E in H. tauto.
  - exfalso. pose proof (rstrip_length (PyStr.lstrip s)) as Hle.
    rewrite H in Hle. lia.
Qed.

Lemma lstrip_app_fixed (a b : string) :
  PyStr.lstrip a = a -> a <> EmptyString -> PyStr.lstrip (a ++ b)%string = (a ++ b)%string.
Proof.
  intros H Hne. rewrite lstrip_app, H. destruct a; [contradiction | reflexivity].
Qed.

Lemma rstrip_app_fixed (a b : string) :
  PyStr.rstrip b = b -> b <> EmptyString -> PyStr.rstrip (a ++ b)%string = (a ++ b)%string.
Proof.
  intros H Hne. induction a as [|c a IH]; simpl; [assumption|].
  rewrite IH. destruct (a ++ b)%string eqn:E; [|reflexivity].
  destruct a; simpl in E; [contradiction | discriminate].
Qed.

Lemma concat_cons (f g : string) (fs : list string) :
  String.concat "," (f :: g :: fs)
  = (f ++ String PyStr.comma (String.concat "," (g :: fs)))%string.
Proof. reflexivity. Qed.

Lemma lstrip_concat (fs : list string) :
  Forall (fun f => PyStr.lstrip f = f) fs ->
  PyStr.lstrip (String.concat "," fs) = String.concat "," fs.
Proof.
  intros H. destruct H as [|f fs Hf Hfs]; [reflexivity|].
  destruct fs as [|g fs]; [exact Hf|].
  rewrite concat_cons. destruct f as [|c f]; [reflexivity|].
  now apply lstrip_app_fixed.
Qed.

Lemma rstrip_concat (fs : list string) :
  Forall (fun f => PyStr.rstrip f = f) fs ->
  PyStr.rstrip (String.concat "," fs) = String.concat "," fs.
Proof.
  induction 1 as [|f fs Hf Hfs IH]; [reflexivity|].
  destruct fs as [|g fs]; [exact Hf|].
  rewrite concat_cons.
  destruct (String.concat "," (g :: fs)) as [|c t] eqn:E.
  - apply (rstrip_app_fixed f (String PyStr.comma EmptyString));
      [reflexivity | discriminate].
  - apply (rstrip_app_fixed f); [|discriminate].
    rewrite rstrip_head by reflexivity. now rewrite IH.
Qed.

Lemma contains_app (c : ascii) (a b : string) :
  contains c (a ++ b)%string = contains c a || contains c b.
Proof.
  induction a as [|x a IH]; simpl; [reflexivity|]. now rewrite IH, orb_assoc.
Qed.

Lemma contains_concat (c : ascii) (fs : list string) :
  Ascii.eqb PyStr.comma c = false ->
  Forall (fun f => contains c f = false) fs ->
  contains c (String.concat "," fs) = false.
Proof.
  intros Hc. induction 1 as [|f fs Hf Hfs IH]; [reflexivity|].
  destruct fs as [|g fs]; [exact Hf|].
  rewrite concat_cons, contains_app, Hf. cbn [contains orb]. now rewrite Hc, IH.
Qed.

Lemma remove_absent (c : ascii) (s : string) :
  contains c s = false -> PyStr.remove c s = s.
Proof.
  induction s as [|x s IH]; simpl; [reflexivity|]. intros H.
  apply orb_false_iff in H. destruct H as [Hx Hs]. now rewrite Hx, IH.
Qed.

Lemma split_none (sep : ascii) (f : string) :
  contains sep f = false -> PyStr.split sep f = [f].
Proof.
  induction f as [|x f IH]; simpl; [reflexivity|]. intros H.
  apply orb_false_iff in H. destruct H as [Hx Hf]. now rewrite Hx, IH.
Qed.

Lemma split_app (sep : ascii) (f t : string) :
  contains sep f = false ->
  PyStr.split sep (f ++ String sep t)%string = f :: PyStr.split sep t.
Proof.
  induction f as [|x f IH]; simpl.
  - intros _. now rewrite Ascii.eqb_refl.
  - intros H. apply orb_false_iff in H. destruct H as [Hx Hf].
    now rewrite Hx, IH.
Qed.

Lemma split_concat (fs : list string) :
  fs <> [] -> Forall (fun f => contains PyStr.comma f = false) fs ->
  PyStr.split PyStr.comma (String.concat "," fs) = fs.
Proof.
  intros Hne H. induction H as [|f fs Hf Hfs IH]; [contradiction|].
  destruct fs as [|g fs]; [now apply split_none|].
  rewrite concat_cons, split_app by assumption. f_equal.
  apply IH. discriminate.
Qed.

Lemma csv_field_exportable (s : string) : exportable s -> csv_field s = s.
Proof.
  intros [[Hc [Hq _]] [Hl Hr]]. unfold csv_field. now rewrite Hc, Hq, Hl, Hr.
Qed.

(** The loader's fields of an exported line are the fields written. *)
Lemma exported_line_parses_back (fs : list string) :
  fs <> [] -> Forall exportable fs ->
  parse_line (with_newline (String.concat "," (map csv_field fs))) = fs.
Proof.
  intros Hne Hall.
  assert (Hmap : map csv_field fs = fs).
  { clear Hne. induction Hall as [|f fs Hf _ IH]; simpl; [reflexivity|].
    now rewrite (csv_field_exportable f Hf), IH. }
  rewrite Hmap. unfold parse_line. rewrite strip_newline.
  assert (Hstrip : PyStr.strip (String.concat "," fs) = String.concat "," fs).
  { unfold PyStr.strip. rewrite lstrip_concat, rstrip_concat; [reflexivity| |].
    - eapply Forall_impl; [|exact Hall]. intros f [[_ [_ Hs]] _].
      now apply strip_fixed.
    - eapply Forall_impl; [|exact Hall]. intros f [[_ [_ Hs]] _].
      now apply strip_fixed. }
  rewrite Hstrip, remove_absent, split_concat; try assumption.
  - clear Hne Hmap Hstrip. induction Hall as [|f fs [[_ [_ Hs]] _] _ IH]; simpl;
      [reflexivity | now rewrite Hs, IH].
  - eapply Forall_impl; [|exact Hall]. now intros f [[Hc _] _].
  - apply contains_concat; [reflexivity|].
    eapply Forall_impl; [|exact Hall]. now intros f [[_ [Hq _]] _].
Qed.

Section ExportRoundTrip.

Variable float_repr : float -> string.
Variable int_repr : Z -> string.

(** X19: export and load agree on text.  A frame of text cells, labels
    and cells free of commas, double quotes, line breaks and outer white
    space (as loaded text is), is written by [to_csv] without a quote,
    and the loader's line parser reads every exported line back to the
    labels and to the cells that were written. *)
Theorem text_export_parses_back
  (labels : list string) (texts : list (list string)) :
  labels <> [] -> Forall exportable labels ->
  Forall (fun r => r <> [] /\ Forall exportable r) texts ->
  map parse_line
      (map with_newline (to_csv float_repr int_repr (mkDF labels (map (map Str) texts))))
  = labels :: texts.
Proof.
  intros Hne Hlabels Htexts. unfold to_csv. cbn [columns rows map].
  rewrite (exported_line_parses_back labels Hne Hlabels). f_equal.
  rewrite !map_map.
  induction Htexts as [|r texts [Hr Hall] _ IH]; simpl; [reflexivity|].
  rewrite IH. f_equal.
  rewrite map_map. cbn [csv_cell].
  rewrite <- (map_map (fun x => x) csv_field), map_id.
  now apply exported_line_parses_back.
Qed.

End ExportRoundTrip.

Lemma text_export_parses_back_witness :
  map parse_line
      (map with_newline
           (to_csv (fun _ => EmptyString) (fun _ => EmptyString)
                   (mkDF ["ResourceID"; "Owner"]
                         (map (map Str) [["R1"; "ann"]; ["R2"; ""]]))))
  = ["ResourceID"; "Owner"] :: [["R1"; "ann"]; ["R2"; ""]].
Proof.
  apply (text_export_parses_back (fun _ => EmptyString) (fun _ => EmptyString)
           ["ResourceID"; "Owner"] [["R1"; "ann"]; ["R2"; ""]]).
  - intros H. discriminate H.
  - repeat constructor.
  - repeat constructor; intros H; discriminate H.
Defined.

(** * The compliance panel on loaded data *)

Lemma sum_of_fives (n : nat) :
  fold_right Z.add 0%Z (map int_of (score_cells (repeat 5 n))) = (5 * Z.of_nat n)%Z.
Proof.
  induction n as [|n IH]; [reflexivity|].
  change (repeat 5 (S n)) with (5 :: repeat 5 n).
  unfold score_cells in *. cbn [map fold_right int_of]. rewrite IH. lia.
Qed.

Lemma counts_of_fives (n : nat) :
  count_eq_num (score_cells (repeat 5 n)) 5 = n /\
  count_lt_num (score_cells (repeat 5 n)) 3 = 0.
Proof.
  unfold count_eq_num, count_lt_num, score_cells.
  induction n as [|n [IH1 IH2]]; [split; reflexivity|].
  change (repeat 5 (S n)) with (5 :: repeat 5 n). cbn [map filter].
  change (Z.of_nat 5 =? 5)%Z with true.
  change (Z.of_nat 5 <? 3)%Z with false.
  cbn [List.length]. split; [now rewrite IH1 | exact IH2].
Qed.

Section ComplianceOnLoadedData.

Variable to_numeric : string -> option float.
Variable lib : Library.

(** X20: on loaded data the compliance panel cannot tell records apart.
    Whatever the file and the filters, on a view with rows the average
    completeness score the page shows is 5, every resource counts as
    fully tagged and none as poorly tagged, however many tag fields the
    file left blank. *)
Theorem compliance_panel_is_constant_on_loaded_data
  (lines : list string) (sel : Selections) (d view : DataFrame) :
  load_data to_numeric lines = Ok d ->
  apply_filters d sel = Ok view ->
  NoDup (columns d) -> missing_cols d = [] -> rows view <> [] ->
  exists report session avg,
    aggregations lib (mkSession d view) = Ok (report, session) /\
    shown_avg_completeness report = Some avg /\
    (avg == 5)%Q /\
    shown_fully_tagged report = len view /\
    shown_poorly_tagged report = 0.
Proof.
  intros Hload Hview Hnd Hmiss Hrows.
  destruct (apply_filters_Ok _ _ _ Hview) as [Hc Hr].
  pose proof (load_data_text _ _ _ Hload) as Htext.
  pose proof (load_data_rectangular _ _ _ Hload) as Hrect.
  assert (Htext' : text_outside_cost view)
    by (eapply text_outside_cost_view; eauto).
  assert (Hrect' : rectangular view).
  { unfold rectangular in *. rewrite Hc. rewrite Forall_forall in *.
    intros r Hin. apply Hrect. now apply Hr. }
  apply missing_cols_nil in Hmiss. rewrite <- Hc in Hnd, Hmiss.
  assert (Htags : incl tag_columns (columns view)).
  { intros l Hl. apply Hmiss. revert l Hl. apply all_among_incl. reflexivity. }
  destruct (score_of_text lib view Hnd Htags Htext') as [Escore _].
  destruct (aggregations_run lib d view Hnd Hmiss Hrows)
    as [report [after [Erun [_ [_ [_ [_ [_ [scores [Es [_ Hstats]]]]]]]]]]].
  rewrite Escore in Es. inversion Es; subst scores.
  destruct (Hstats Hrect') as [Havg [Hfull Hpoor]].
  destruct (counts_of_fives (len view)) as [C1 C2].
  assert (Hn : 0 < len view).
  { unfold len. destruct (rows view); [contradiction | simpl; lia]. }
  exists report, (mkSession d after).
  exists (inject_Z (fold_right Z.add 0%Z
                       (map int_of (score_cells (repeat 5%nat (len view)))))
          / inject_Z (Z.of_nat (List.length (score_cells (repeat 5%nat (len view))))))%Q.
  split; [exact Erun|]. split; [|split; [|split]].
  - rewrite Havg. unfold mean.
    destruct (len view) as [|n]; [lia | reflexivity].
  - unfold score_cells at 2. rewrite length_map, repeat_length, sum_of_fives.
    unfold Qeq, Qdiv, Qmult, Qinv, inject_Z. cbn [Qnum Qden].
    destruct (Z.of_nat (len view)) as [|p|p] eqn:Ep; try lia.
    cbn [Qnum Qden]. lia.
  - now rewrite Hfull.
  - now rewrite Hpoor.
Qed.

End ComplianceOnLoadedData.

Lemma compliance_panel_is_constant_on_loaded_data_witness :
  let d := Sample.loaded Sample.three_records in
  exists report session avg,
    aggregations in_file_order (mkSession d d) = Ok (report, session) /\
    shown_avg_completeness report = Some avg /\
    (avg == 5)%Q /\
    shown_fully_tagged report = len d /\
    shown_poorly_tagged report = 0.
Proof.
  intros d.
  apply (compliance_panel_is_constant_on_loaded_data Decimal.to_numeric in_file_order
           Sample.three_records default_selections d d).
  - vm_compute. reflexivity.
  - vm_compute. reflexivity.
  - apply distinct_NoDup. vm_compute. reflexivity.
  - vm_compute. reflexivity.
  - vm_compute. intros H. discriminate H.
Defined.

(** * The missing values table *)

Lemma filter_nothing {A : Type} (p : A -> bool) (l : list A) :
  (forall x, In x l -> p x = false) -> filter p l = [].
Proof.
  induction l as [|x l IH]; simpl; intros H; [reflexivity|].
  rewrite (H x) by now left. apply IH. intros y Hy. apply H. now right.
Qed.

Lemma combine_seq_nth {A : Type} (l : list A) (start i : nat) (x : A) :
  In (i, x) (combine (seq start (List.length l)) l) ->
  start <= i /\ nth_error l (i - start) = Some x.
Proof.
  revert start. induction l as [|y l IH]; intros start H; simpl in H;
    [contradiction|].
  destruct H as [H|H].
  - inversion H; subst. rewrite Nat.sub_diag. split; [lia | reflexivity].
  - apply IH in H. destruct H as [Hle Hn]. split; [lia|].
    replace (i - start) with (S (i - S start)) by lia. exact Hn.
Qed.

Lemma isnull_sum_labels (d : DataFrame) : map fst (isnull_sum d) = columns d.
Proof.
  unfold isnull_sum. rewrite map_map. cbn [fst].
  generalize 0. induction (columns d) as [|c cs IH]; intros start; simpl;
    [reflexivity|]. now rewrite IH.
Qed.

(** X21: the missing values table of Task 1.2.  It has one row per column
    of the view, by decreasing count, and no count exceeds the number of
    rows.  Its percentages are defined exactly when the view has rows: on
    a view without rows each of them is NaN, not 0, and nothing is
    raised.  On a view whose text fields are never null, as loaded data
    is, only the cost column can have a count other than 0. *)
Theorem missing_df_lists_every_column (lib : Library) (view : DataFrame) :
  sorts lib ->
  Permutation (map (fun x => fst (fst x)) (missing_df lib view)) (columns view) /\
  StronglySorted (fun a b => snd (fst b) <= snd (fst a)) (missing_df lib view) /\
  Forall (fun x => snd (fst x) <= len view) (missing_df lib view) /\
  (rows view = [] -> Forall (fun x => snd x = None) (missing_df lib view)) /\
  (rows view <> [] ->
   Forall (fun x => exists p, snd x = Some p) (missing_df lib view)) /\
  (text_outside_cost view ->
   Forall (fun x => fst (fst x) <> "MonthlyCostUSD" -> snd (fst x) = 0)
          (missing_df lib view)).
Proof.
  intros Hsorts. unfold missing_df, census.
  set (counts := isnull_sum view).
  pose proof (sort_counts_desc_Permutation lib Hsorts
                (fun lc : string * nat => Z.of_nat (snd lc)) counts) as Hperm.
  assert (Hcount : forall lc, In lc counts ->
            snd lc <= len view /\
            (text_outside_cost view -> fst lc <> "MonthlyCostUSD" -> snd lc = 0)).
  { intros lc Hin. unfold counts, isnull_sum in Hin. apply in_map_iff in Hin.
    destruct Hin as [[i label] [<- Hin]]. cbn [fst snd]. split.
    - apply filter_length_le.
    - intros Htext Hne. apply combine_seq_nth in Hin. destruct Hin as [_ Hi].
      rewrite Nat.sub_0_r in Hi.
      assert (Hnone : filter (fun r => isna (at_col i r)) (rows view) = []).
      { apply filter_nothing. intros r Hr.
        destruct (Htext r i label Hr Hi Hne) as [s Hs].
        unfold at_col. now rewrite (nth_error_nth _ _ _ Hs). }
      now rewrite Hnone. }
  assert (Hsorted : forall lc,
            In lc (sort_counts_desc lib
                     (fun lc : string * nat => Z.of_nat (snd lc)) counts) ->
            In lc counts).
  { intros lc. apply Permutation_in. now apply Permutation_sym. }
  split; [|split; [|split; [|split; [|split]]]].
  - rewrite map_map. cbn [fst].
    etransitivity; [apply Permutation_map, Permutation_sym, Hperm|].
    unfold counts. now rewrite isnull_sum_labels.
  - eapply StronglySorted_map_impl;
      [|apply (sort_counts_desc_descending lib Hsorts
                 (fun lc : string * nat => Z.of_nat (snd lc)) counts)].
    intros a b Hab. cbn [fst snd]. cbv beta in Hab. lia.
  - rewrite Forall_map. apply Forall_forall. intros lc Hin. cbn [fst snd].
    apply Hcount. now apply Hsorted.
  - intros Hrows. rewrite Forall_map. apply Forall_forall. intros lc _.
    cbn [snd]. unfold np_percent, len. now rewrite Hrows.
  - intros Hrows. rewrite Forall_map. apply Forall_forall. intros lc _.
    cbn [snd]. unfold np_percent, len.
    destruct (rows view); [contradiction | simpl; eauto].
  - intros Htext. rewrite Forall_map. apply Forall_forall. intros lc Hin.
    cbn [fst snd]. apply Hcount; [now apply Hsorted | assumption].
Qed.

Lemma missing_df_lists_every_column_witness :
  let view := Sample.loaded Sample.three_records in
  let lib := in_file_order in
  Permutation (map (fun x => fst (fst x)) (missing_df lib view)) (columns view) /\
  StronglySorted (fun a b => snd (fst b) <= snd (fst a)) (missing_df lib view) /\
  Forall (fun x => snd (fst x) <= len view) (missing_df lib view) /\
  (rows view = [] -> Forall (fun x => snd x = None) (missing_df lib view)) /\
  (rows view <> [] ->
   Forall (fun x => exists p, snd x = Some p) (missing_df lib view)) /\
  (text_outside_cost view ->
   Forall (fun x => fst (fst x) <> "MonthlyCostUSD" -> snd (fst x) = 0)
          (missing_df lib view)).
Proof.
  intros view lib. apply (missing_df_lists_every_column lib view).
  exact in_file_order_sorts.
Defined.

(** * Cross-tabulations *)

Lemma under_key_block (a : string)
  (block : string -> list (string * string * float)) (ks : list string) :
  (forall k entry, In entry (block k) -> fst (fst entry) = k) ->
  NoDup ks -> In a ks ->
  under_key a (flat_map block ks) = block a.
Proof.
  intros Hblock Hnd Hin. unfold under_key.
  assert (Hown : forall k, filter (fun entry => String.eqb (fst (fst entry)) k)
                                  (block k) = block k).
  { intros k. apply filter_all. intros entry He.
    rewrite (Hblock k entry He). apply String.eqb_refl. }
  assert (Hother : forall k, k <> a ->
             filter (fun entry => String.eqb (fst (fst entry)) a) (block k) = []).
  { intros k Hne. apply filter_nothing. intros entry He.
    rewrite (Hblock k entry He). now apply String.eqb_neq. }
  induction Hnd as [|k ks Hnin Hnd IH]; [contradiction|].
  simpl. rewrite filter_app. destruct Hin as [->|Hin].
  - rewrite Hown.
    assert (Hrest : filter (fun entry => String.eqb (fst (fst entry)) a)
                           (flat_map block ks) = []).
    { clear IH Hnd. induction ks as [|k ks IH]; simpl; [reflexivity|].
      rewrite filter_app, Hother, IH; [reflexivity | | ].
      - intros H. apply Hnin. now right.
      - intros ->. apply Hnin. now left. }
    rewrite Hrest. apply app_nil_r.
  - rewrite Hother by (intros ->; contradiction). simpl. now apply IH.
Qed.

(** X22: the cross-tabulations of Tasks 2.5 and 4.2, cost by environment
    or department and tagging status, against the cost by that field
    alone, on a view whose text fields are never null.  Both tables are
    built, and the first refines the second: they have the same
    environments or departments; under each of them the first has at
    least one row, each row the sum of the costs of the records of its
    tagging status, and these records, one status after the other, are
    the records the second table sums under that key, in another
    order. *)
Theorem cross_tabulation_refines_the_groups
  (lib : Library) (view : DataFrame) (key : string) :
  key = "Environment" \/ key = "Department" ->
  missing_cols view = [] -> text_outside_cost view ->
  exists e t c cross by_key,
    col view key = Ok e /\ col view "Tagged" = Ok t /\
    col view "MonthlyCostUSD" = Ok c /\
    groupby2_sum lib view key "Tagged" "MonthlyCostUSD" = Ok cross /\
    groupby_sum lib view key "MonthlyCostUSD" = Ok by_key /\
    (key = "Environment" ->
     env_comparison lib view = Ok cross /\ env_cost lib view = Ok by_key) /\
    (key = "Department" -> dept_tag_cost lib view = Ok cross) /\
    (forall entry, In entry cross -> In (fst (fst entry)) (map fst by_key)) /\
    Forall (fun entry =>
              snd entry
              = group_sum lib
                  (known (map (at_col c)
                            (filter (fun r => eq_str (at_col t r) (snd (fst entry)))
                                    (group_rows e (fst (fst entry)) view)))))
           cross /\
    (forall a, In a (map fst by_key) ->
       under_key a cross <> [] /\
       Permutation
         (flat_map (fun entry => filter (fun r => eq_str (at_col t r) (snd (fst entry)))
                                        (group_rows e a view))
                   (under_key a cross))
         (group_rows e a view)).
Proof.
  intros Hkey Hmiss Htext. apply missing_cols_nil in Hmiss.
  destruct (col_In view key) as [e Ee];
    [apply Hmiss; unfold required_cols; destruct Hkey as [->| ->]; simpl; tauto|].
  destruct (col_In view "Tagged") as [t Et];
    [apply Hmiss; unfold required_cols; simpl; tauto|].
  destruct (col_In view "MonthlyCostUSD") as [c Ec];
    [apply Hmiss; unfold required_cols; simpl; tauto|].
  set (keys := group_keys (map (at_col e) (rows view))).
  set (tags := fun a => group_keys (map (at_col t) (group_rows e a view))).
  set (block := fun a =>
         map (fun b => (a, b,
                        group_sum lib
                          (known (map (at_col c)
                                    (group_rows t b
                                       (loc (fun r => eq_str (at_col e r) a) view))))))
             (tags a)).
  set (total := fun a => group_sum lib (known (map (at_col c) (group_rows e a view)))).
  assert (Hblock : forall k entry, In entry (block k) -> fst (fst entry) = k).
  { intros k entry He. unfold block in He. apply in_map_iff in He.
    destruct He as [b [<- _]]. reflexivity. }
  assert (Hcells : forall a r, In r (group_rows e a view) ->
             exists k, at_col t r = Str k /\ In k (tags a)).
  { intros a. apply (key_cells_are_text (loc (fun r => eq_str (at_col e r) a) view)
                                        "Tagged").
    - apply (text_outside_cost_view view); [reflexivity | | exact Htext].
      intros r Hr. cbn [loc rows] in Hr. apply filter_In in Hr. tauto.
    - rewrite col_loc. exact Et.
    - intros H. discriminate. }
  exists e, t, c, (flat_map block keys), (map (fun k => (k, total k)) keys).
  assert (Ecross : groupby2_sum lib view key "Tagged" "MonthlyCostUSD"
                   = Ok (flat_map block keys)).
  { unfold groupby2_sum. rewrite Ee, Et, Ec. reflexivity. }
  assert (Eby : groupby_sum lib view key "MonthlyCostUSD"
                = Ok (map (fun k => (k, total k)) keys)).
  { unfold groupby_sum. rewrite Ee, Ec. reflexivity. }
  split; [exact Ee|]. split; [exact Et|]. split; [exact Ec|].
  split; [exact Ecross|]. split; [exact Eby|].
  split; [intros ->; split; assumption|]. split; [intros ->; assumption|].
  rewrite map_map. cbn [fst]. rewrite map_id.
  split; [|split].
  - intros entry He. apply in_flat_map in He. destruct He as [k [Hk He]].
    now rewrite (Hblock k entry He).
  - apply Forall_forall. intros entry He. apply in_flat_map in He.
    destruct He as [k [_ He]]. unfold block in He. apply in_map_iff in He.
    destruct He as [b [<- _]]. reflexivity.
  - intros a Ha.
    rewrite (under_key_block a block keys Hblock (group_keys_NoDup _) Ha).
    split.
    + unfold keys in Ha. apply group_keys_In in Ha. apply in_map_iff in Ha.
      destruct Ha as [r [Er Hr]].
      assert (Hin : In r (group_rows e a view)).
      { unfold group_rows. apply filter_In. split; [exact Hr|].
        rewrite Er. simpl. apply String.eqb_refl. }
      destruct (Hcells a r Hin) as [k [_ Hk]].
      unfold block. destruct (tags a); [contradiction | discriminate].
    + unfold block. rewrite flat_map_concat_map, map_map, <- flat_map_concat_map.
      cbn [fst snd].
      apply groups_partition_rows; [apply group_keys_NoDup | apply Hcells].
Qed.

Lemma cross_tabulation_refines_the_groups_witness :
  let view := Sample.loaded Sample.three_records in
  let lib := in_file_order in
  let key := "Environment" in
  exists e t c cross by_key,
    col view key = Ok e /\ col view "Tagged" = Ok t /\
    col view "MonthlyCostUSD" = Ok c /\
    groupby2_sum lib view key "Tagged" "MonthlyCostUSD" = Ok cross /\
    groupby_sum lib view key "MonthlyCostUSD" = Ok by_key /\
    (key = "Environment" ->
     env_comparison lib view = Ok cross /\ env_cost lib view = Ok by_key) /\
    (key = "Department" -> dept_tag_cost lib view = Ok cross) /\
    (forall entry, In entry cross -> In (fst (fst entry)) (map fst by_key)) /\
    Forall (fun entry =>
              snd entry
              = group_sum lib
                  (known (map (at_col c)
                            (filter (fun r => eq_str (at_col t r) (snd (fst entry)))
                                    (group_rows e (fst (fst entry)) view)))))
           cross /\
    (forall a, In a (map fst by_key) ->
       under_key a cross <> [] /\
       Permutation
         (flat_map (fun entry => filter (fun r => eq_str (at_col t r) (snd (fst entry)))
                                        (group_rows e a view))
                   (under_key a cross))
         (group_rows e a view)).
Proof.
  intros view lib key. apply (cross_tabulation_refines_the_groups lib view key).
  - left. reflexivity.
  - vm_compute. reflexivity.
  - apply (load_data_text Decimal.to_numeric Sample.three_records).
    vm_compute. reflexivity.
Defined.
